(** * Slice-thickness measurement: a shallow embedding of [main.py]

    The development follows the Python script function by function:
    the half-max thickness detector, the vertical line sampler, the frame
    preprocessor, the frame loop of [analyze_video] and the module-level
    script that calibrates and exports the series.

    Conventions of the model.
    - Python [int] is [Z].  Python [float] is an exact rational [Qc]:
      rounding, infinities and NaN are outside the model, equalities
      between floats are equalities of the rationals they denote.
      The products [max_intensity * threshold] of [calculate_thickness]
      and [width * line_separation_percent] of [extract_vertical_lines]
      are therefore exact here and rounded to a double in Python; the two
      agree at the arguments the script passes, 0.5 and 0.1, and may
      differ by one unit in the last place elsewhere.
    - A console line is classified by what [float] and [int] make of it;
      the literals [inf] and [nan], which [float] accepts, are not
      rationals and count as text.
    - An unsigned 8-bit sample is a [Z]; images are lists of rows.  Frames
      are the non-empty arrays a video delivers: [cv2.cvtColor] rejects an
      empty array, which the model does not.
    - A Python exception is a value of [exn]; code that may raise runs in
      the monad [M], which also threads the module namespace, the pending
      console answers and the trace of observable events. *)

From Stdlib Require Import ZArith QArith Qcanon Qround Lia.
From stdpp Require Import base option list numbers strings gmap sorting.

Local Open Scope Z_scope.

(** * Part I: the program *)

(** ** Exceptions *)

Inductive exn : Type :=
| NameError (name : string)
| UnboundLocalError (name : string)
| ZeroDivisionError
| IndexError
| ValueError
| TypeError
| EOFError
| CvError.

(** The class name under which an exception is reported. *)
Definition exn_class (e : exn) : string :=
  match e with
  | NameError _ => "NameError"
  | UnboundLocalError _ => "UnboundLocalError"
  | ZeroDivisionError => "ZeroDivisionError"
  | IndexError => "IndexError"
  | ValueError => "ValueError"
  | TypeError => "TypeError"
  | EOFError => "EOFError"
  | CvError => "cv2.error"
  end.

Inductive result (A : Type) : Type :=
| Ok (a : A)
| Err (e : exn).
Arguments Ok {A} a.
Arguments Err {A} e.

(** ** Numbers *)

(** [int(x)] on a float: truncation towards zero. *)
Definition py_int (x : Qc) : Z := Z.quot (Qnum x) (Z.pos (Qden x)).

(** [a >= b] and [a < b] on floats. *)
Definition Qc_geb (a b : Qc) : bool := bool_decide (b ≤ a)%Qc.
Definition Qc_ltb (a b : Qc) : bool := bool_decide (a < b)%Qc.

(** [np.max] of a non-empty array of samples. *)
Definition np_max (x : Z) (xs : list Z) : Z := foldl Z.max x xs.

(** ** Thickness detector: [calculate_thickness] *)

(** The three loop variables [thickness], [in_peak] and [start].  Python
    leaves [start] unbound until the first entry; it is read only under
    [in_peak], which is set in the same branch, so the initial value below
    is never observed. *)
Record scan_state : Type := ScanState {
  thickness : Z;
  in_peak : bool;
  start : Z
}.

Definition scan_init : scan_state :=
  {| thickness := 0; in_peak := false; start := 0 |}.

(** One iteration of the [for i in range(len(intensity_profile))] body. *)
Definition scan_step (half_max : Qc) (i : Z) (x : Z) (st : scan_state) : scan_state :=
  if Qc_geb (Qc_of_Z x) half_max && negb (in_peak st) then
    {| thickness := thickness st; in_peak := true; start := i |}
  else if Qc_ltb (Qc_of_Z x) half_max && in_peak st then
    {| thickness := i - start st; in_peak := false; start := start st |}
  else st.

(** The loop from index [i] over the remaining samples. *)
Fixpoint scan (half_max : Qc) (i : Z) (xs : list Z) (st : scan_state) : scan_state :=
  match xs with
  | [] => st
  | x :: xs' => scan half_max (i + 1) xs' (scan_step half_max i x st)
  end.

(** The value [half_max] takes inside [calculate_thickness]. *)
Definition half_max_of (intensity_profile : list Z) (threshold : Qc) : Qc :=
  match intensity_profile with
  | [] => 0%Qc
  | x :: xs => (Qc_of_Z (np_max x xs) * threshold)%Qc
  end.

Definition calculate_thickness (intensity_profile : list Z) (threshold : Qc) : result Z :=
  match intensity_profile with
  | [] => Err ValueError            (* np.max of a zero-size array *)
  | x :: xs =>
      let max_intensity := np_max x xs in
      let half_max := (Qc_of_Z max_intensity * threshold)%Qc in
      Ok (thickness (scan half_max 0 intensity_profile scan_init))
  end.

(** The default [threshold=0.5]. *)
Definition one_half : Qc := Q2Qc (1 # 2).

(** ** Python [range] *)

(** [range(start, stop, step)] for a non-zero step; the caller raises
    [ValueError] on a zero step. *)
Definition py_range_len (start stop step : Z) : Z :=
  if 0 <? step then Z.max 0 ((stop - start + step - 1) / step)
  else Z.max 0 ((start - stop - step - 1) / (- step)).

Definition py_range (start stop step : Z) : list Z :=
  map (λ i : nat, start + Z.of_nat i * step)
      (seq 0 (Z.to_nat (py_range_len start stop step))).

(** ** Images *)

(** A numpy array of shape [(height, width)]: the rows, and the width
    kept apart so that an array without rows still has one. *)
Record image (A : Type) : Type := Image {
  img_width : Z;
  img_rows : list (list A)
}.
Arguments Image {A} _ _.
Arguments img_width {A} _.
Arguments img_rows {A} _.

Definition img_height {A} (img : image A) : Z := Z.of_nat (length (img_rows img)).

(** All rows have the declared width, as in every numpy array. *)
Definition rectangular {A} (img : image A) : Prop :=
  Forall (λ row, Z.of_nat (length row) = img_width img) (img_rows img).

(** A BGR sample and a colour frame. *)
Definition pixel : Type := Z * Z * Z.
Definition frame : Type := image pixel.
Definition gray_image : Type := image Z.

(** [img[y, x]] for indices known to be in range; 0 elsewhere. *)
Definition img_get (img : gray_image) (y x : Z) : Z :=
  default 0 (img_rows img !! Z.to_nat y ≫= λ row, row !! Z.to_nat x).

(** ** The OpenCV operations the script calls *)

(** [cv2.BORDER_REFLECT_101], the default border of the filters:
    [gfedcb|abcdefgh|gfedcba]. *)
Definition reflect101 (n i : Z) : Z :=
  if n =? 1 then 0
  else let p := 2 * (n - 1) in
       let m := i mod p in
       if m <? n then m else p - m.

(** [cvRound]: to the nearest integer, ties to even. *)
Definition cv_round (q : Qc) : Z :=
  let f := Qfloor q in
  let r := (q - Qc_of_Z f)%Qc in
  if Qc_ltb r one_half then f
  else if Qc_ltb one_half r then f + 1
  else if Z.even f then f else f + 1.

(** [saturate_cast<uchar>]. *)
Definition saturate_u8 (z : Z) : Z := Z.max 0 (Z.min 255 z).

(** The coefficient table OpenCV uses for kernels of size 1, 3, 5 and 7
    when sigma is not positive. *)
Definition small_gaussian_tab (ksize : Z) : option (list Qc) :=
  if ksize =? 1 then Some [Q2Qc 1]
  else if ksize =? 3 then Some [Q2Qc (1 # 4); Q2Qc (1 # 2); Q2Qc (1 # 4)]
  else if ksize =? 5 then
    Some [Q2Qc (1 # 16); Q2Qc (1 # 4); Q2Qc (3 # 8); Q2Qc (1 # 4); Q2Qc (1 # 16)]
  else if ksize =? 7 then
    Some [Q2Qc (1 # 32); Q2Qc (7 # 64); Q2Qc (7 # 32); Q2Qc (9 # 32);
          Q2Qc (7 # 32); Q2Qc (7 # 64); Q2Qc (1 # 32)]
  else None.

(** Two parts of OpenCV the model leaves open: the per-pixel luma
    conversion behind [cv2.COLOR_BGR2GRAY] (its fixed-point constants
    changed between releases) and the Gaussian weight
    [exp(-d²/(2σ²))] at distance [d] from the kernel centre, which is
    not a rational number. *)
Class OpenCV : Type := {
  bgr2gray : pixel → Z;
  gauss_weight : Qc → Z → Qc
}.

Definition sum_Qc (l : list Qc) : Qc := foldr Qcplus 0%Qc l.

Section OpenCV.
Context `{cv : OpenCV}.

Definition cvtColor_BGR2GRAY (f : frame) : gray_image :=
  Image (img_width f) (map (map bgr2gray) (img_rows f)).

(** [cv2.getGaussianKernel(ksize, sigma)]: the table when it applies,
    otherwise the weights scaled to sum to one. *)
Definition getGaussianKernel (ksize : Z) (sigma : Qc) : list Qc :=
  match (if bool_decide (sigma ≤ 0)%Qc then small_gaussian_tab ksize else None) with
  | Some k => k
  | None =>
      let s := if bool_decide (0 < sigma)%Qc then sigma
               else (Q2Qc (3 # 10) * ((Qc_of_Z ksize - 1) * one_half - 1) + Q2Qc (8 # 10))%Qc in
      let ws := map (λ j : nat, gauss_weight s (Z.of_nat j - (ksize - 1) / 2))
                    (seq 0 (Z.to_nat ksize)) in
      map (λ w, (w / sum_Qc ws)%Qc) ws
  end.

(** The filtered value at [(y, x)]: the separable kernel applied around
    the pixel with reflected borders. *)
Definition blur_at (kx ky : list Qc) (img : gray_image) (y x : Z) : Qc :=
  let rx := Z.of_nat (length kx) / 2 in
  let ry := Z.of_nat (length ky) / 2 in
  let h := img_height img in
  let w := img_width img in
  sum_Qc (flat_map (λ '(b, wy),
    map (λ '(a, wx),
      (wy * wx * Qc_of_Z (img_get img (reflect101 h (y + Z.of_nat b - ry))
                                      (reflect101 w (x + Z.of_nat a - rx))))%Qc)
      (imap (λ a wx, (a, wx)) kx))
    (imap (λ b wy, (b, wy)) ky)).

(** [cv2.GaussianBlur(src, (kw, kh), sigma)] on an 8-bit image, for the
    positive odd kernel sizes; OpenCV rejects even sizes, and the sizes it
    derives from sigma when given zero are not modelled. *)
Definition GaussianBlur (src : gray_image) (ksize : Z * Z) (sigma : Qc) : result gray_image :=
  let '(kw, kh) := ksize in
  if (0 <? kw) && (0 <? kh) && Z.odd kw && Z.odd kh then
    let kx := getGaussianKernel kw sigma in
    let ky := getGaussianKernel kh sigma in
    Ok (Image (img_width src)
          (imap (λ y row,
             imap (λ x _, saturate_u8 (cv_round (blur_at kx ky src (Z.of_nat y) (Z.of_nat x)))) row)
             (img_rows src)))
  else Err CvError.

End OpenCV.

(** The luma conversion of OpenCV 4 (15-bit fixed point) and a rational
    bell-shaped weight, used to run the model on concrete frames. *)
Definition bgr2gray_fixed15 (p : pixel) : Z :=
  let '(b, g, r) := p in
  Z.shiftr (b * 3735 + g * 19235 + r * 9798 + Z.shiftl 1 14) 15.

Definition opencv_sample : OpenCV :=
  {| bgr2gray := bgr2gray_fixed15;
     gauss_weight := λ s d, (1 / (1 + Qc_of_Z (d * d) / (2 * s * s)))%Qc |}.

(** ** Errors as values *)

Global Instance result_ret : MRet result := λ A a, Ok a.
Global Instance result_bind : MBind result := λ A B f r,
  match r with
  | Ok a => f a
  | Err e => Err e
  end.

(** ** Line sampler: [extract_vertical_lines] *)

(** [frame[:, x].copy()]: numpy counts a negative index from the end and
    raises [IndexError] outside [-width, width). *)
Definition column (frame : gray_image) (x : Z) : result (list Z) :=
  let width := img_width frame in
  let x' := if x <? 0 then x + width else x in
  if (0 <=? x') && (x' <? width) then
    Ok (map (λ row, default 0 (row !! Z.to_nat x')) (img_rows frame))
  else Err IndexError.

(** The [for i in range(num_lines)] loop, appending to [lines]. *)
Fixpoint lines_loop (frame : gray_image) (middle_x num_lines line_separation : Z)
    (indices : list Z) (lines : list (list Z)) : result (list (list Z)) :=
  match indices with
  | [] => Ok lines
  | i :: rest =>
      let x := middle_x + (i - num_lines / 2) * line_separation in
      line ← column frame x;
      lines_loop frame middle_x num_lines line_separation rest (lines ++ [line])
  end.

Definition extract_vertical_lines (frame : gray_image) (num_lines : Z)
    (line_separation_percent : Qc) : result (list (list Z)) :=
  let width := img_width frame in
  let line_separation := py_int (Qc_of_Z width * line_separation_percent) in
  let middle_x := width / 2 in
  lines_loop frame middle_x num_lines line_separation (py_range 0 num_lines 1) [].

(** The column index computed for line [i]. *)
Definition line_column (width num_lines : Z) (line_separation_percent : Qc) (i : Z) : Z :=
  width / 2 + (i - num_lines / 2) * py_int (Qc_of_Z width * line_separation_percent).

(** ** The module namespace, the console and the event trace *)

Inductive pyval : Type :=
| VInt (z : Z)
| VFloat (q : Qc)
| VBool (b : bool)
| VStr (s : string)
| VList (l : list Qc)
| VObject.

(** Truth value of an object, as [if] tests it. *)
Definition truthy (v : pyval) : bool :=
  match v with
  | VInt z => negb (z =? 0)
  | VFloat q => negb (bool_decide (q = 0%Qc))
  | VBool b => b
  | VStr s => negb (bool_decide (s = EmptyString))
  | VList l => negb (bool_decide (l = []))
  | VObject => true
  end.

(** A line typed at the console, by what it parses as. *)
Inductive console_line : Type :=
| LFloat (q : Qc)     (* digits with a fractional part *)
| LInt (z : Z)        (* an integer literal *)
| LText (s : string). (* anything else *)

Inductive event : Type :=
| ConsolePrompt
| FrameRead (frame_num : Z) (success : bool)
| WindowShown (title : string)
| FigureShown
| CsvWritten (rows : list (Qc * Qc * Qc))
| LogWritten (total_pixels : Z) (max_depth_mm pixel_to_mm_ratio : Qc).

Record world : Type := World {
  globals : gmap string pyval;
  stdin : list console_line;
  trace : list event
}.

Definition M (A : Type) : Type := world → world * result A.

Global Instance M_ret : MRet M := λ A a w, (w, Ok a).
Global Instance M_bind : MBind M := λ A B f m w,
  match m w with
  | (w', Ok a) => f a w'
  | (w', Err e) => (w', Err e)
  end.

Definition raise {A} (e : exn) : M A := λ w, (w, Err e).

Definition lift {A} (r : result A) : M A := λ w, (w, r).

Definition emit (ev : event) : M () := λ w,
  (World (globals w) (stdin w) (trace w ++ [ev]), Ok ()).

(** Reading a global name: [NameError] when the module never bound it. *)
Definition get_global (name : string) : M pyval := λ w,
  match globals w !! name with
  | Some v => (w, Ok v)
  | None => (w, Err (NameError name))
  end.

Definition set_global (name : string) (v : pyval) : M () := λ w,
  (World (<[name := v]> (globals w)) (stdin w) (trace w), Ok ()).

(** [input(...)]. *)
Definition input : M console_line := λ w,
  match stdin w with
  | [] => (w, Err EOFError)
  | l :: rest => (World (globals w) rest (trace w ++ [ConsolePrompt]), Ok l)
  end.

(** [float(input(...))], [int(input(...))] and [input(...).lower() == "y"]. *)
Definition input_float : M Qc :=
  l ← input;
  match l with
  | LFloat q => mret q
  | LInt z => mret (Qc_of_Z z)
  | LText _ => raise ValueError
  end.

Definition input_int : M Z :=
  l ← input;
  match l with
  | LInt z => mret z
  | _ => raise ValueError
  end.

Definition input_yes : M bool :=
  l ← input;
  match l with
  | LText s => mret (bool_decide (s = "y") || bool_decide (s = "Y"))
  | _ => mret false
  end.

(** An object used as an integer operand, and as a number. *)
Definition as_int (v : pyval) : result Z :=
  match v with
  | VInt z => Ok z
  | VBool b => Ok (if b then 1 else 0)
  | _ => Err TypeError
  end.

Definition as_number (v : pyval) : result Qc :=
  match v with
  | VInt z => Ok (Qc_of_Z z)
  | VBool b => Ok (if b then 1%Qc else 0%Qc)
  | VFloat q => Ok q
  | _ => Err TypeError
  end.

(** Float division. *)
Definition py_div (a b : Qc) : result Qc :=
  if bool_decide (b = 0%Qc) then Err ZeroDivisionError else Ok (a / b)%Qc.

(** ** The video *)

(** What [cv2.VideoCapture] reports for the selected file: the properties
    the script queries, and the frame a seek-then-read delivers (a failed
    read is [None]). *)
Record video_source : Type := VideoSource {
  frame_count : Z;
  vid_fps : Qc;
  vid_height : Z;
  vid_width : Z;
  frames : Z → option frame
}.

(** [video.set(cv2.CAP_PROP_POS_FRAMES, n); success, frame = video.read()]. *)
Definition video_read (video : video_source) (frame_num : Z) : M (option frame) :=
  let r := frames video frame_num in
  emit (FrameRead frame_num (bool_decide (is_Some r)));; mret r.

(** ** Visualisation hooks *)

(** Each hook tests the global [enable_visualizations] itself. *)
Definition visualize_frame (title : string) : M () :=
  ev ← get_global "enable_visualizations";
  if truthy ev then emit (WindowShown title) else mret ().

Definition visualize_vertical_lines : M () :=
  ev ← get_global "enable_visualizations";
  if truthy ev then visualize_frame "Vertical Lines" else mret ().

(** [plt.subplots(len(vertical_lines), 1, ...)] rejects a grid without
    rows. *)
Definition visualize_intensity_profiles (vertical_lines : list (list Z)) : M () :=
  ev ← get_global "enable_visualizations";
  if truthy ev then
    (if bool_decide (vertical_lines = []) then raise ValueError else mret ());;
    emit FigureShown
  else mret ().

(** The overlay of the measured thicknesses.  Its loop reads
    [line_thicknesses[i]] for every sampled line, and the depth marker
    reads the global name [max_depth]. *)
Definition visualize_intensity_profile (vertical_lines : list (list Z))
    (line_thicknesses : list Z) (depth : Qc) : M () :=
  ev ← get_global "enable_visualizations";
  if truthy ev then
    (if bool_decide (length line_thicknesses < length vertical_lines)%nat
     then raise IndexError else mret ());;
    md ← get_global "max_depth";
    m ← lift (as_number md);
    _ ← lift (py_div depth m);
    visualize_frame "Intensity Profile"
  else mret ().

Section Pipeline.
Context `{cv : OpenCV}.

(** ** Frame preprocessor: [preprocess_frame] *)

Definition preprocess_frame (f : frame) : M gray_image :=
  let gray := cvtColor_BGR2GRAY f in
  blurred ← lift (GaussianBlur gray (1, 1) 0%Qc);
  ev ← get_global "enable_visualizations";
  (if truthy ev then visualize_frame "Preprocessed Frame" else mret ());;
  mret blurred.

(** ** Video analyzer: [analyze_video] *)

(** The stop index of the slice [[:n]] on an axis of length [len]. *)
Definition slice_stop (n len : Z) : Z :=
  if n <? 0 then Z.max (len + n) 0 else Z.min n len.

(** [preprocessed_frame[:top_threshold_pixels, :] = 0]. *)
Definition zero_top_rows (img : gray_image) (top_threshold_pixels : Z) : gray_image :=
  let k := Z.to_nat (slice_stop top_threshold_pixels (img_height img)) in
  Image (img_width img)
    (imap (λ y row, if bool_decide (y < k)%nat then map (λ _, 0) row else row)
          (img_rows img)).

(** The [for line in vertical_lines] loop: thicknesses that are not
    positive are dropped. *)
Fixpoint thickness_loop (threshold : Qc) (vertical_lines : list (list Z))
    (line_thicknesses : list Z) : result (list Z) :=
  match vertical_lines with
  | [] => Ok line_thicknesses
  | line :: rest =>
      t ← calculate_thickness line threshold;
      thickness_loop threshold rest
        (if 0 <? t then line_thicknesses ++ [t] else line_thicknesses)
  end.

Definition sum_Z (l : list Z) : Z := foldr Z.add 0 l.

(** [sum(line_thicknesses) / len(line_thicknesses)]. *)
Definition average (line_thicknesses : list Z) : Qc :=
  (Qc_of_Z (sum_Z line_thicknesses) / Qc_of_Z (Z.of_nat (length line_thicknesses)))%Qc.

(** The [while] loop that re-prompts until the depth lies in
    [[0, height]].  Every iteration consumes one console line, so the
    number of pending lines bounds the iterations. *)
Fixpoint exclusion_prompt_loop (pending : nat) (height : Z) (exclusion_zone_depth : Qc) : M Qc :=
  if Qc_ltb exclusion_zone_depth 0 || Qc_ltb (Qc_of_Z height) exclusion_zone_depth then
    match pending with
    | O => raise EOFError
    | S n =>
        d ← input_float;
        exclusion_prompt_loop n height d
    end
  else mret exclusion_zone_depth.

(** The [if use_exclusion_zone:] block.  Returns the value of
    [top_threshold_pixels] after the block and that of [total_pixels],
    which stays unbound when the first frame cannot be read. *)
Definition exclusion_zone_block (video : video_source) (top_threshold_pixels : Z)
    : M (Z * option Z) :=
  let height := vid_height video in
  uz ← get_global "use_exclusion_zone";
  if truthy uz then
    r ← video_read video 0;
    match r with
    | Some _ =>
        visualize_frame "Exclusion Zone Selection";;
        d0 ← input_float;
        d ← (λ w, exclusion_prompt_loop (length (stdin w)) height d0 w);
        visualize_frame "Exclusion Zone Preview";;
        let top := py_int d in
        fh ← get_global "frame_height";
        h ← lift (as_int fh);
        mret (top, Some (h - top))
    | None => mret (top_threshold_pixels, None)
    end
  else
    fh ← get_global "frame_height";
    h ← lift (as_int fh);
    mret (top_threshold_pixels, Some h).

(** The body of the frame loop for one index: [None] when the iteration
    appends nothing, otherwise the appended depth and thickness. *)
Definition frame_body (video : video_source) (num_lines : Z) (threshold : Qc)
    (line_separation_percent : Qc) (top_threshold_pixels : Z) (depth_increment : Qc)
    (frame_num : Z) : M (option (Qc * Qc)) :=
  r ← video_read video frame_num;
  match r with
  | None => mret None
  | Some f =>
      ev ← get_global "enable_visualizations";
      (if truthy ev then visualize_frame "Original Frame" else mret ());;
      preprocessed_frame ← preprocess_frame f;
      let preprocessed_frame := zero_top_rows preprocessed_frame top_threshold_pixels in
      vertical_lines ← lift (extract_vertical_lines preprocessed_frame num_lines
                               line_separation_percent);
      ev ← get_global "enable_visualizations";
      (if truthy ev then
         visualize_vertical_lines;; visualize_intensity_profiles vertical_lines
       else mret ());;
      line_thicknesses ← lift (thickness_loop threshold vertical_lines []);
      if bool_decide (line_thicknesses = []) then mret None
      else
        let avg_thickness := average line_thicknesses in
        let depth := (Qc_of_Z frame_num * depth_increment)%Qc in
        ev ← get_global "enable_visualizations";
        (if truthy ev then
           visualize_intensity_profile vertical_lines line_thicknesses depth
         else mret ());;
        mret (Some (depth, avg_thickness))
  end.

(** The [for frame_num in range(...)] loop over the lists [depths] and
    [thicknesses]. *)
Fixpoint frame_loop (body : Z → M (option (Qc * Qc))) (frame_nums : list Z)
    (depths thicknesses : list Qc) : M (list Qc * list Qc) :=
  match frame_nums with
  | [] => mret (depths, thicknesses)
  | frame_num :: rest =>
      r ← body frame_num;
      match r with
      | None => frame_loop body rest depths thicknesses
      | Some (depth, avg_thickness) =>
          frame_loop body rest (depths ++ [depth]) (thicknesses ++ [avg_thickness])
      end
  end.

(** [analyze_video]; the returned wall-clock duration is left out. *)
Definition analyze_video (video : video_source) (frame_interval : Z) (max_depth : Qc)
    (num_lines : Z) (threshold : Qc) (line_separation_percent : Qc)
    (top_threshold_pixels : Z) : M (list Qc * list Qc * Z) :=
  let max_frame_num := frame_count video in
  '(top_threshold_pixels, total_pixels) ← exclusion_zone_block video top_threshold_pixels;
  depth_increment ← lift (py_div max_depth (Qc_of_Z (frame_count video)));
  (if frame_interval =? 0 then raise ValueError else mret ());;
  '(depths, thicknesses) ←
    frame_loop (frame_body video num_lines threshold line_separation_percent
                  top_threshold_pixels depth_increment)
      (py_range 0 max_frame_num frame_interval) [] [];
  match total_pixels with
  | Some total_pixels => mret (depths, thicknesses, total_pixels)
  | None => raise (UnboundLocalError "total_pixels")
  end.

End Pipeline.

(** ** The module-level script *)

(** The names bound by the [import] and [def] statements.  A name that
    the module does not bind is looked up among the builtins, which hold
    none of the names the script reads from its functions. *)
Definition module_namespace : gmap string pyval :=
  list_to_map ((λ name, (name, VObject)) <$>
    ["np"; "cv2"; "csv"; "plt"; "tk"; "filedialog"; "time";
     "select_video_file"; "select_save_location"; "prompt_user";
     "preprocess_frame"; "extract_vertical_lines"; "calculate_thickness";
     "visualize_frame"; "visualize_vertical_lines";
     "visualize_intensity_profiles"; "visualize_intensity_profile";
     "analyze_video"]).

(** [prompt_user()]. *)
Definition prompt_user : M (Qc * Z * Qc * bool * bool) :=
  max_depth_cm ← input_float;
  let max_depth_mm := (max_depth_cm * Qc_of_Z 10)%Qc in
  frame_interval ← input_int;
  desired_interval ← input_float;
  use_multiple_lines ← input_yes;
  enable_visualizations ← input_yes;
  mret (max_depth_mm, frame_interval, desired_interval, use_multiple_lines,
        enable_visualizations).

(** The [line_separation_percent=0.1] of both calls. *)
Definition one_tenth : Qc := Q2Qc (1 # 10).

Section Script.
Context `{cv : OpenCV}.

(** The keyword argument
    [top_threshold_pixels=top_threshold_pixels if use_exclusion_zone else 0],
    evaluated in the module namespace. *)
Definition top_threshold_argument (use_exclusion_zone : bool) : M Z :=
  if use_exclusion_zone then
    v ← get_global "top_threshold_pixels";
    lift (as_int v)
  else mret 0.

(** The [if use_multiple_lines:] test selects between two calls that
    differ in the line count only: the prompted [num_lines], or 1. *)
Definition num_lines_argument (use_multiple_lines : bool) : M Z :=
  if use_multiple_lines then
    n ← input_int;
    set_global "num_lines" (VInt n);;
    mret n
  else mret 1.

(** The statements that follow the call of [analyze_video]: the
    assignment of its results, the calibration, and the CSV file, the
    plot and the log file. *)
Definition calibrate_and_export (max_depth_mm : Qc)
    (results : list Qc * list Qc * Z) : M () :=
  let '(depths, thicknesses, total_pixels) := results in
  set_global "depths" (VList depths);;
  set_global "thicknesses" (VList thicknesses);;
  set_global "analysis_time" VObject;;
  set_global "total_pixels" (VInt total_pixels);;
  pixel_to_mm_ratio ← lift (py_div max_depth_mm (Qc_of_Z total_pixels));
  set_global "pixel_to_mm_ratio" (VFloat pixel_to_mm_ratio);;
  let thicknesses_mm := map (λ thickness, (thickness * pixel_to_mm_ratio)%Qc) thicknesses in
  set_global "thicknesses_mm" (VList thicknesses_mm);;
  emit (CsvWritten (zip (zip depths thicknesses) thicknesses_mm));;
  emit FigureShown;;
  emit (LogWritten total_pixels max_depth_mm pixel_to_mm_ratio).

(** The statements of the script after the function definitions, for
    the file and the directory chosen in the dialogs. *)
Definition main_script (video_path save_location : string) (video : video_source) : M () :=
  set_global "video_path" (VStr video_path);;
  set_global "save_location" (VStr save_location);;
  set_global "video" VObject;;
  set_global "frame_width" (VInt (vid_width video));;
  set_global "frame_height" (VInt (vid_height video));;
  '(max_depth_mm, frame_interval, desired_interval, use_multiple_lines,
    enable_visualizations) ← prompt_user;
  set_global "max_depth_mm" (VFloat max_depth_mm);;
  set_global "frame_interval" (VInt frame_interval);;
  set_global "desired_interval" (VFloat desired_interval);;
  set_global "use_multiple_lines" (VBool use_multiple_lines);;
  set_global "enable_visualizations" (VBool enable_visualizations);;
  use_exclusion_zone ← input_yes;
  set_global "use_exclusion_zone" (VBool use_exclusion_zone);;
  num_lines ← num_lines_argument use_multiple_lines;
  top ← top_threshold_argument use_exclusion_zone;
  results ← analyze_video video frame_interval max_depth_mm num_lines one_half one_tenth top;
  calibrate_and_export max_depth_mm results.

(** A run of the program: the script started in a fresh namespace with
    the given console lines pending. *)
Definition run_script (video_path save_location : string) (video : video_source)
    (console : list console_line) : world * result () :=
  main_script video_path save_location video (World module_namespace console []).

End Script.

(** * Part II: the vocabulary of the statements *)

(** ** Profiles *)

(** A sample at or above the half maximum, and one below it. *)
Definition above (half_max : Qc) (x : Z) : Prop := (half_max ≤ Qc_of_Z x)%Qc.
Definition below (half_max : Qc) (x : Z) : Prop := (Qc_of_Z x < half_max)%Qc.

(** Two scan states that no later iteration can tell apart: [start]
    matters only inside a peak. *)
Definition scan_agree (s1 s2 : scan_state) : Prop :=
  thickness s1 = thickness s2 ∧ in_peak s1 = in_peak s2 ∧
  (in_peak s1 = true → start s1 = start s2).

(** A crossing completes when some sample lies below the half maximum
    after a sample at or above it. *)
Definition crossing_completes (half_max : Qc) (intensity_profile : list Z) : Prop :=
  ∃ (i j : nat) (x y : Z),
    (i < j)%nat ∧ intensity_profile !! i = Some x ∧ intensity_profile !! j = Some y ∧
    above half_max x ∧ below half_max y.

(** ** Columns *)

(** The samples of column [x], for [x] in range. *)
Definition profile_of (frame : gray_image) (x : Z) : list Z :=
  map (λ row, default 0 (row !! Z.to_nat x)) (img_rows frame).

(** The indices numpy accepts on an axis of length [width]. *)
Definition index_accepted (width x : Z) : bool := (- width <=? x) && (x <? width).

(** The policy a sampler that clamps or fails would follow on a frame
    where some computed column lies outside [[0, width)]. *)
Definition clamp_column (width x : Z) : Z := Z.max 0 (Z.min (width - 1) x).

Definition clamps_or_fails (frame : gray_image) (num_lines : Z)
    (line_separation_percent : Qc) : Prop :=
  let width := img_width frame in
  let xs := map (line_column width num_lines line_separation_percent)
                (py_range 0 num_lines 1) in
  Exists (λ x, x < 0 ∨ width ≤ x) xs →
  (∃ e, extract_vertical_lines frame num_lines line_separation_percent = Err e) ∨
  extract_vertical_lines frame num_lines line_separation_percent =
    Ok (map (λ x, profile_of frame (clamp_column width x)) xs).

(** ** Entries of the series *)

Section Vocabulary.
Context `{cv : OpenCV}.

(** What it means for [line_thicknesses] to be the measurements kept
    for frame [frame_num]: the frame was read, preprocessed, masked and
    sampled, and the list holds the positive widths of its lines, in
    line order. *)
Definition measures (video : video_source) (num_lines : Z) (threshold : Qc)
    (line_separation_percent : Qc) (top_threshold_pixels : Z)
    (frame_num : Z) (line_thicknesses : list Z) : Prop :=
  ∃ f preprocessed vertical_lines ts,
    frames video frame_num = Some f ∧
    GaussianBlur (cvtColor_BGR2GRAY f) (1, 1) 0%Qc = Ok preprocessed ∧
    extract_vertical_lines (zero_top_rows preprocessed top_threshold_pixels)
      num_lines line_separation_percent = Ok vertical_lines ∧
    Forall2 (λ line t, calculate_thickness line threshold = Ok t) vertical_lines ts ∧
    line_thicknesses = filter (λ t, 0 < t) ts.

(** The depth recorded for frame index [f]. *)
Definition depth_of (video : video_source) (max_depth : Qc) (f : Z) : Qc :=
  (Qc_of_Z f * max_depth / Qc_of_Z (frame_count video))%Qc.

(** Frame [frame_num] yields an entry: at least one of its lines has a
    positive width. *)
Definition yields_entry (video : video_source) (num_lines : Z) (threshold : Qc)
    (line_separation_percent : Qc) (top_threshold_pixels : Z) (frame_num : Z) : Prop :=
  ∃ line_thicknesses,
    measures video num_lines threshold line_separation_percent top_threshold_pixels
      frame_num line_thicknesses ∧
    line_thicknesses ≠ [].

End Vocabulary.

(** ** Effects *)

(** A computation that binds no global name. *)
Definition keeps_globals {A} (m : M A) : Prop :=
  ∀ w w' r, m w = (w', r) → globals w' = globals w.

Definition prompts_only (t : list event) : Prop := Forall (λ ev, ev = ConsolePrompt) t.

(** The exceptions a console read can raise: no line left, or a line
    that does not parse. *)
Definition console_error (e : exn) : Prop := e = EOFError ∨ e = ValueError.

(** A computation that only reads the console. *)
Definition console_only {A} (m : M A) : Prop :=
  ∀ w w' r, m w = (w', r) →
    globals w' = globals w ∧
    (∃ t, trace w' = trace w ++ t ∧ prompts_only t) ∧
    (∀ e, r = Err e → console_error e).

(** The namespace and the trace when the script calls [analyze_video]. *)
Record at_call (video : video_source) (w : world) (enable_visualizations : bool) : Prop := {
  call_exclusion : globals w !! "use_exclusion_zone" = Some (VBool false);
  call_frame_height : globals w !! "frame_height" = Some (VInt (vid_height video));
  call_visualizations :
    globals w !! "enable_visualizations" = Some (VBool enable_visualizations);
  call_max_depth : globals w !! "max_depth" = None;
  call_trace : prompts_only (trace w)
}.

(** The result is an exception of the class named [cls]. *)
Definition fails_with {A} (cls : string) (r : result A) : Prop :=
  ∃ e, r = Err e ∧ exn_class e = cls.

(** ** Sample inputs *)

(** One row whose samples name their column. *)
Definition ruler : gray_image := Image 11 [[0; 1; 2; 3; 4; 5; 6; 7; 8; 9; 10]].

(** A 2×3 colour frame. *)
Definition sample_frame : frame :=
  Image 3 [[(10, 20, 30); (0, 0, 0); (255, 255, 255)];
           [(200, 100, 50); (7, 7, 7); (90, 180, 45)]].

(** A gray BGR sample, and a frame whose rows are constant. *)
Definition gray_pixel (v : Z) : pixel := (v, v, v).

Definition column_frame (width : nat) (samples : list Z) : frame :=
  Image (Z.of_nat width) (map (λ v, replicate width (gray_pixel v)) samples).

(** Four frames, 8 rows by 4 columns: a pulse of width 3, an unreadable
    frame, two pulses (widths 1 and 2), and a pulse that never closes. *)
Definition sample_video : video_source :=
  VideoSource 4 (Q2Qc 25) 8 4
    (λ n, if n =? 0 then Some (column_frame 4 [0; 0; 200; 200; 200; 0; 0; 0])
          else if n =? 2 then Some (column_frame 4 [0; 200; 0; 0; 200; 200; 0; 0])
          else if n =? 3 then Some (column_frame 4 [0; 0; 0; 0; 200; 200; 200; 200])
          else None).

(** A file that reports no frames. *)
Definition empty_video : video_source := VideoSource 0 0%Qc 8 4 (λ _, None).

(** Answers to the prompts: 50 cm, every frame, 1 mm, single line, no
    visualisations, no exclusion zone. *)
Definition sample_console : list console_line :=
  [LFloat (Q2Qc 50); LInt 1; LFloat 1%Qc; LText "n"; LText "n"; LText "n"].

(** The namespace around a direct call of [analyze_video] on frames 8
    rows high. *)
Definition analysis_world (use_exclusion_zone : bool) (console : list console_line) : world :=
  World (<["use_exclusion_zone" := VBool use_exclusion_zone]>
          (<["enable_visualizations" := VBool false]>
            (<["frame_height" := VInt 8]> module_namespace)))
        console [].

(** ** Events of the analysis *)

(** The events that are not files written by the script. *)
Definition analysis_event (ev : event) : Prop :=
  match ev with
  | CsvWritten _ | LogWritten _ _ _ => False
  | _ => True
  end.

(** A computation whose events all satisfy [P]. *)
Definition emits {A} (P : event → Prop) (m : M A) : Prop :=
  ∀ w w' r, m w = (w', r) → ∃ t, trace w' = trace w ++ t ∧ Forall P t.

(** The event of reading frame [f]. *)
Definition read_event (video : video_source) (f : Z) : event :=
  FrameRead f (bool_decide (is_Some (frames video f))).

(** A console line that [float] parses as [q]. *)
Definition parses_as_float (l : console_line) (q : Qc) : Prop :=
  l = LFloat q ∨ ∃ z, l = LInt z ∧ q = Qc_of_Z z.

(** A console line that answers yes. *)
Definition answers_yes (l : console_line) : Prop := l = LText "y" ∨ l = LText "Y".

Section MoreVocabulary.
Context `{cv : OpenCV}.

(** What one iteration of the frame loop computes from the frame when
    the visualisation hooks are skipped. *)
Definition frame_measurement (video : video_source) (num_lines : Z) (threshold : Qc)
    (line_separation_percent : Qc) (top_threshold_pixels : Z) (depth_increment : Qc)
    (frame_num : Z) : result (option (Qc * Qc)) :=
  match frames video frame_num with
  | None => Ok None
  | Some f =>
      preprocessed ← GaussianBlur (cvtColor_BGR2GRAY f) (1, 1) 0%Qc;
      vertical_lines ← extract_vertical_lines
                         (zero_top_rows preprocessed top_threshold_pixels)
                         num_lines line_separation_percent;
      line_thicknesses ← thickness_loop threshold vertical_lines [];
      if bool_decide (line_thicknesses = []) then Ok None
      else Ok (Some ((Qc_of_Z frame_num * depth_increment)%Qc, average line_thicknesses))
  end.

End MoreVocabulary.

(** ** More sample inputs *)

(** Two frames without a pulse. *)
Definition dark_video : video_source :=
  VideoSource 2 (Q2Qc 25) 8 4 (λ _, Some (column_frame 4 [0; 0; 0; 0; 0; 0; 0; 0])).

(** A file that reports two frames and delivers none. *)
Definition unreadable_video : video_source := VideoSource 2 (Q2Qc 25) 8 4 (λ _, None).

(** The answers of [sample_console] with the visualisations switched on. *)
Definition visualized_console : list console_line :=
  [LFloat (Q2Qc 50); LInt 1; LFloat 1%Qc; LText "n"; LText "y"; LText "n"].

(** The namespace of [analysis_world] with the visualisations switched on. *)
Definition visualizing_world : world :=
  World (<["enable_visualizations" := VBool true]> (globals (analysis_world false [])))
        [] [].

(** ** The calibration *)

(** A computation that reads no console line. *)
Definition keeps_stdin {A} (m : M A) : Prop :=
  ∀ w w' r, m w = (w', r) → stdin w' = stdin w.

(** The console lines read by the exclusion prompt, and the value of
    [top_threshold_pixels] they lead to: every line but the last parses
    as a depth outside [[0, height]] and is asked again, the last parses
    as a depth [d] inside it, and the offset is [int(d)]. *)
Definition exclusion_answers (height : Z) (answers : list console_line) (top : Z) : Prop :=
  ∃ rejected l d,
    answers = rejected ++ [l] ∧
    Forall (λ l', ∃ d', parses_as_float l' d' ∧
                        ((d' < 0)%Qc ∨ (Qc_of_Z height < d')%Qc)) rejected ∧
    parses_as_float l d ∧ (0 ≤ d)%Qc ∧ (d ≤ Qc_of_Z height)%Qc ∧
    top = py_int d.

Section Calibration.
Context `{cv : OpenCV}.

(** What a call of [analyze_video] followed by the calibration leaves
    behind, in a namespace where [use_exclusion_zone] is [uz] and
    [frame_height] is [h]: the pixel count is [h - top_threshold_pixels]
    for the offset the exclusion prompt produced, or [h] when the zone is
    off; the ratio is the one value [max_depth_mm / total_pixels]; and
    each CSV row pairs a thickness with that thickness times the ratio. *)
Definition calibrated (video : video_source) (frame_interval : Z) (max_depth_mm : Qc)
    (num_lines : Z) (top0 : Z) (uz : bool) (h : Z) (w w' : world) : Prop :=
  ∃ (w1 w2 : world) (depths thicknesses : list Qc) (top : Z)
    (answers : list console_line),
    let total_pixels := if uz then h - top else h in
    let pixel_to_mm_ratio := (max_depth_mm / Qc_of_Z total_pixels)%Qc in
    let rows := zip (zip depths thicknesses)
                    (map (λ t, (t * pixel_to_mm_ratio)%Qc) thicknesses) in
    exclusion_zone_block video top0 w = (w1, Ok (top, Some total_pixels)) ∧
    analyze_video video frame_interval max_depth_mm num_lines one_half one_tenth top0 w =
      (w2, Ok (depths, thicknesses, total_pixels)) ∧
    stdin w = answers ++ stdin w' ∧
    (if uz then exclusion_answers (vid_height video) answers top
     else answers = [] ∧ top = top0) ∧
    total_pixels ≠ 0 ∧
    (pixel_to_mm_ratio * Qc_of_Z total_pixels)%Qc = max_depth_mm ∧
    globals w' !! "total_pixels" = Some (VInt total_pixels) ∧
    globals w' !! "pixel_to_mm_ratio" = Some (VFloat pixel_to_mm_ratio) ∧
    trace w' = trace w2 ++
      [CsvWritten rows; FigureShown; LogWritten total_pixels max_depth_mm pixel_to_mm_ratio] ∧
    Forall (λ row : Qc * Qc * Qc, row.2 = (row.1.2 * pixel_to_mm_ratio)%Qc) rows.

End Calibration.

(** * Part III: properties *)

(** ** Evaluation on small inputs *)

Example calculate_thickness_single_pulse :
  calculate_thickness [0; 0; 200; 210; 190; 0; 0] one_half = Ok 3.
Proof. vm_compute. reflexivity. Qed.

Example calculate_thickness_two_pulses :
  calculate_thickness [0; 200; 200; 200; 0; 0; 180; 0] one_half = Ok 1.
Proof. vm_compute. reflexivity. Qed.

Example calculate_thickness_open_pulse :
  calculate_thickness [0; 0; 200; 200] one_half = Ok 0.
Proof. vm_compute. reflexivity. Qed.

(** A completed crossing followed by a pulse that never closes: the
    completed width stays. *)
Example calculate_thickness_open_after_closed :
  calculate_thickness [0; 200; 0; 200; 200] one_half = Ok 1.
Proof. vm_compute. reflexivity. Qed.

Example py_range_stride : py_range 0 100 30 = [0; 30; 60; 90].
Proof. reflexivity. Qed.

Example py_range_exact : py_range 0 90 30 = [0; 30; 60].
Proof. reflexivity. Qed.

(** ** The thickness detector *)

Lemma Qc_geb_true a b : Qc_geb a b = true ↔ (b ≤ a)%Qc.
Proof. unfold Qc_geb. apply bool_decide_eq_true. Qed.

Lemma Qc_ltb_true a b : Qc_ltb a b = true ↔ (a < b)%Qc.
Proof. unfold Qc_ltb. apply bool_decide_eq_true. Qed.

Lemma Qc_geb_ltb a b : Qc_geb a b = negb (Qc_ltb a b).
Proof.
  unfold Qc_geb, Qc_ltb.
  destruct (decide (a < b)%Qc) as [Hlt|Hge].
  - rewrite (bool_decide_eq_true_2 _ Hlt), bool_decide_eq_false_2; [done|].
    by apply Qclt_not_le.
  - rewrite (bool_decide_eq_false_2 _ Hge), bool_decide_eq_true_2; [done|].
    by apply Qcnot_lt_le.
Qed.

Lemma above_not_below hm x : above hm x → ¬ below hm x.
Proof. unfold above, below. intros H. by apply Qcle_not_lt. Qed.

Lemma scan_step_above hm i x st :
  above hm x →
  scan_step hm i x st =
    if in_peak st then st
    else {| thickness := thickness st; in_peak := true; start := i |}.
Proof.
  intros Ha. unfold scan_step.
  assert (Qc_geb (Qc_of_Z x) hm = true) as Hg by by apply Qc_geb_true.
  assert (Qc_ltb (Qc_of_Z x) hm = false) as Hl.
  { rewrite Qc_geb_ltb in Hg. by destruct (Qc_ltb _ _). }
  rewrite Hg, Hl. by destruct (in_peak st).
Qed.

Lemma scan_step_below hm i x st :
  below hm x →
  scan_step hm i x st =
    if in_peak st
    then {| thickness := i - start st; in_peak := false; start := start st |}
    else st.
Proof.
  intros Hb. unfold scan_step.
  assert (Qc_ltb (Qc_of_Z x) hm = true) as Hl by by apply Qc_ltb_true.
  assert (Qc_geb (Qc_of_Z x) hm = false) as Hg by by rewrite Qc_geb_ltb, Hl.
  rewrite Hg, Hl. by destruct (in_peak st).
Qed.

Lemma above_or_below hm x : {above hm x} + {below hm x}.
Proof.
  unfold above, below.
  destruct (decide (Qc_of_Z x < hm)%Qc); [by right|left].
  by apply Qcnot_lt_le.
Qed.

Lemma scan_app hm xs ys i st :
  scan hm i (xs ++ ys) st = scan hm (i + Z.of_nat (length xs)) ys (scan hm i xs st).
Proof.
  revert i st. induction xs as [|x xs IH]; intros i st; simpl.
  - f_equal. lia.
  - rewrite IH. f_equal. lia.
Qed.

(** Scanning samples that are all below the half maximum: outside a
    peak nothing changes. *)
Lemma scan_below_idle hm xs i st :
  Forall (below hm) xs → in_peak st = false → scan hm i xs st = st.
Proof.
  intros Hall. revert i st.
  induction Hall as [|x xs Hx _ IH]; intros i st Hip; simpl; [done|].
  rewrite scan_step_below, Hip by done. by apply IH.
Qed.

(** Inside a peak, the first of them closes it at its own index. *)
Lemma scan_below_exit hm x xs i st :
  Forall (below hm) (x :: xs) → in_peak st = true →
  scan hm i (x :: xs) st =
    {| thickness := i - start st; in_peak := false; start := start st |}.
Proof.
  intros Hall Hip. inversion_clear Hall as [|? ? Hx Hxs]. simpl.
  rewrite scan_step_below, Hip by done. by apply scan_below_idle.
Qed.

(** Scanning samples that are all at or above the half maximum: inside
    a peak nothing changes. *)
Lemma scan_above_idle hm xs i st :
  Forall (above hm) xs → in_peak st = true → scan hm i xs st = st.
Proof.
  intros Hall. revert i st.
  induction Hall as [|x xs Hx _ IH]; intros i st Hip; simpl; [done|].
  rewrite scan_step_above, Hip by done. by apply IH.
Qed.

(** Outside a peak, the first of them opens one at its own index. *)
Lemma scan_above_entry hm x xs i st :
  Forall (above hm) (x :: xs) → in_peak st = false →
  scan hm i (x :: xs) st =
    {| thickness := thickness st; in_peak := true; start := i |}.
Proof.
  intros Hall Hip. inversion_clear Hall as [|? ? Hx Hxs]. simpl.
  rewrite scan_step_above, Hip by done. by apply scan_above_idle.
Qed.

(** The thickness is untouched by samples at or above the half maximum. *)
Lemma scan_above_thickness hm xs i st :
  Forall (above hm) xs → thickness (scan hm i xs st) = thickness st.
Proof.
  intros Hall. destruct xs as [|x xs]; [done|].
  destruct (in_peak st) eqn:Hip.
  - by rewrite scan_above_idle.
  - by rewrite scan_above_entry.
Qed.

(** After a sample below the half maximum the scan is outside a peak. *)
Lemma scan_ends_below hm xs x i st :
  below hm x → in_peak (scan hm i (xs ++ [x]) st) = false.
Proof.
  intros Hb. rewrite scan_app. simpl. rewrite scan_step_below by done.
  by destruct (in_peak (scan hm i xs st)) eqn:E.
Qed.

(** The scan never records a negative width: inside a peak, [start] is
    an index already visited. *)
Lemma scan_nonneg hm xs i st :
  0 ≤ thickness st → (in_peak st = true → start st < i) →
  0 ≤ thickness (scan hm i xs st).
Proof.
  revert i st. induction xs as [|x xs IH]; intros i st Ht Hs; simpl; [done|].
  apply IH; unfold scan_step.
  - destruct (Qc_geb _ _ && negb _); [done|].
    destruct (Qc_ltb _ _ && in_peak st) eqn:E; [simpl|done].
    apply andb_true_iff in E as [_ E]. specialize (Hs E). lia.
  - destruct (Qc_geb _ _ && negb _); [simpl; lia|].
    destruct (Qc_ltb _ _ && in_peak st) eqn:E; [done|].
    intros Hip. specialize (Hs Hip). lia.
Qed.

Lemma no_crossing_tail hm x xs :
  ¬ crossing_completes hm (x :: xs) → ¬ crossing_completes hm xs.
Proof.
  intros Hn (i & j & a & b & Hij & Hi & Hj & Ha & Hb). apply Hn.
  exists (S i), (S j), a, b. repeat split; [lia|done..].
Qed.

Lemma no_crossing_after_above hm x xs :
  ¬ crossing_completes hm (x :: xs) → above hm x → Forall (above hm) xs.
Proof.
  intros Hn Ha. apply Forall_lookup. intros j y Hj.
  destruct (above_or_below hm y) as [|Hb]; [done|].
  exfalso. apply Hn. exists 0%nat, (S j), x, y. repeat split; [lia|done..].
Qed.

Lemma scan_no_crossing hm xs i st :
  ¬ crossing_completes hm xs →
  (in_peak st = true → Forall (above hm) xs) →
  thickness (scan hm i xs st) = thickness st.
Proof.
  revert i st. induction xs as [|x xs IH]; intros i st Hn Hip; simpl; [done|].
  destruct (above_or_below hm x) as [Ha|Hb].
  - rewrite scan_above_thickness; [|by eapply no_crossing_after_above].
    rewrite scan_step_above by done. by destruct (in_peak st).
  - destruct (in_peak st) eqn:E.
    + specialize (Hip eq_refl). inversion_clear Hip as [|? ? Ha _].
      by destruct (above_not_below hm x).
    + rewrite scan_step_below, E by done.
      apply IH; [by eapply no_crossing_tail|congruence].
Qed.

(** C1.  A profile that ends with a completed pulse — a run [high] of
    samples at or above the half maximum entered from below (or at index
    0) and closed by a run [low] of samples below it, after which the
    profile stays at or above the half maximum — yields exactly
    [exit_index - entry_index] of that pulse, whatever pulses the
    preceding part [body] contains: the last completed crossing
    overwrites every earlier candidate. *)
Theorem calculate_thickness_last_crossing
    (threshold : Qc) (body high low rest : list Z) :
  let intensity_profile := body ++ high ++ low ++ rest in
  let half_max := half_max_of intensity_profile threshold in
  let entry_index := Z.of_nat (length body) in
  let exit_index := Z.of_nat (length (body ++ high)) in
  (body = [] ∨ ∃ b x, body = b ++ [x] ∧ below half_max x) →
  high ≠ [] → Forall (above half_max) high →
  low ≠ [] → Forall (below half_max) low →
  Forall (above half_max) rest →
  calculate_thickness intensity_profile threshold = Ok (exit_index - entry_index)
  ∧ exit_index - entry_index = Z.of_nat (length high).
Proof.
  intros p hm entry exit_ Hbody Hhne Hhigh Hlne Hlow Hrest.
  split; [|unfold exit_, entry; rewrite length_app; lia].
  assert (p ≠ []) as Hp.
  { unfold p. destruct body; [destruct high; [done|]|]; done. }
  unfold calculate_thickness. destruct p as [|x0 p0] eqn:Ep; [done|].
  f_equal. change (Qc_of_Z (np_max x0 p0) * threshold)%Qc with hm.
  rewrite <- Ep. unfold p.
  rewrite !scan_app, scan_above_thickness by done.
  set (st := scan hm 0 body scan_init).
  assert (in_peak st = false) as Hst.
  { destruct Hbody as [->|(b & x & -> & Hx)]; [done|]. by apply scan_ends_below. }
  destruct high as [|h high']; [done|]. destruct low as [|l low']; [done|].
  rewrite (scan_above_entry hm h high') by done.
  rewrite (scan_below_exit hm l low') by done.
  simpl thickness. unfold exit_, entry. rewrite length_app. simpl length. lia.
Qed.

(** Two separated pulses, the first the wider one: the width returned is
    that of the second. *)
Lemma calculate_thickness_last_crossing_witness :
  calculate_thickness ([0; 200; 200; 200; 0] ++ [180] ++ [0; 0] ++ []) one_half = Ok (6 - 5)
  ∧ 6 - 5 = Z.of_nat (length [180]).
Proof.
  apply (calculate_thickness_last_crossing one_half [0; 200; 200; 200; 0] [180] [0; 0] []).
  - right. exists [0; 200; 200; 200], 0. split; [reflexivity|]. by vm_compute.
  - discriminate.
  - repeat constructor. by vm_compute.
  - discriminate.
  - repeat constructor; by vm_compute.
  - constructor.
Defined.

(** C7.  For a non-empty profile the detector returns a non-negative
    width, and returns 0 whenever no crossing completes: the profile never
    reaches the half maximum, or never drops below it again once it has. *)
Theorem calculate_thickness_no_crossing (intensity_profile : list Z) (threshold : Qc) :
  intensity_profile ≠ [] →
  ∃ t, calculate_thickness intensity_profile threshold = Ok t ∧ 0 ≤ t ∧
       (¬ crossing_completes (half_max_of intensity_profile threshold) intensity_profile →
        t = 0).
Proof.
  intros Hne. destruct intensity_profile as [|x xs] eqn:E; [done|].
  eexists. split; [reflexivity|]. split.
  - apply scan_nonneg; simpl; [lia|discriminate].
  - intros Hn. by rewrite scan_no_crossing.
Qed.

(** A profile that rises and never drops back. *)
Lemma calculate_thickness_no_crossing_witness :
  ∃ t, calculate_thickness [0; 0; 200; 200] one_half = Ok t ∧ 0 ≤ t ∧
       (¬ crossing_completes (half_max_of [0; 0; 200; 200] one_half) [0; 0; 200; 200] →
        t = 0).
Proof. apply (calculate_thickness_no_crossing [0; 0; 200; 200] one_half). discriminate. Defined.

Lemma scan_step_start hm i x st :
  (in_peak st = true → start st < i) →
  in_peak (scan_step hm i x st) = true → start (scan_step hm i x st) < i + 1.
Proof.
  intros Hs. unfold scan_step.
  destruct (Qc_geb _ _ && negb _); [simpl; lia|].
  destruct (Qc_ltb _ _ && in_peak st) eqn:E; [done|].
  intros Hip. specialize (Hs Hip). lia.
Qed.

(** A scan that ends outside a peak with thickness 0 has seen only
    samples below the half maximum. *)
Lemma scan_zero_inv hm xs i st :
  (in_peak st = true → start st < i) →
  thickness (scan hm i xs st) = 0 → in_peak (scan hm i xs st) = false →
  thickness st = 0 ∧ in_peak st = false ∧ Forall (below hm) xs.
Proof.
  revert i st. induction xs as [|x xs IH]; intros i st Hs Ht Hip; simpl in *; [done|].
  destruct (IH _ _ (scan_step_start hm i x st Hs) Ht Hip) as (Ht' & Hip' & Hxs).
  clear Ht Hip IH. rename Ht' into Ht.
  destruct (above_or_below hm x) as [Ha|Hb].
  - rewrite scan_step_above in Hip' by done.
    destruct (in_peak st) eqn:E; simpl in Hip'; congruence.
  - rewrite scan_step_below in Ht, Hip' by done.
    destruct (in_peak st) eqn:E.
    + simpl in Ht. specialize (Hs eq_refl). lia.
    + split; [done|]. split; [done|]. by constructor.
Qed.

Lemma scan_positive hm xs i st :
  0 < thickness st → (in_peak st = true → start st < i) →
  0 < thickness (scan hm i xs st).
Proof.
  revert i st. induction xs as [|x xs IH]; intros i st Ht Hs; simpl; [done|].
  apply IH; [|by apply scan_step_start].
  unfold scan_step.
  destruct (Qc_geb _ _ && negb _); [done|].
  destruct (Qc_ltb _ _ && in_peak st) eqn:E; [simpl|done].
  apply andb_true_iff in E as [_ E]. specialize (Hs E). lia.
Qed.

(** The converse of the zero case: a completed crossing always leaves a
    positive width. *)
Lemma calculate_thickness_crossing_positive (intensity_profile : list Z) (threshold : Qc) :
  crossing_completes (half_max_of intensity_profile threshold) intensity_profile →
  ∃ t, calculate_thickness intensity_profile threshold = Ok t ∧ 0 < t.
Proof.
  intros (i & j & x & y & Hij & Hi & Hj & Ha & Hb).
  destruct intensity_profile as [|x0 p0] eqn:Ep; [done|].
  eexists. split; [reflexivity|]. rewrite <- Ep in *.
  change (Qc_of_Z (np_max x0 p0) * threshold)%Qc
    with (half_max_of (x0 :: p0) threshold). rewrite <- Ep.
  set (hm := half_max_of intensity_profile threshold) in *.
  rewrite <- (take_drop_middle _ _ _ Hj).
  change (y :: drop (S j) intensity_profile) with ([y] ++ drop (S j) intensity_profile).
  rewrite app_assoc, scan_app.
  set (st1 := scan hm 0 (take j intensity_profile ++ [y]) scan_init).
  assert (in_peak st1 = false) as Hip by by apply scan_ends_below.
  apply scan_positive; [|by rewrite Hip].
  assert (0 ≤ thickness st1) as Hnn by (apply scan_nonneg; simpl; [lia|done]).
  destruct (decide (thickness st1 = 0)) as [Hz|Hnz]; [|lia].
  destruct (scan_zero_inv hm _ 0 scan_init (λ H, ltac:(done)) Hz Hip) as (_ & _ & Hall).
  apply Forall_app in Hall as [Hall _].
  assert (take j intensity_profile !! i = Some x) as Hx by by rewrite lookup_take_lt.
  apply (proj1 (Forall_lookup _ _) Hall) in Hx. by destruct (above_not_below hm x).
Qed.

(** The value [start] holds before its first assignment is never
    observed. *)
Lemma scan_step_agree hm i x s1 s2 :
  scan_agree s1 s2 → scan_agree (scan_step hm i x s1) (scan_step hm i x s2).
Proof.
  intros (Ht & Hip & Hs). unfold scan_step. rewrite <- Hip.
  destruct (Qc_geb _ _ && negb _); [done|].
  destruct (Qc_ltb _ _ && in_peak s1) eqn:E; [|done].
  apply andb_true_iff in E as [_ E]. specialize (Hs E).
  unfold scan_agree. simpl. rewrite Hs. done.
Qed.

Lemma scan_start_unobserved hm xs i s :
  thickness (scan hm i xs {| thickness := 0; in_peak := false; start := s |}) =
  thickness (scan hm i xs scan_init).
Proof.
  assert (∀ s1 s2 j, scan_agree s1 s2 →
            thickness (scan hm j xs s1) = thickness (scan hm j xs s2)) as H.
  { induction xs as [|x xs IH]; intros s1 s2 j Hag; simpl.
    - by destruct Hag.
    - by apply IH, scan_step_agree. }
  apply H. by repeat split.
Qed.

(** ** The line sampler *)

Lemma column_spec frame x :
  column frame x =
    if index_accepted (img_width frame) x
    then Ok (profile_of frame (x mod img_width frame))
    else Err IndexError.
Proof.
  unfold column, index_accepted, profile_of.
  set (w := img_width frame).
  destruct (Z.ltb_spec x 0) as [Hneg|Hpos].
  - destruct (Z.leb_spec (- w) x) as [Hlo|Hlo]; simpl.
    + assert ((x <? w) = true) as -> by (apply Z.ltb_lt; lia).
      assert ((0 <=? x + w) = true) as -> by (apply Z.leb_le; lia).
      assert ((x + w <? w) = true) as -> by (apply Z.ltb_lt; lia).
      assert (x `mod` w = x + w) as ->; [|done].
      symmetry. apply Z.mod_unique with (q := -1); lia.
    + assert ((0 <=? x + w) = false) as -> by (apply Z.leb_gt; lia). done.
  - assert ((0 <=? x) = true) as -> by (apply Z.leb_le; lia).
    destruct (Z.ltb_spec x w); [|by destruct (- w <=? x)].
    assert ((- w <=? x) = true) as -> by (apply Z.leb_le; lia).
    by rewrite Z.mod_small by lia.
Qed.

Lemma lines_loop_spec frame middle_x num_lines line_separation indices lines :
  let xs := map (λ i, middle_x + (i - num_lines / 2) * line_separation) indices in
  lines_loop frame middle_x num_lines line_separation indices lines =
    if forallb (index_accepted (img_width frame)) xs
    then Ok (lines ++ map (λ x, profile_of frame (x mod img_width frame)) xs)
    else Err IndexError.
Proof.
  revert lines. induction indices as [|i rest IH]; intros lines; simpl.
  - by rewrite app_nil_r.
  - rewrite column_spec.
    destruct (index_accepted _ _); simpl; [|done].
    rewrite IH. destruct (forallb _ _); [|done].
    by rewrite <- app_assoc.
Qed.

(** C5, as stated, fails: with 12 lines on a frame 11 columns wide the
    first computed column is -1; the sampler neither fails nor clamps to
    column 0 but returns the samples of column 10. *)
Lemma extract_vertical_lines_wraps_around :
  line_column 11 12 one_tenth 0 = -1 ∧
  extract_vertical_lines ruler 12 one_tenth =
    Ok [[10]; [0]; [1]; [2]; [3]; [4]; [5]; [6]; [7]; [8]; [9]; [10]] ∧
  ¬ clamps_or_fails ruler 12 one_tenth.
Proof.
  assert (extract_vertical_lines ruler 12 one_tenth =
    Ok [[10]; [0]; [1]; [2]; [3]; [4]; [5]; [6]; [7]; [8]; [9]; [10]]) as Hrun
    by (vm_compute; reflexivity).
  split; [by vm_compute|]. split; [done|].
  intros Hc. destruct Hc as [[e He]|Hclamp].
  - apply Exists_cons_hd. left. by vm_compute.
  - rewrite Hrun in He. discriminate.
  - rewrite Hrun in Hclamp. vm_compute in Hclamp. discriminate.
Qed.

(** C5, amended.  The sampler follows numpy's indexing, which is
    deterministic: when every computed column lies in [[-width, width)]
    each line is the column [x mod width] (a negative index counts from
    the right edge), and as soon as one lies outside that range the call
    fails with [IndexError]. *)
Theorem extract_vertical_lines_policy (frame : gray_image) (num_lines : Z)
    (line_separation_percent : Qc) :
  let width := img_width frame in
  let xs := map (line_column width num_lines line_separation_percent)
                (py_range 0 num_lines 1) in
  extract_vertical_lines frame num_lines line_separation_percent =
    if forallb (index_accepted width) xs
    then Ok (map (λ x, profile_of frame (x mod width)) xs)
    else Err IndexError.
Proof.
  intros width xs. unfold extract_vertical_lines.
  rewrite lines_loop_spec. reflexivity.
Qed.

(** ** The preprocessor *)

Lemma reflect101_inside n i : 0 ≤ i < n → reflect101 n i = i.
Proof.
  intros Hi. unfold reflect101.
  destruct (Z.eqb_spec n 1) as [->|Hn]; [lia|].
  cbv zeta. rewrite Z.mod_small by lia.
  destruct (Z.ltb_spec i n); lia.
Qed.

Lemma Qc_sub_diag (q : Qc) : (q - q)%Qc = 0%Qc.
Proof. ring. Qed.

Lemma cv_round_integer z : cv_round (Qc_of_Z z) = z.
Proof.
  unfold cv_round. cbv zeta.
  assert (Qfloor (Qc_of_Z z) = z) as -> by apply Qfloor_Z.
  rewrite Qc_sub_diag.
  assert (Qc_ltb 0 one_half = true) as -> by (by vm_compute).
  done.
Qed.

Lemma saturate_u8_inside z : 0 ≤ z ≤ 255 → saturate_u8 z = z.
Proof. unfold saturate_u8. lia. Qed.

Lemma imap_lookup_id {A} (f : nat → A → A) (l : list A) :
  (∀ i x, l !! i = Some x → f i x = x) → imap f l = l.
Proof.
  intros Hf. apply list_eq. intros i. rewrite list_lookup_imap.
  destruct (l !! i) as [x|] eqn:E; simpl; [|done]. by rewrite (Hf i x).
Qed.

Section Preprocessor.
Context `{cv : OpenCV}.

Lemma getGaussianKernel_1 : getGaussianKernel 1 0%Qc = [Q2Qc 1].
Proof. reflexivity. Qed.

Lemma blur_at_1x1 img y x :
  0 ≤ y < img_height img → 0 ≤ x < img_width img →
  blur_at [Q2Qc 1] [Q2Qc 1] img y x = Qc_of_Z (img_get img y x).
Proof.
  intros Hy Hx. unfold blur_at. simpl.
  rewrite !Z.add_0_r, !Z.sub_0_r.
  rewrite !reflect101_inside by done. ring.
Qed.

(** A 1×1 Gaussian blur returns its 8-bit source unchanged. *)
Lemma GaussianBlur_1x1 (src : gray_image) :
  rectangular src →
  Forall (Forall (λ v, 0 ≤ v ≤ 255)) (img_rows src) →
  GaussianBlur src (1, 1) 0%Qc = Ok src.
Proof.
  intros Hrect Hu8. unfold GaussianBlur. simpl.
  rewrite getGaussianKernel_1. f_equal.
  destruct src as [w rows]. simpl in *. f_equal.
  apply imap_lookup_id. intros y row Hrow.
  apply imap_lookup_id. intros x v Hv.
  assert (Z.of_nat (length row) = w) as Hlen.
  { unfold rectangular in Hrect. simpl in Hrect.
    by apply (proj1 (Forall_lookup _ _) Hrect y row). }
  assert (0 ≤ v ≤ 255) as Hrange.
  { pose proof (proj1 (Forall_lookup _ _) Hu8 y row Hrow) as Hr.
    by apply (proj1 (Forall_lookup _ _) Hr x v). }
  apply lookup_lt_Some in Hrow as Hylt. apply lookup_lt_Some in Hv as Hxlt.
  rewrite blur_at_1x1; [|unfold img_height; simpl; lia|simpl; lia].
  rewrite cv_round_integer. unfold img_get. simpl.
  rewrite !Nat2Z.id, Hrow. simpl. rewrite Hv. simpl.
  by apply saturate_u8_inside.
Qed.

Lemma cvtColor_rectangular (f : frame) :
  rectangular f → rectangular (cvtColor_BGR2GRAY f).
Proof.
  unfold rectangular. simpl. intros H. apply Forall_fmap.
  eapply Forall_impl; [exact H|]. intros row Hrow. simpl. by rewrite length_map.
Qed.

(** C10.  On a frame whose grayscale conversion is an 8-bit image, the
    Gaussian blur of [preprocess_frame], called with a 1×1 kernel, is the
    identity: the function returns the grayscale conversion itself,
    sample for sample. *)
Theorem preprocess_frame_is_grayscale (f : frame) (w : world) (v : pyval) :
  rectangular f →
  Forall (Forall (λ p, 0 ≤ bgr2gray p ≤ 255)) (img_rows f) →
  globals w !! "enable_visualizations" = Some v →
  GaussianBlur (cvtColor_BGR2GRAY f) (1, 1) 0%Qc = Ok (cvtColor_BGR2GRAY f) ∧
  (preprocess_frame f w).2 = Ok (cvtColor_BGR2GRAY f).
Proof.
  intros Hrect Hu8 Hev.
  assert (GaussianBlur (cvtColor_BGR2GRAY f) (1, 1) 0%Qc = Ok (cvtColor_BGR2GRAY f)) as Hblur.
  { apply GaussianBlur_1x1; [by apply cvtColor_rectangular|].
    simpl. apply Forall_fmap. eapply Forall_impl; [exact Hu8|].
    intros row Hrow. simpl. by apply Forall_fmap. }
  split; [done|].
  unfold preprocess_frame. rewrite Hblur.
  unfold mbind, M_bind, lift, get_global, visualize_frame, mbind, M_bind, get_global.
  rewrite Hev. destruct (truthy v); [rewrite Hev; destruct (truthy v)|]; reflexivity.
Qed.

End Preprocessor.

(** The preprocessor on the sample frame, visualisations off. *)
Lemma preprocess_frame_is_grayscale_witness :
  let w := World (<["enable_visualizations" := VBool false]> module_namespace) [] [] in
  GaussianBlur (cv := opencv_sample) (cvtColor_BGR2GRAY (cv := opencv_sample) sample_frame)
    (1, 1) 0%Qc = Ok (cvtColor_BGR2GRAY (cv := opencv_sample) sample_frame) ∧
  (preprocess_frame (cv := opencv_sample) sample_frame w).2 =
    Ok (cvtColor_BGR2GRAY (cv := opencv_sample) sample_frame).
Proof.
  apply (preprocess_frame_is_grayscale (cv := opencv_sample) sample_frame _ (VBool false)).
  - repeat constructor.
  - repeat constructor; vm_compute; discriminate.
  - reflexivity.
Defined.

(** ** Reasoning about [M] *)

(** The monad laws, world by world. *)
Lemma M_left_id {A B} (a : A) (f : A → M B) (w : world) : (mret a ≫= f) w = f a w.
Proof. reflexivity. Qed.

Lemma M_right_id {A} (m : M A) (w : world) : (m ≫= mret) w = m w.
Proof. unfold mbind, M_bind. by destruct (m w) as [w' [a|e]]. Qed.

Lemma M_assoc {A B C} (m : M A) (f : A → M B) (g : B → M C) (w : world) :
  ((m ≫= f) ≫= g) w = (m ≫= λ a, f a ≫= g) w.
Proof. unfold mbind, M_bind. by destruct (m w) as [w' [a|e]]. Qed.

Lemma bind_inv {A B} (m : M A) (f : A → M B) w w' r :
  (m ≫= f) w = (w', r) →
  (∃ w1 a, m w = (w1, Ok a) ∧ f a w1 = (w', r)) ∨
  (∃ e, m w = (w', Err e) ∧ r = Err e).
Proof.
  unfold mbind, M_bind. destruct (m w) as [w1 [a|e]]; intros H.
  - left. by exists w1, a.
  - right. exists e. by inversion H.
Qed.

Lemma bind_ok_inv {A B} (m : M A) (f : A → M B) w w' b :
  (m ≫= f) w = (w', Ok b) →
  ∃ w1 a, m w = (w1, Ok a) ∧ f a w1 = (w', Ok b).
Proof.
  intros H. apply bind_inv in H as [H|(e & _ & H)]; [done|discriminate].
Qed.

Lemma lift_ok_inv {A} (r : result A) w w' a :
  lift r w = (w', Ok a) → r = Ok a.
Proof. unfold lift. by inversion 1. Qed.

Lemma video_read_ok_inv video frame_num w w' r :
  video_read video frame_num w = (w', Ok r) → r = frames video frame_num.
Proof. unfold video_read, mbind, M_bind, emit. simpl. by inversion 1. Qed.

(** ** The frame loop *)

Section Analysis.
Context `{cv : OpenCV}.

Lemma thickness_loop_spec threshold vertical_lines acc line_thicknesses :
  thickness_loop threshold vertical_lines acc = Ok line_thicknesses →
  ∃ ts, Forall2 (λ line t, calculate_thickness line threshold = Ok t) vertical_lines ts ∧
        line_thicknesses = acc ++ filter (λ t, 0 < t) ts.
Proof.
  revert acc. induction vertical_lines as [|line rest IH]; intros acc; simpl.
  - intros [= <-]. exists []. split; [constructor|by rewrite app_nil_r].
  - destruct (calculate_thickness line threshold) as [t|e] eqn:Et; simpl; [|done].
    intros H. apply IH in H as (ts & Hts & ->).
    exists (t :: ts). split; [by constructor|].
    rewrite filter_cons. destruct (Z.ltb_spec 0 t).
    + rewrite decide_True by done. by rewrite <- app_assoc.
    + rewrite decide_False by lia. done.
Qed.

Lemma preprocess_frame_ok_inv f w w' img :
  preprocess_frame f w = (w', Ok img) →
  GaussianBlur (cvtColor_BGR2GRAY f) (1, 1) 0%Qc = Ok img.
Proof.
  unfold preprocess_frame. intros H.
  apply bind_ok_inv in H as (w1 & blurred & Hb & H). apply lift_ok_inv in Hb.
  apply bind_ok_inv in H as (w2 & ev & _ & H).
  apply bind_ok_inv in H as (w3 & [] & _ & H).
  inversion H. by subst.
Qed.

(** An iteration that appends an entry. *)
Lemma frame_body_entry video num_lines threshold lsp top depth_increment frame_num
    w w' depth avg_thickness :
  frame_body video num_lines threshold lsp top depth_increment frame_num w =
    (w', Ok (Some (depth, avg_thickness))) →
  depth = (Qc_of_Z frame_num * depth_increment)%Qc ∧
  ∃ line_thicknesses,
    measures video num_lines threshold lsp top frame_num line_thicknesses ∧
    line_thicknesses ≠ [] ∧ avg_thickness = average line_thicknesses.
Proof.
  unfold frame_body. intros H.
  apply bind_ok_inv in H as (w1 & r & Hr & H). apply video_read_ok_inv in Hr.
  destruct r as [f|]; [|inversion H].
  apply bind_ok_inv in H as (w2 & ev & _ & H).
  apply bind_ok_inv in H as (w3 & [] & _ & H).
  apply bind_ok_inv in H as (w4 & pre & Hpre & H). apply preprocess_frame_ok_inv in Hpre.
  apply bind_ok_inv in H as (w5 & lines & Hlines & H). apply lift_ok_inv in Hlines.
  apply bind_ok_inv in H as (w6 & ev' & _ & H).
  apply bind_ok_inv in H as (w7 & [] & _ & H).
  apply bind_ok_inv in H as (w8 & lts & Hlts & H). apply lift_ok_inv in Hlts.
  case_bool_decide as Hne; [inversion H|].
  apply bind_ok_inv in H as (w9 & ev'' & _ & H).
  apply bind_ok_inv in H as (w10 & [] & _ & H).
  inversion H; subst. split; [done|].
  exists lts. split; [|done].
  apply thickness_loop_spec in Hlts as (ts & Hts & ->).
  by exists f, pre, lines, ts.
Qed.

Lemma frame_loop_spec (body : Z → M (option (Qc * Qc))) (P : Z → Qc → Qc → Prop) :
  (∀ f w w' d t, body f w = (w', Ok (Some (d, t))) → P f d t) →
  ∀ frame_nums depths thicknesses w w' depths' thicknesses',
    frame_loop body frame_nums depths thicknesses w = (w', Ok (depths', thicknesses')) →
    ∃ entries : list (Z * (Qc * Qc)),
      entries.*1 `sublist_of` frame_nums ∧
      Forall (λ e, P e.1 e.2.1 e.2.2) entries ∧
      depths' = depths ++ entries.*2.*1 ∧
      thicknesses' = thicknesses ++ entries.*2.*2.
Proof.
  intros Hbody frame_nums.
  induction frame_nums as [|f rest IH]; intros ds ts w w' ds' ts' H; simpl in H.
  - inversion H; subst. exists []. rewrite !app_nil_r. repeat split; constructor.
  - apply bind_ok_inv in H as (w1 & r & Hr & H).
    destruct r as [[d t]|].
    + apply IH in H as (entries & Hsub & HP & -> & ->).
      exists ((f, (d, t)) :: entries). simpl. rewrite <- !app_assoc.
      repeat split; [by constructor|constructor; [by eapply Hbody|done]].
    + apply IH in H as (entries & Hsub & HP & -> & ->).
      exists entries. repeat split; [by constructor|done].
Qed.

(** The series [analyze_video] returns, entry by entry. *)
Lemma analyze_video_entries video frame_interval max_depth num_lines threshold lsp top0
    w w' depths thicknesses total_pixels :
  analyze_video video frame_interval max_depth num_lines threshold lsp top0 w =
    (w', Ok (depths, thicknesses, total_pixels)) →
  ∃ top (entries : list (Z * (Qc * Qc))),
    entries.*1 `sublist_of` py_range 0 (frame_count video) frame_interval ∧
    depths = entries.*2.*1 ∧ thicknesses = entries.*2.*2 ∧
    Forall (λ e,
      e.2.1 = (Qc_of_Z e.1 * (max_depth / Qc_of_Z (frame_count video)))%Qc ∧
      ∃ line_thicknesses,
        measures video num_lines threshold lsp top e.1 line_thicknesses ∧
        line_thicknesses ≠ [] ∧ e.2.2 = average line_thicknesses) entries.
Proof.
  unfold analyze_video. intros H.
  apply bind_ok_inv in H as (w1 & [top tp] & _ & H).
  apply bind_ok_inv in H as (w2 & inc & Hinc & H). apply lift_ok_inv in Hinc.
  apply bind_ok_inv in H as (w3 & [] & _ & H).
  apply bind_ok_inv in H as (w4 & [ds ts] & Hloop & H).
  destruct tp as [tp|]; [|inversion H]. inversion H; subst. clear H.
  unfold py_div in Hinc. case_bool_decide; [done|]. inversion Hinc; subst.
  eapply frame_loop_spec in Hloop as (entries & Hsub & HP & -> & ->);
    [|intros f wa wb d t Hb; apply frame_body_entry in Hb; exact Hb].
  exists top, entries. done.
Qed.

(** The widths of given lines are determined. *)
Lemma calculate_thickness_widths_unique threshold vertical_lines ts ts' :
  Forall2 (λ line t, calculate_thickness line threshold = Ok t) vertical_lines ts →
  Forall2 (λ line t, calculate_thickness line threshold = Ok t) vertical_lines ts' →
  ts = ts'.
Proof.
  intros H. revert ts'. induction H as [|line t lines ts Ht _ IH]; intros ts' H'.
  - by apply Forall2_nil_inv_l in H'.
  - apply Forall2_cons_inv_l in H' as (t' & ts'' & Ht' & H' & ->).
    f_equal; [congruence|by apply IH].
Qed.

(** An iteration that appends nothing ran on a frame that yields no
    entry: the frame was not read, or none of its lines has a positive
    width. *)
Lemma frame_body_skip video num_lines threshold lsp top depth_increment frame_num w w' :
  frame_body video num_lines threshold lsp top depth_increment frame_num w =
    (w', Ok None) →
  ¬ yields_entry video num_lines threshold lsp top frame_num.
Proof.
  unfold frame_body. intros H (lts' & (f' & pre' & lines' & ts' & Hf & Hpre' & Hlines' & Hts' & ->) & Hne').
  apply bind_ok_inv in H as (w1 & r & Hr & H). apply video_read_ok_inv in Hr.
  rewrite Hf in Hr. subst r.
  apply bind_ok_inv in H as (w2 & ev & _ & H).
  apply bind_ok_inv in H as (w3 & [] & _ & H).
  apply bind_ok_inv in H as (w4 & pre & Hpre & H). apply preprocess_frame_ok_inv in Hpre.
  apply bind_ok_inv in H as (w5 & lines & Hlines & H). apply lift_ok_inv in Hlines.
  apply bind_ok_inv in H as (w6 & ev' & _ & H).
  apply bind_ok_inv in H as (w7 & [] & _ & H).
  apply bind_ok_inv in H as (w8 & lts & Hlts & H). apply lift_ok_inv in Hlts.
  assert (pre' = pre) as -> by congruence.
  assert (lines' = lines) as -> by congruence.
  apply thickness_loop_spec in Hlts as (ts & Hts & ->).
  rewrite (calculate_thickness_widths_unique _ _ _ _ Hts' Hts) in Hne'.
  case_bool_decide as Hnil; [done|].
  apply bind_ok_inv in H as (w9 & ev'' & _ & H).
  apply bind_ok_inv in H as (w10 & [] & _ & H).
  inversion H.
Qed.

(** The frame loop, iteration by iteration: the indices that appended
    an entry, and what holds of those that did not. *)
Lemma frame_loop_spec_exact (body : Z → M (option (Qc * Qc)))
    (P : Z → Qc → Qc → Prop) (Q : Z → Prop) :
  (∀ f w w' d t, body f w = (w', Ok (Some (d, t))) → P f d t) →
  (∀ f w w', body f w = (w', Ok None) → Q f) →
  ∀ frame_nums depths thicknesses w w' depths' thicknesses',
    frame_loop body frame_nums depths thicknesses w = (w', Ok (depths', thicknesses')) →
    ∃ entries : list (Z * (Qc * Qc)),
      entries.*1 `sublist_of` frame_nums ∧
      Forall (λ e, P e.1 e.2.1 e.2.2) entries ∧
      (∀ f, f ∈ frame_nums → f ∉ entries.*1 → Q f) ∧
      depths' = depths ++ entries.*2.*1 ∧
      thicknesses' = thicknesses ++ entries.*2.*2.
Proof.
  intros Hsome Hnone frame_nums.
  induction frame_nums as [|f rest IH]; intros ds ts w w' ds' ts' H; simpl in H.
  - inversion H; subst. exists []. rewrite !app_nil_r.
    split_and!; [constructor|constructor| |done|done].
    intros f Hf. by apply elem_of_nil in Hf.
  - apply bind_ok_inv in H as (w1 & r & Hr & H).
    destruct r as [[d t]|].
    + apply IH in H as (entries & Hsub & HP & HQ & -> & ->).
      exists ((f, (d, t)) :: entries). simpl. rewrite <- !app_assoc.
      split_and!; [by constructor|constructor; [by eapply Hsome|done]| |done|done].
      intros g Hg Hng. apply not_elem_of_cons in Hng as [Hgf Hng].
      apply elem_of_cons in Hg as [->|Hg]; [done|]. by apply HQ.
    + apply IH in H as (entries & Hsub & HP & HQ & -> & ->).
      exists entries. split_and!; [by constructor|done| |done|done].
      intros g Hg Hng. apply elem_of_cons in Hg as [->|Hg]; [by eapply Hnone|].
      by apply HQ.
Qed.

(** The series [analyze_video] returns, with the sampled indices that
    contributed no entry. *)
Lemma analyze_video_entries_exact video frame_interval max_depth num_lines threshold lsp
    top0 w w' depths thicknesses total_pixels :
  analyze_video video frame_interval max_depth num_lines threshold lsp top0 w =
    (w', Ok (depths, thicknesses, total_pixels)) →
  ∃ top (entries : list (Z * (Qc * Qc))),
    (∃ w1 tp, exclusion_zone_block video top0 w = (w1, Ok (top, tp))) ∧
    entries.*1 `sublist_of` py_range 0 (frame_count video) frame_interval ∧
    depths = entries.*2.*1 ∧ thicknesses = entries.*2.*2 ∧
    Forall (λ e,
      e.2.1 = (Qc_of_Z e.1 * (max_depth / Qc_of_Z (frame_count video)))%Qc ∧
      ∃ line_thicknesses,
        measures video num_lines threshold lsp top e.1 line_thicknesses ∧
        line_thicknesses ≠ [] ∧ e.2.2 = average line_thicknesses) entries ∧
    (∀ f, f ∈ py_range 0 (frame_count video) frame_interval → f ∉ entries.*1 →
          ¬ yields_entry video num_lines threshold lsp top f).
Proof.
  unfold analyze_video. intros H.
  apply bind_ok_inv in H as (w1 & [top tp] & Hblock & H).
  apply bind_ok_inv in H as (w2 & inc & Hinc & H). apply lift_ok_inv in Hinc.
  apply bind_ok_inv in H as (w3 & [] & _ & H).
  apply bind_ok_inv in H as (w4 & [ds ts] & Hloop & H).
  destruct tp as [tp|]; [|inversion H]. inversion H; subst. clear H.
  unfold py_div in Hinc. case_bool_decide; [done|]. inversion Hinc; subst.
  apply (frame_loop_spec_exact _
           (λ f d t,
              d = (Qc_of_Z f * (max_depth / Qc_of_Z (frame_count video)))%Qc ∧
              ∃ line_thicknesses,
                measures video num_lines threshold lsp top f line_thicknesses ∧
                line_thicknesses ≠ [] ∧ t = average line_thicknesses)
           (λ f, ¬ yields_entry video num_lines threshold lsp top f))
    in Hloop as (entries & Hsub & HP & HQ & -> & ->).
  - exists top, entries. split; [by eexists _, _|done].
  - intros f wa wb d t Hb. apply frame_body_entry in Hb. exact Hb.
  - intros f wa wb Hb. by eapply frame_body_skip.
Qed.

End Analysis.

(** ** Sampled indices *)

Lemma seq_sorted a n : StronglySorted lt (seq a n).
Proof.
  revert a. induction n as [|n IH]; intros a; simpl; constructor; [apply IH|].
  apply Forall_forall. intros k Hk. apply elem_of_seq in Hk. lia.
Qed.

Lemma py_range_sorted stop step :
  0 < step → StronglySorted Z.lt (py_range 0 stop step).
Proof.
  intros Hstep. unfold py_range.
  apply (StronglySorted_fmap _ lt); [|apply seq_sorted].
  intros i j Hij. nia.
Qed.

Lemma py_range_empty stop step : 0 < step → stop ≤ 0 → py_range 0 stop step = [].
Proof.
  intros Hstep Hstop. unfold py_range, py_range_len.
  assert ((0 <? step) = true) as -> by by apply Z.ltb_lt.
  assert ((stop - 0 + step - 1) / step < 1) by (apply Z.div_lt_upper_bound; lia).
  replace (Z.to_nat _) with 0%nat by lia. done.
Qed.

Lemma StronglySorted_sublist {A} (R : relation A) (l k : list A) :
  l `sublist_of` k → StronglySorted R k → StronglySorted R l.
Proof.
  induction 1 as [|x l k Hsub IH|x l k Hsub IH]; intros Hk; [done|..].
  - apply StronglySorted_cons in Hk as [Hx Hk].
    apply StronglySorted_cons. split; [|by apply IH].
    apply Forall_forall. intros y Hy.
    apply (proj1 (Forall_forall _ _) Hx). by eapply elem_of_sublist.
  - apply StronglySorted_cons in Hk as [_ Hk]. by apply IH.
Qed.


Lemma Qc_of_Z_pos z : 0 < z → (0 < Qc_of_Z z)%Qc.
Proof. intros Hz. rewrite <- Z2Qc_inj_0. by apply (proj1 (Z2Qc_inj_lt 0 z)). Qed.


Section Series.
Context `{cv : OpenCV}.

Lemma depth_of_mono video max_depth f1 f2 :
  0 < frame_count video → (0 ≤ max_depth)%Qc → f1 < f2 →
  (depth_of video max_depth f1 ≤ depth_of video max_depth f2)%Qc.
Proof.
  intros Hfc Hmd Hf. unfold depth_of, Qcdiv.
  rewrite <- !Qcmult_assoc. apply Qcmult_le_mono_nonneg_r.
  - apply Qcmult_nonneg_nonneg; [done|].
    by apply Qclt_le_weak, Qcinv_pos, Qc_of_Z_pos.
  - apply (proj1 (Z2Qc_inj_le f1 f2)). lia.
Qed.

(** C2.  The entries of the returned series come from exactly the
    sampled indices of [range(0, frame_count, frame_interval)] whose frame
    yields an entry, in sampling order: the k-th thickness is the mean
    width measured on the k-th such frame [f], and the k-th depth is
    [f × max_depth / frame_count] for that same [f].  The divisor is the
    video's frame count, whatever the stride; the frames are measured
    below the offset [top] that the exclusion block leaves in
    [top_threshold_pixels].  For a non-negative maximum depth and a
    positive stride the entry frames are strictly increasing and the
    depths non-decreasing. *)
Theorem analyze_video_depths (video : video_source) (frame_interval : Z) (max_depth : Qc)
    (num_lines : Z) (threshold lsp : Qc) (top0 : Z) (w w' : world)
    (depths thicknesses : list Qc) (total_pixels : Z) :
  analyze_video video frame_interval max_depth num_lines threshold lsp top0 w =
    (w', Ok (depths, thicknesses, total_pixels)) →
  ∃ (top : Z) (entry_frames : list Z),
    (∃ w1 tp, exclusion_zone_block video top0 w = (w1, Ok (top, tp))) ∧
    entry_frames `sublist_of` py_range 0 (frame_count video) frame_interval ∧
    (∀ f, f ∈ entry_frames ↔
          f ∈ py_range 0 (frame_count video) frame_interval ∧
          yields_entry video num_lines threshold lsp top f) ∧
    Forall2 (λ f t, ∃ line_thicknesses,
        measures video num_lines threshold lsp top f line_thicknesses ∧
        line_thicknesses ≠ [] ∧ t = average line_thicknesses)
      entry_frames thicknesses ∧
    depths = depth_of video max_depth <$> entry_frames ∧
    ((0 ≤ max_depth)%Qc → 0 < frame_interval →
     StronglySorted Z.lt entry_frames ∧ StronglySorted Qcle depths).
Proof.
  intros H.
  apply analyze_video_entries_exact in H
    as (top & entries & Hblock & Hsub & -> & -> & HP & HQ).
  exists top, (entries.*1). split; [done|]. split; [done|].
  assert (Forall2 (λ f t, ∃ line_thicknesses,
        measures video num_lines threshold lsp top f line_thicknesses ∧
        line_thicknesses ≠ [] ∧ t = average line_thicknesses)
      entries.*1 entries.*2.*2) as HF.
  { clear Hsub HQ. induction HP as [|[f [d t]] entries [_ Hm] _ IH]; simpl;
      constructor; done. }
  assert (entries.*2.*1 = depth_of video max_depth <$> entries.*1) as Hd.
  { clear Hsub HQ HF. induction HP as [|[f [d t]] entries [Hd _] _ IH]; [done|].
    csimpl in *. f_equal; [|done].
    rewrite Hd. unfold depth_of, Qcdiv. by rewrite Qcmult_assoc. }
  split.
  { intros f. split.
    - intros Hf. split; [by eapply elem_of_sublist|].
      apply list_elem_of_fmap in Hf as ([f' [d t]] & -> & He).
      apply (proj1 (Forall_forall _ _) HP) in He as [_ (lts & Hm & Hne & _)].
      by exists lts.
    - intros [Hf Hy]. destruct (decide (f ∈ entries.*1)) as [|Hn]; [done|].
      by destruct (HQ f Hf Hn). }
  split; [done|]. split; [done|]. intros Hmd Hstep.
  assert (StronglySorted Z.lt entries.*1) as Hsorted.
  { eapply StronglySorted_sublist; [done|]. by apply py_range_sorted. }
  split; [done|]. rewrite Hd.
  destruct (Z.lt_ge_cases 0 (frame_count video)) as [Hfc|Hfc].
  - eapply StronglySorted_fmap; [|done]. intros f1 f2. by apply depth_of_mono.
  - rewrite py_range_empty in Hsub by done.
    apply sublist_nil_r in Hsub. rewrite Hsub. constructor.
Qed.


End Series.

(** ** The namespace during the analysis *)

Create HintDb keeps discriminated.

Lemma keeps_ret {A} (a : A) : keeps_globals (mret a).
Proof. intros w w' r. by inversion 1. Qed.

Lemma keeps_raise {A} (e : exn) : keeps_globals (raise (A := A) e).
Proof. intros w w' r. by inversion 1. Qed.

Lemma keeps_lift {A} (x : result A) : keeps_globals (lift x).
Proof. intros w w' r. by inversion 1. Qed.

Lemma keeps_emit ev : keeps_globals (emit ev).
Proof. intros w w' r. by inversion 1. Qed.

Lemma keeps_get_global name : keeps_globals (get_global name).
Proof. intros w w' r. unfold get_global. destruct (globals w !! name); by inversion 1. Qed.

Lemma keeps_input : keeps_globals input.
Proof. intros w w' r. unfold input. destruct (stdin w); by inversion 1. Qed.

Lemma keeps_bind {A B} (m : M A) (f : A → M B) :
  keeps_globals m → (∀ a, keeps_globals (f a)) → keeps_globals (m ≫= f).
Proof.
  intros Hm Hf w w' r H.
  apply bind_inv in H as [(w1 & a & H1 & H2)|(e & H1 & _)].
  - apply Hf in H2. apply Hm in H1. congruence.
  - by apply Hm in H1.
Qed.

Lemma keeps_if {A} (b : bool) (m1 m2 : M A) :
  keeps_globals m1 → keeps_globals m2 → keeps_globals (if b then m1 else m2).
Proof. by destruct b. Qed.

#[global] Hint Resolve keeps_ret keeps_raise keeps_lift keeps_emit keeps_get_global
  keeps_input keeps_if : keeps.

Ltac keeps_step :=
  first
    [ apply keeps_bind; [|intros ?]
    | match goal with
      | |- keeps_globals (match ?x with _ => _ end) => destruct x
      end
    | solve [auto with keeps] ].

Ltac keeps := repeat keeps_step.

Lemma keeps_input_float : keeps_globals input_float.
Proof. unfold input_float. keeps. Qed.

Lemma keeps_visualize_frame title : keeps_globals (visualize_frame title).
Proof. unfold visualize_frame. keeps. Qed.

#[global] Hint Resolve keeps_input_float keeps_visualize_frame : keeps.

Lemma keeps_visualize_vertical_lines : keeps_globals visualize_vertical_lines.
Proof. unfold visualize_vertical_lines. keeps. Qed.

Lemma keeps_visualize_intensity_profiles vertical_lines :
  keeps_globals (visualize_intensity_profiles vertical_lines).
Proof. unfold visualize_intensity_profiles. keeps. Qed.

Lemma keeps_visualize_intensity_profile vertical_lines line_thicknesses depth :
  keeps_globals (visualize_intensity_profile vertical_lines line_thicknesses depth).
Proof. unfold visualize_intensity_profile. keeps. Qed.

Lemma keeps_video_read video frame_num : keeps_globals (video_read video frame_num).
Proof. unfold video_read. keeps. Qed.

#[global] Hint Resolve keeps_visualize_vertical_lines keeps_visualize_intensity_profiles
  keeps_visualize_intensity_profile keeps_video_read : keeps.

Lemma keeps_exclusion_prompt_loop pending height d :
  keeps_globals (exclusion_prompt_loop pending height d).
Proof.
  revert d. induction pending as [|n IH]; intros d; simpl.
  - keeps.
  - apply keeps_if; [|auto with keeps]. apply keeps_bind; [auto with keeps|done].
Qed.

Section NamespaceOfAnalysis.
Context `{cv : OpenCV}.

Lemma keeps_preprocess_frame f : keeps_globals (preprocess_frame f).
Proof. unfold preprocess_frame. keeps. Qed.

Lemma keeps_exclusion_zone_block video top :
  keeps_globals (exclusion_zone_block video top).
Proof.
  unfold exclusion_zone_block.
  apply keeps_bind; [auto with keeps|]. intros uz. apply keeps_if; [|keeps].
  apply keeps_bind; [auto with keeps|]. intros [f|]; [|auto with keeps].
  apply keeps_bind; [auto with keeps|]. intros [].
  apply keeps_bind; [auto with keeps|]. intros d0.
  apply keeps_bind; [|intros d; keeps].
  intros w w' r H. by apply keeps_exclusion_prompt_loop in H.
Qed.

Lemma keeps_frame_body video num_lines threshold lsp top depth_increment frame_num :
  keeps_globals (frame_body video num_lines threshold lsp top depth_increment frame_num).
Proof.
  pose proof keeps_preprocess_frame.
  unfold frame_body. keeps.
Qed.

Lemma keeps_frame_loop body frame_nums depths thicknesses :
  (∀ f, keeps_globals (body f)) →
  keeps_globals (frame_loop body frame_nums depths thicknesses).
Proof.
  intros Hbody. revert depths thicknesses.
  induction frame_nums as [|f rest IH]; intros ds ts; simpl; [auto with keeps|].
  apply keeps_bind; [done|]. intros [[d t]|]; apply IH.
Qed.

(** [analyze_video] leaves the module namespace as it found it. *)
Lemma keeps_analyze_video video frame_interval max_depth num_lines threshold lsp top :
  keeps_globals (analyze_video video frame_interval max_depth num_lines threshold lsp top).
Proof.
  unfold analyze_video.
  apply keeps_bind; [apply keeps_exclusion_zone_block|]. intros [top' tp].
  apply keeps_bind; [auto with keeps|]. intros inc.
  apply keeps_bind; [keeps|]. intros [].
  apply keeps_bind; [|intros [ds ts]; keeps].
  apply keeps_frame_loop. intros f. apply keeps_frame_body.
Qed.

(** With the exclusion zone switched off the block binds
    [total_pixels] to the global [frame_height] and touches nothing. *)
Lemma exclusion_zone_block_disabled video top w v h :
  globals w !! "use_exclusion_zone" = Some v → truthy v = false →
  globals w !! "frame_height" = Some (VInt h) →
  exclusion_zone_block video top w = (w, Ok (top, Some h)).
Proof.
  intros Huz Hv Hfh.
  unfold exclusion_zone_block, mbind, M_bind, get_global. rewrite Huz, Hv, Hfh. done.
Qed.

Lemma py_int_of_Z z : py_int (Qc_of_Z z) = z.
Proof. unfold py_int. simpl. apply Z.quot_1_r. Qed.

(** With the exclusion zone switched on and the first frame readable,
    a first answer [d] with [0 ≤ d ≤ height] is accepted at once. *)
Lemma exclusion_zone_block_accepts video top w v ev h f l rest d :
  globals w !! "use_exclusion_zone" = Some v → truthy v = true →
  frames video 0 = Some f →
  globals w !! "enable_visualizations" = Some ev →
  globals w !! "frame_height" = Some (VInt h) →
  stdin w = l :: rest →
  (l = LFloat d ∨ ∃ z, l = LInt z ∧ d = Qc_of_Z z) →
  (0 ≤ d)%Qc → (d ≤ Qc_of_Z (vid_height video))%Qc →
  ∃ w', exclusion_zone_block video top w = (w', Ok (py_int d, Some (h - py_int d))) ∧
        stdin w' = rest ∧ globals w' = globals w.
Proof.
  intros Huz Hv Hf Hev Hfh Hin Hl Hd0 Hdh.
  assert (Qc_ltb d 0 = false) as E1.
  { unfold Qc_ltb. apply bool_decide_eq_false_2. by apply Qcle_not_lt. }
  assert (Qc_ltb (Qc_of_Z (vid_height video)) d = false) as E2.
  { unfold Qc_ltb. apply bool_decide_eq_false_2. by apply Qcle_not_lt. }
  assert (∀ n w0, exclusion_prompt_loop n (vid_height video) d w0 = (w0, Ok d)) as Hloop.
  { intros [|n] w0; simpl; by rewrite E1, E2. }
  unfold exclusion_zone_block, mbind, M_bind, get_global, video_read, mbind, M_bind, emit.
  rewrite Huz, Hv, Hf. simpl.
  unfold visualize_frame, mbind, M_bind, get_global. simpl. rewrite Hev.
  destruct (truthy ev); simpl;
    unfold input_float, mbind, M_bind, input; simpl; rewrite Hin;
    (destruct Hl as [->|(z & -> & ->)]; simpl; rewrite Hloop; simpl; rewrite Hev;
     destruct (truthy ev); simpl; rewrite Hfh; simpl; eexists; done).
Qed.

(** With the exclusion zone switched off an empty video stops the
    analysis at the depth increment, before anything is read. *)
Lemma analyze_video_no_frames video frame_interval max_depth num_lines threshold lsp
    top w v h :
  frame_count video = 0 →
  globals w !! "use_exclusion_zone" = Some v → truthy v = false →
  globals w !! "frame_height" = Some (VInt h) →
  analyze_video video frame_interval max_depth num_lines threshold lsp top w =
    (w, Err ZeroDivisionError).
Proof.
  intros Hfc Huz Hv Hfh. unfold analyze_video.
  unfold mbind at 1, M_bind at 1.
  rewrite (exclusion_zone_block_disabled video top w v h) by done.
  rewrite Hfc. reflexivity.
Qed.

Lemma analyze_video_total_pixels video frame_interval max_depth num_lines threshold lsp
    top w w' v h depths thicknesses total_pixels :
  globals w !! "use_exclusion_zone" = Some v → truthy v = false →
  globals w !! "frame_height" = Some (VInt h) →
  analyze_video video frame_interval max_depth num_lines threshold lsp top w =
    (w', Ok (depths, thicknesses, total_pixels)) →
  total_pixels = h.
Proof.
  intros Huz Hv Hfh H. unfold analyze_video in H.
  apply bind_ok_inv in H as (w1 & [top' tp] & Hblock & H).
  rewrite (exclusion_zone_block_disabled video top w v h) in Hblock by done.
  inversion Hblock; subst.
  apply bind_ok_inv in H as (w2 & inc & _ & H).
  apply bind_ok_inv in H as (w3 & [] & _ & H).
  apply bind_ok_inv in H as (w4 & [ds ts] & _ & H).
  by inversion H.
Qed.

End NamespaceOfAnalysis.

(** ** The console phase of the script *)

Lemma no_events (w : world) : ∃ t, trace w = trace w ++ t ∧ prompts_only t.
Proof. exists []. split; [by rewrite app_nil_r|constructor]. Qed.

Lemma console_only_ret {A} (a : A) : console_only (mret a).
Proof.
  intros w w' r. inversion 1; subst. split; [done|]. split; [|done].
  apply no_events.
Qed.

Lemma console_only_raise {A} e : console_error e → console_only (raise (A := A) e).
Proof.
  intros He w w' r. inversion 1; subst. split; [done|]. split.
  - apply no_events.
  - by intros e' [= <-].
Qed.

Lemma console_only_input : console_only input.
Proof.
  intros w w' r. unfold input. destruct (stdin w); inversion 1; subst; simpl.
  - split; [done|]. split; [apply no_events|].
    intros e [= <-]. by left.
  - split; [done|]. split; [|done].
    exists [ConsolePrompt]. split; [done|by repeat constructor].
Qed.

Lemma console_only_bind {A B} (m : M A) (f : A → M B) :
  console_only m → (∀ a, console_only (f a)) → console_only (m ≫= f).
Proof.
  intros Hm Hf w w' r H.
  apply bind_inv in H as [(w1 & a & H1 & H2)|(e & H1 & ->)].
  - apply Hm in H1 as (Hg1 & (t1 & Ht1 & Hp1) & _).
    apply Hf in H2 as (Hg2 & (t2 & Ht2 & Hp2) & He).
    split; [congruence|]. split; [|done].
    exists (t1 ++ t2). split; [by rewrite Ht2, Ht1, app_assoc|by apply Forall_app].
  - apply Hm in H1 as (Hg1 & Ht1 & He). split; [done|]. split; [done|].
    intros e' [= <-]. by apply He.
Qed.

Lemma console_only_input_float : console_only input_float.
Proof.
  apply console_only_bind; [apply console_only_input|].
  intros [q|z|s]; try apply console_only_ret. apply console_only_raise. by right.
Qed.

Lemma console_only_input_int : console_only input_int.
Proof.
  apply console_only_bind; [apply console_only_input|].
  intros [q|z|s]; try apply console_only_ret; apply console_only_raise; by right.
Qed.

Lemma console_only_input_yes : console_only input_yes.
Proof.
  apply console_only_bind; [apply console_only_input|].
  intros [q|z|s]; apply console_only_ret.
Qed.

Lemma console_only_prompt_user : console_only prompt_user.
Proof.
  unfold prompt_user.
  apply console_only_bind; [apply console_only_input_float|]. intros ?.
  apply console_only_bind; [apply console_only_input_int|]. intros ?.
  apply console_only_bind; [apply console_only_input_float|]. intros ?.
  apply console_only_bind; [apply console_only_input_yes|]. intros ?.
  apply console_only_bind; [apply console_only_input_yes|]. intros ?.
  apply console_only_ret.
Qed.

Section ScriptCases.
Context `{cv : OpenCV}.

Lemma top_threshold_argument_unbound w :
  globals w !! "top_threshold_pixels" = None →
  top_threshold_argument true w = (w, Err (NameError "top_threshold_pixels")).
Proof.
  intros Hw. unfold top_threshold_argument, mbind, M_bind, get_global. by rewrite Hw.
Qed.

Lemma prompts_only_app t1 t2 : prompts_only t1 → prompts_only t2 → prompts_only (t1 ++ t2).
Proof. intros. by apply Forall_app. Qed.

Lemma ret_inv {A} (a : A) (w w' : world) r :
  (mret a : M A) w = (w', r) → w' = w ∧ r = Ok a.
Proof. by inversion 1. Qed.

Lemma step_set_global {A} name v (k : M A) w :
  (set_global name v ;; k) w =
    k (World (<[name := v]> (globals w)) (stdin w) (trace w)).
Proof. reflexivity. Qed.

(** How a run of the script can end: at the console, at the keyword
    argument of the call, or after the call of [analyze_video]. *)
Lemma main_script_cases vp sl video console w' r :
  run_script vp sl video console = (w', r) →
  (prompts_only (trace w') ∧
   ((∃ e, r = Err e ∧ console_error e ∧
      (is_Some (globals w' !! "use_exclusion_zone") →
       globals w' !! "use_multiple_lines" = Some (VBool true) ∧
       globals w' !! "num_lines" = None)) ∨
    (r = Err (NameError "top_threshold_pixels") ∧
     globals w' !! "use_exclusion_zone" = Some (VBool true) ∧
     globals w' !! "top_threshold_pixels" = None))) ∨
  (∃ w1 max_depth_mm frame_interval num_lines ev,
     at_call video w1 ev ∧
     (analyze_video video frame_interval max_depth_mm num_lines one_half one_tenth 0
        ≫= calibrate_and_export max_depth_mm) w1 = (w', r)).
Proof.
  unfold run_script, main_script. rewrite !step_set_global. cbn [globals stdin trace].
  intros H.
  apply bind_inv in H as [(w1 & [[[[md fi] di] uml] ev] & H1 & H)|(e & H1 & ->)];
    apply console_only_prompt_user in H1 as (Hg & (t & Ht & Hp) & He);
    cbn [globals stdin trace] in *.
  2:{ left. split; [by rewrite Ht|]. left. exists e. split; [done|]. split; [by apply He|].
      rewrite Hg. intros [x Hx]. vm_compute in Hx. discriminate. }
  clear He. destruct w1 as [g1 s1 t1]. cbn [globals stdin trace] in *. subst.
  rewrite !step_set_global in H. cbn [globals stdin trace] in H.
  apply bind_inv in H as [(w2 & uez & H2 & H)|(e & H2 & ->)];
    apply console_only_input_yes in H2 as (Hg & (t2 & Ht2 & Hp2) & He);
    cbn [globals stdin trace] in *.
  2:{ left. split; [rewrite Ht2; by apply prompts_only_app|].
      left. exists e. split; [done|]. split; [by apply He|].
      rewrite Hg. intros [x Hx]. vm_compute in Hx. discriminate. }
  clear He. destruct w2 as [g2 s2 tr2]. cbn [globals stdin trace] in *. subst.
  rewrite step_set_global in H. cbn [globals stdin trace] in H.
  assert (prompts_only (([] ++ t) ++ t2)) as Htr by by apply prompts_only_app.
  revert H Htr. generalize (([] ++ t) ++ t2). intros tr H Htr.
  (* the line count *)
  apply bind_inv in H as [(w3 & n & H3 & H)|(e & H3 & ->)].
  2:{ destruct uml; [|by apply ret_inv in H3 as [_ ?]]. unfold num_lines_argument in H3.
      apply bind_inv in H3 as [(w4 & n & H4 & H3)|(e' & H4 & Hee)].
      { rewrite step_set_global in H3. by apply ret_inv in H3 as [_ ?]. }
      apply console_only_input_int in H4 as (Hg & (t4 & Ht4 & Hp4) & He).
      specialize (He e' eq_refl). injection Hee as Hee. rewrite Hee.
      cbn [globals stdin trace] in *.
      left. split; [rewrite Ht4; by apply prompts_only_app|].
      left. exists e'. split; [done|]. split; [done|].
      rewrite Hg. intros _. split; vm_compute; reflexivity. }
  assert (∃ g3 s3 t3, w3 = World g3 s3 (tr ++ t3) ∧ prompts_only t3 ∧
            g3 !! "use_exclusion_zone" = Some (VBool uez) ∧
            g3 !! "frame_height" = Some (VInt (vid_height video)) ∧
            g3 !! "enable_visualizations" = Some (VBool ev) ∧
            g3 !! "max_depth" = None ∧
            g3 !! "top_threshold_pixels" = None) as (g3 & s3 & t3 & -> & Hp3 & G1 & G2 & G3 & G4 & G5).
  { destruct uml.
    - unfold num_lines_argument in H3.
      apply bind_inv in H3 as [(w4 & n' & H4 & H3)|(e' & H4 & Hee)]; [|discriminate].
      apply console_only_input_int in H4 as (Hg & (t4 & Ht4 & Hp4) & _).
      destruct w4 as [g4 s4 tr4]. cbn [globals stdin trace] in *. subst.
      rewrite step_set_global in H3. apply ret_inv in H3 as [-> [= ->]].
      eexists _, _, t4. split; [reflexivity|]. split; [done|].
      split_and!; vm_compute; reflexivity.
    - apply ret_inv in H3 as [-> [= ->]].
      eexists _, _, []. rewrite app_nil_r. split; [reflexivity|]. split; [constructor|].
      split_and!; vm_compute; reflexivity. }
  assert (prompts_only (tr ++ t3)) as Htr3 by by apply prompts_only_app.
  destruct uez.
  - (* exclusion zone requested: the keyword argument cannot be evaluated *)
    left. unfold mbind at 1, M_bind at 1 in H.
    rewrite top_threshold_argument_unbound in H by done.
    inversion H; subst. cbn [globals stdin trace]. split; [done|]. by right.
  - right. exists (World g3 s3 (tr ++ t3)), md, fi, n, ev.
    split; [by constructor|]. exact H.
Qed.
End ScriptCases.

(** ** After the call *)

Lemma step_emit {A} ev (k : M A) w :
  (emit ev ;; k) w = k (World (globals w) (stdin w) (trace w ++ [ev])).
Proof. reflexivity. Qed.

Lemma Qc_of_Z_eq_0 z : Qc_of_Z z = 0%Qc → z = 0.
Proof. rewrite <- Z2Qc_inj_0. apply Z2Qc_inj. Qed.

Lemma zip_scaled (depths thicknesses : list Qc) (ratio : Qc) :
  Forall (λ row : Qc * Qc * Qc, row.2 = (row.1.2 * ratio)%Qc)
    (zip (zip depths thicknesses) (map (λ t, (t * ratio)%Qc) thicknesses)).
Proof.
  revert depths. induction thicknesses as [|t ts IH]; intros [|d ds]; simpl;
    try constructor; [done|apply IH].
Qed.

(** The statements after the call either stop at the calibration, when
    no pixel is usable, or write the three outputs. *)
Lemma calibrate_and_export_inv max_depth_mm depths thicknesses total_pixels w w' r :
  calibrate_and_export max_depth_mm (depths, thicknesses, total_pixels) w = (w', r) →
  globals w' !! "use_exclusion_zone" = globals w !! "use_exclusion_zone" ∧
  ((total_pixels = 0 ∧ r = Err ZeroDivisionError ∧ trace w' = trace w) ∨
   (total_pixels ≠ 0 ∧ r = Ok () ∧
    let pixel_to_mm_ratio := (max_depth_mm / Qc_of_Z total_pixels)%Qc in
    globals w' !! "pixel_to_mm_ratio" = Some (VFloat pixel_to_mm_ratio) ∧
    trace w' = trace w ++
      [CsvWritten (zip (zip depths thicknesses)
                     (map (λ t, (t * pixel_to_mm_ratio)%Qc) thicknesses));
       FigureShown;
       LogWritten total_pixels max_depth_mm pixel_to_mm_ratio])).
Proof.
  unfold calibrate_and_export. rewrite !step_set_global. cbn [globals stdin trace].
  unfold mbind at 1, M_bind at 1, lift, py_div.
  case_bool_decide as Hz.
  - intros [= <- <-]. cbn [globals stdin trace].
    split; [by rewrite !lookup_insert_ne by done|].
    left. split; [by apply Qc_of_Z_eq_0|done].
  - rewrite !step_set_global, !step_emit. cbn [globals stdin trace].
    unfold emit. intros [= <- <-]. cbn [globals stdin trace].
    split; [by rewrite !lookup_insert_ne by done|].
    right. split; [intros ->; apply Hz, Z2Qc_inj_0|]. split; [done|]. cbv zeta. split.
    + rewrite lookup_insert_ne by done. by rewrite lookup_insert_eq.
    + by rewrite <- !app_assoc.
Qed.

Section ScriptTheorems.
Context `{cv : OpenCV}.

Lemma after_call_exclusion video frame_interval max_depth_mm num_lines w1 w' r :
  (analyze_video video frame_interval max_depth_mm num_lines one_half one_tenth 0
     ≫= calibrate_and_export max_depth_mm) w1 = (w', r) →
  globals w' !! "use_exclusion_zone" = globals w1 !! "use_exclusion_zone".
Proof.
  intros H. apply bind_inv in H as [(w2 & [[ds ts] tp] & H1 & H2)|(e & H1 & _)].
  - apply keeps_analyze_video in H1. apply calibrate_and_export_inv in H2 as [Hg _].
    congruence.
  - apply keeps_analyze_video in H1. congruence.
Qed.

(** C9.  In every run in which the exclusion zone was requested (the
    final namespace binds [use_exclusion_zone] to [True]) and the
    line-count prompt, when asked, was answered with an integer, the
    call of [analyze_video] is never made: evaluating its keyword
    argument reads the name [top_threshold_pixels], which no statement of
    the module binds, and the run ends with [NameError].  Up to that
    point only console prompts have happened: no frame was read and
    nothing was written, so this path never returns a series. *)
Theorem run_script_exclusion_enabled (video_path save_location : string)
    (video : video_source) (console : list console_line) (w' : world) (r : result ()) :
  run_script video_path save_location video console = (w', r) →
  globals w' !! "use_exclusion_zone" = Some (VBool true) →
  (globals w' !! "use_multiple_lines" = Some (VBool true) →
   is_Some (globals w' !! "num_lines")) →
  r = Err (NameError "top_threshold_pixels") ∧
  globals w' !! "top_threshold_pixels" = None ∧
  prompts_only (trace w').
Proof.
  intros Hrun Hex Hn.
  apply main_script_cases in Hrun as [[Htr [(e & -> & He & Hc)|(-> & _ & Hun)]]|Hcall].
  - destruct Hc as [Hm Hnone]; [by eexists|].
    apply Hn in Hm as [x Hx]. congruence.
  - done.
  - destruct Hcall as (w1 & md & fi & n & ev & Hat & H).
    apply after_call_exclusion in H. destruct Hat as [Hx _ _ _ _]. congruence.
Qed.

(** C8, amended.  A run on a video with zero frames always ends in an
    exception, after console prompts only: no frame is read, no window
    shown, no CSV or log written.  The exception is [ZeroDivisionError],
    raised by [max_depth / frame_count], once the prompts are answered
    and the exclusion zone is declined; otherwise it is the [NameError]
    of the exclusion path or a console error.  The script defines no
    error class of its own. *)
Theorem run_script_no_frames (video_path save_location : string)
    (video : video_source) (console : list console_line) (w' : world) (r : result ()) :
  frame_count video = 0 →
  run_script video_path save_location video console = (w', r) →
  (∃ e, r = Err e ∧
     (e = ZeroDivisionError ∨ e = NameError "top_threshold_pixels" ∨ console_error e)) ∧
  prompts_only (trace w') ∧
  (globals w' !! "use_exclusion_zone" = Some (VBool false) →
   (globals w' !! "use_multiple_lines" = Some (VBool true) →
    is_Some (globals w' !! "num_lines")) →
   r = Err ZeroDivisionError).
Proof.
  intros Hfc Hrun.
  apply main_script_cases in Hrun as [[Htr [(e & -> & He & Hc)|(-> & Hex & _)]]|Hcall].
  - split; [exists e; auto|]. split; [done|]. intros Hex Hn.
    destruct Hc as [Hm Hnone]; [by eexists|].
    apply Hn in Hm as [x Hx]. congruence.
  - split; [eexists; eauto|]. split; [done|]. intros Hex'. congruence.
  - destruct Hcall as (w1 & md & fi & n & ev & [H1 H2 H3 H4 H5] & H).
    unfold mbind, M_bind in H.
    rewrite (analyze_video_no_frames video fi md n one_half one_tenth 0 w1
               (VBool false) (vid_height video)) in H by done.
    injection H as <- <-. split; [eexists; eauto|]. done.
Qed.

(** C4, amended.  The validation loop accepts every depth in the closed
    range [[0, height]]: an answer equal to the frame height is accepted
    at the first prompt, [top_threshold_pixels] becomes the height and
    [total_pixels] becomes 0.  No infinite ratio follows: the division by
    [total_pixels] raises [ZeroDivisionError]. *)
Theorem exclusion_zone_full_height (video : video_source) (top : Z) (w : world)
    (v ev : pyval) (f : frame) (l : console_line) (rest : list console_line)
    (max_depth : Qc) :
  globals w !! "use_exclusion_zone" = Some v → truthy v = true →
  frames video 0 = Some f →
  globals w !! "enable_visualizations" = Some ev →
  globals w !! "frame_height" = Some (VInt (vid_height video)) →
  stdin w = l :: rest →
  (l = LInt (vid_height video) ∨ l = LFloat (Qc_of_Z (vid_height video))) →
  0 ≤ vid_height video →
  ∃ w', exclusion_zone_block video top w = (w', Ok (vid_height video, Some 0)) ∧
        stdin w' = rest ∧
        py_div max_depth (Qc_of_Z 0) = Err ZeroDivisionError.
Proof.
  intros Huz Hv Hf Hev Hfh Hin Hl Hh.
  destruct (exclusion_zone_block_accepts video top w v ev (vid_height video) f l rest
              (Qc_of_Z (vid_height video))) as (w' & Hb & Hs & _); try done.
  - destruct Hl as [->| ->]; [right; by eexists|by left].
  - rewrite <- Z2Qc_inj_0. by apply (proj1 (Z2Qc_inj_le 0 _)).
  - rewrite py_int_of_Z, Z.sub_diag in Hb. by exists w'.
Qed.

(** With the exclusion zone on, [total_pixels] is the frame height minus
    the accepted depth, truncated. *)
Lemma analyze_video_total_pixels_excluded video frame_interval max_depth num_lines
    threshold lsp top w w' v ev h f l rest d depths thicknesses total_pixels :
  globals w !! "use_exclusion_zone" = Some v → truthy v = true →
  frames video 0 = Some f →
  globals w !! "enable_visualizations" = Some ev →
  globals w !! "frame_height" = Some (VInt h) →
  stdin w = l :: rest →
  (l = LFloat d ∨ ∃ z, l = LInt z ∧ d = Qc_of_Z z) →
  (0 ≤ d)%Qc → (d ≤ Qc_of_Z (vid_height video))%Qc →
  analyze_video video frame_interval max_depth num_lines threshold lsp top w =
    (w', Ok (depths, thicknesses, total_pixels)) →
  total_pixels = h - py_int d.
Proof.
  intros Huz Hv Hf Hev Hfh Hin Hl Hd0 Hdh H.
  destruct (exclusion_zone_block_accepts video top w v ev h f l rest d)
    as (w1 & Hb & _); try done.
  unfold analyze_video in H.
  apply bind_ok_inv in H as (w1' & [top' tp] & Hblock & H).
  rewrite Hb in Hblock. injection Hblock as <- <- <-.
  apply bind_ok_inv in H as (w2 & inc & _ & H).
  apply bind_ok_inv in H as (w3 & [] & _ & H).
  apply bind_ok_inv in H as (w4 & [ds ts] & _ & H).
  by apply ret_inv in H as [_ [= _ _ ->]].
Qed.

End ScriptTheorems.

(** * Part IV: further properties *)

(** ** The thickness detector: range and scaling *)

(** A recorded width spans indices already visited: before index [i] is
    processed it is at most [i - 1]. *)
Lemma scan_upper hm xs i st :
  0 ≤ i →
  thickness st ≤ Z.max 0 (i - 1) → (in_peak st = true → 0 ≤ start st) →
  thickness (scan hm i xs st) ≤ Z.max 0 (i + Z.of_nat (length xs) - 1).
Proof.
  revert i st. induction xs as [|x xs IH]; intros i st Hi Ht Hs; simpl length.
  - simpl. lia.
  - simpl scan. replace (i + Z.of_nat (S (length xs)) - 1)
      with ((i + 1) + Z.of_nat (length xs) - 1) by lia.
    apply IH; [lia|..]; unfold scan_step.
    + destruct (Qc_geb _ _ && negb _); [simpl; lia|].
      destruct (Qc_ltb _ _ && in_peak st) eqn:E; [simpl|lia].
      apply andb_true_iff in E as [_ E]. specialize (Hs E). lia.
    + destruct (Qc_geb _ _ && negb _); [simpl; lia|].
      destruct (Qc_ltb _ _ && in_peak st) eqn:E; [done|]. exact Hs.
Qed.

Lemma calculate_thickness_ok_inv intensity_profile threshold t :
  calculate_thickness intensity_profile threshold = Ok t →
  intensity_profile ≠ [] ∧
  t = thickness (scan (half_max_of intensity_profile threshold) 0 intensity_profile
                   scan_init).
Proof.
  unfold calculate_thickness, half_max_of. destruct intensity_profile as [|x xs]; [done|].
  cbv zeta. set (hm := (Qc_of_Z (np_max x xs) * threshold)%Qc). intros Ht.
  split; [done|congruence].
Qed.

Lemma calculate_thickness_le intensity_profile threshold t :
  calculate_thickness intensity_profile threshold = Ok t →
  t ≤ Z.of_nat (length intensity_profile) - 1.
Proof.
  intros Ht. apply calculate_thickness_ok_inv in Ht as [Hne ->].
  pose proof (scan_upper (half_max_of intensity_profile threshold) intensity_profile 0
                scan_init) as H.
  assert (0 < Z.of_nat (length intensity_profile))
    by (destruct intensity_profile; [done|simpl length; lia]).
  rewrite (Z.max_r 0 (0 + Z.of_nat (length intensity_profile) - 1)) in H by lia.
  apply H; simpl; [lia|lia|discriminate].
Qed.

(** X1.  Whatever the profile and the threshold, the thickness
    [calculate_thickness] returns is a number of samples between 0 and the
    length of the profile minus one: a width is a difference of two
    indices of the profile, and index 0 cannot close a crossing. *)
Theorem calculate_thickness_bounds (intensity_profile : list Z) (threshold : Qc) (t : Z) :
  calculate_thickness intensity_profile threshold = Ok t →
  0 ≤ t ≤ Z.of_nat (length intensity_profile) - 1.
Proof.
  intros Ht. split; [|by eapply calculate_thickness_le].
  apply calculate_thickness_ok_inv in Ht as [_ ->].
  apply scan_nonneg; simpl; [lia|discriminate].
Qed.

Lemma np_max_scale k x xs :
  0 ≤ k → np_max (k * x) (map (Z.mul k) xs) = k * np_max x xs.
Proof.
  intros Hk. unfold np_max. revert x.
  induction xs as [|y ys IH]; intros x; simpl; [done|].
  rewrite <- IH. f_equal. nia.
Qed.

Lemma Qc_geb_scale (k a b : Qc) : (0 < k)%Qc → Qc_geb (k * a) (k * b) = Qc_geb a b.
Proof.
  intros Hk. unfold Qc_geb. apply bool_decide_ext.
  symmetry. by apply Qcmult_le_mono_pos_l.
Qed.

Lemma Qc_ltb_scale (k a b : Qc) : (0 < k)%Qc → Qc_ltb (k * a) (k * b) = Qc_ltb a b.
Proof.
  intros Hk. unfold Qc_ltb. apply bool_decide_ext.
  symmetry. by apply Qcmult_lt_mono_pos_l.
Qed.

Lemma scan_scale (k : Z) hm xs i st :
  0 < k →
  scan (Qc_of_Z k * hm) i (map (Z.mul k) xs) st = scan hm i xs st.
Proof.
  intros Hk. revert i st. induction xs as [|x xs IH]; intros i st; simpl; [done|].
  rewrite IH. f_equal. unfold scan_step.
  rewrite Z2Qc_inj_mul, Qc_geb_scale, Qc_ltb_scale by by apply Qc_of_Z_pos.
  done.
Qed.

(** X2.  At the threshold 0.5 of the script, where the half maximum is
    half an integer and no rounding occurs, the detector depends on the
    shape of an 8-bit profile and not on its brightness: multiplying
    every sample by the same positive integer [k] (small enough for the
    products to be exact as doubles) changes neither the result nor the
    error. *)
Theorem calculate_thickness_scale (k : Z) (intensity_profile : list Z) :
  0 < k → k * 255 < 2 ^ 53 →
  Forall (λ x, 0 ≤ x ≤ 255) intensity_profile →
  calculate_thickness (map (Z.mul k) intensity_profile) one_half =
  calculate_thickness intensity_profile one_half.
Proof.
  intros Hk _ _. destruct intensity_profile as [|x xs]; [done|].
  change (map (Z.mul k) (x :: xs)) with (k * x :: map (Z.mul k) xs).
  unfold calculate_thickness. cbv zeta.
  rewrite np_max_scale by lia. rewrite Z2Qc_inj_mul, <- Qcmult_assoc.
  change (k * x :: map (Z.mul k) xs) with (map (Z.mul k) (x :: xs)).
  by rewrite scan_scale.
Qed.

(** A profile of zeros is nowhere below its own half maximum. *)
Lemma calculate_thickness_zeros (intensity_profile : list Z) (threshold : Qc) (t : Z) :
  Forall (λ v, v = 0) intensity_profile →
  calculate_thickness intensity_profile threshold = Ok t → t = 0.
Proof.
  intros Hz Ht. apply calculate_thickness_ok_inv in Ht as [Hne ->].
  rewrite scan_above_thickness; [done|].
  destruct intensity_profile as [|x xs]; [done|]. unfold half_max_of.
  assert (np_max x xs = 0) as ->.
  { apply Forall_cons in Hz as [-> Hxs]. unfold np_max.
    induction xs as [|y ys IH]; [reflexivity|].
    apply Forall_cons in Hxs as [-> Hys]. simpl. by apply IH. }
  eapply Forall_impl; [exact Hz|]. intros v ->. unfold above.
  by rewrite Z2Qc_inj_0, Qcmult_0_l.
Qed.

(** ** The line sampler: shape of the result *)

Lemma elem_of_py_range i stop step :
  0 < step → i ∈ py_range 0 stop step → 0 ≤ i < stop ∧ i mod step = 0.
Proof.
  intros Hstep Hi. unfold py_range in Hi.
  apply list_elem_of_fmap in Hi as (k & -> & Hk). apply elem_of_seq in Hk.
  unfold py_range_len in Hk.
  assert ((0 <? step) = true) as E by by apply Z.ltb_lt. rewrite E in Hk.
  pose proof (Z.mul_div_le (stop - 0 + step - 1) step Hstep) as Hd.
  split; [|by rewrite Z.add_0_l, Z.mod_mul by lia].
  split; [lia|].
  destruct (Z.max_spec 0 ((stop - 0 + step - 1) / step)) as [[H1 H2]|[H1 H2]];
    rewrite H2 in Hk; [|lia]. nia.
Qed.

Lemma length_py_range_1 n : length (py_range 0 n 1) = Z.to_nat n.
Proof.
  unfold py_range, py_range_len. rewrite length_fmap, length_seq. simpl.
  rewrite Z.div_1_r. lia.
Qed.

Lemma length_profile_of frame x : length (profile_of frame x) = length (img_rows frame).
Proof. unfold profile_of. apply length_map. Qed.

(** X3.  When the sampler returns, it returns one profile per requested
    line (none for a count that is not positive), each with one sample
    per row of the frame. *)
Theorem extract_vertical_lines_shape (frame : gray_image) (num_lines : Z)
    (line_separation_percent : Qc) (lines : list (list Z)) :
  extract_vertical_lines frame num_lines line_separation_percent = Ok lines →
  length lines = Z.to_nat num_lines ∧
  Forall (λ line, length line = length (img_rows frame)) lines.
Proof.
  unfold extract_vertical_lines. rewrite lines_loop_spec. cbv zeta.
  destruct (forallb _ _); [|done]. intros [= <-]. simpl. split.
  - by rewrite !length_map, length_py_range_1.
  - apply Forall_fmap, Forall_true. intros x. apply length_profile_of.
Qed.

(** X4.  With the default single line the sampler cannot fail on a frame
    that has a column: it returns the profile of the middle column
    [width // 2], whatever the separation. *)
Theorem extract_vertical_lines_single (frame : gray_image) (line_separation_percent : Qc) :
  0 < img_width frame →
  extract_vertical_lines frame 1 line_separation_percent =
    Ok [profile_of frame (img_width frame / 2)].
Proof.
  intros Hw. unfold extract_vertical_lines. rewrite lines_loop_spec. cbv zeta.
  change (py_range 0 1 1) with [0]. simpl map.
  change (1 / 2) with 0. rewrite Z.sub_diag, Z.mul_0_l, Z.add_0_r.
  assert (0 ≤ img_width frame / 2 < img_width frame) as Hmid.
  { split; [apply Z.div_pos; lia|apply Z.div_lt_upper_bound; lia]. }
  simpl forallb. unfold index_accepted.
  assert ((- img_width frame <=? img_width frame / 2) = true) as -> by (apply Z.leb_le; lia).
  assert ((img_width frame / 2 <? img_width frame) = true) as -> by (apply Z.ltb_lt; lia).
  simpl. by rewrite Z.mod_small.
Qed.

(** X5.  When the leftmost and the rightmost computed column lie inside
    the frame (and the separation is not negative), the sampler returns
    the profiles of exactly the computed columns, in line order: no index
    wraps around and none is rejected. *)
Theorem extract_vertical_lines_in_range (frame : gray_image) (num_lines : Z)
    (line_separation_percent : Qc) :
  let width := img_width frame in
  let line_separation := py_int (Qc_of_Z width * line_separation_percent) in
  0 ≤ line_separation →
  0 ≤ width / 2 - (num_lines / 2) * line_separation →
  width / 2 + (num_lines - 1 - num_lines / 2) * line_separation < width →
  extract_vertical_lines frame num_lines line_separation_percent =
    Ok (map (λ i, profile_of frame (line_column width num_lines line_separation_percent i))
            (py_range 0 num_lines 1)).
Proof.
  intros width sep Hsep Hlo Hhi.
  unfold extract_vertical_lines. rewrite lines_loop_spec. cbv zeta.
  fold width. fold sep.
  assert (∀ i, i ∈ py_range 0 num_lines 1 →
            0 ≤ width / 2 + (i - num_lines / 2) * sep < width) as Hin.
  { intros i Hi. apply elem_of_py_range in Hi as [Hi _]; [|lia]. nia. }
  assert (forallb (index_accepted width)
            (map (λ i, width / 2 + (i - num_lines / 2) * sep) (py_range 0 num_lines 1)) = true)
    as ->.
  { apply Is_true_true, forallb_True, Forall_fmap, Forall_forall. intros i Hi. simpl.
    unfold index_accepted. specialize (Hin i Hi). apply Is_true_true, andb_true_iff.
    split; [apply Z.leb_le|apply Z.ltb_lt]; lia. }
  simpl. f_equal. rewrite <- list_fmap_compose. apply Forall_fmap_ext_1.
  apply Forall_forall. intros i Hi. simpl. unfold line_column. fold width. fold sep.
  by rewrite Z.mod_small by by apply Hin.
Qed.

(** ** The console: [prompt_user] *)

Lemma input_ok_inv w w' l :
  input w = (w', Ok l) →
  stdin w = l :: stdin w' ∧ trace w' = trace w ++ [ConsolePrompt] ∧ globals w' = globals w.
Proof. unfold input. destruct (stdin w) eqn:E; intros [= <- <-]; by simpl. Qed.

Lemma input_float_ok_inv w w' q :
  input_float w = (w', Ok q) →
  ∃ l, parses_as_float l q ∧
       stdin w = l :: stdin w' ∧ trace w' = trace w ++ [ConsolePrompt] ∧
       globals w' = globals w.
Proof.
  unfold input_float. intros H. apply bind_ok_inv in H as (w1 & l & Hl & H).
  apply input_ok_inv in Hl. exists l.
  destruct l as [q'|z|s]; [| |inversion H]; apply ret_inv in H as [-> [= Hq]].
  - subst q'. split; [by left|done].
  - split; [right; by exists z|done].
Qed.

Lemma input_int_ok_inv w w' z :
  input_int w = (w', Ok z) →
  stdin w = LInt z :: stdin w' ∧ trace w' = trace w ++ [ConsolePrompt] ∧
  globals w' = globals w.
Proof.
  unfold input_int. intros H. apply bind_ok_inv in H as (w1 & l & Hl & H).
  apply input_ok_inv in Hl.
  destruct l as [q'|z'|s]; [inversion H| |inversion H]. by apply ret_inv in H as [-> [= <-]].
Qed.

Lemma input_yes_ok_inv w w' b :
  input_yes w = (w', Ok b) →
  ∃ l, (b = true ↔ answers_yes l) ∧
       stdin w = l :: stdin w' ∧ trace w' = trace w ++ [ConsolePrompt] ∧
       globals w' = globals w.
Proof.
  unfold input_yes, answers_yes. intros H. apply bind_ok_inv in H as (w1 & l & Hl & H).
  apply input_ok_inv in Hl. exists l.
  destruct l as [q'|z'|s]; apply ret_inv in H as [-> [= ->]]; (split; [|done]).
  - split; [done|]. by intros [|].
  - split; [done|]. by intros [|].
  - rewrite orb_true_iff, !bool_decide_eq_true. split.
    + intros [->| ->]; [by left|by right].
    + intros [[= ->]|[= ->]]; [by left|by right].
Qed.

(** X6.  A call of [prompt_user] that returns has read exactly five
    console lines, in order: a number of centimetres, returned times ten;
    an integer literal, returned as the frame interval (a line with a
    fractional part is rejected); a number, returned as the desired
    interval; and two answers that count as yes exactly when they read
    [y] or [Y].  It prompted five times and bound no global name. *)
Theorem prompt_user_reads_five_lines (w w' : world) (max_depth_mm : Qc)
    (frame_interval : Z) (desired_interval : Qc)
    (use_multiple_lines enable_visualizations : bool) :
  prompt_user w = (w', Ok (max_depth_mm, frame_interval, desired_interval,
                           use_multiple_lines, enable_visualizations)) →
  ∃ l1 l3 l4 l5 max_depth_cm,
    stdin w = l1 :: LInt frame_interval :: l3 :: l4 :: l5 :: stdin w' ∧
    parses_as_float l1 max_depth_cm ∧
    max_depth_mm = (max_depth_cm * Qc_of_Z 10)%Qc ∧
    parses_as_float l3 desired_interval ∧
    (use_multiple_lines = true ↔ answers_yes l4) ∧
    (enable_visualizations = true ↔ answers_yes l5) ∧
    trace w' = trace w ++ replicate 5 ConsolePrompt ∧
    globals w' = globals w.
Proof.
  unfold prompt_user. cbv zeta. intros H.
  apply bind_ok_inv in H as (w1 & cm & H1 & H).
  apply input_float_ok_inv in H1 as (l1 & Hl1 & Hs1 & Ht1 & Hg1).
  apply bind_ok_inv in H as (w2 & fi & H2 & H).
  apply input_int_ok_inv in H2 as (Hs2 & Ht2 & Hg2).
  apply bind_ok_inv in H as (w3 & di & H3 & H).
  apply input_float_ok_inv in H3 as (l3 & Hl3 & Hs3 & Ht3 & Hg3).
  apply bind_ok_inv in H as (w4 & uml & H4 & H).
  apply input_yes_ok_inv in H4 as (l4 & Hl4 & Hs4 & Ht4 & Hg4).
  apply bind_ok_inv in H as (w5 & ev & H5 & H).
  apply input_yes_ok_inv in H5 as (l5 & Hl5 & Hs5 & Ht5 & Hg5).
  apply ret_inv in H as [-> [= -> -> -> -> ->]].
  exists l1, l3, l4, l5, cm. split_and!; [|done..| |congruence].
  - by rewrite Hs1, Hs2, Hs3, Hs4, Hs5.
  - rewrite Ht5, Ht4, Ht3, Ht2, Ht1, <- !app_assoc. reflexivity.
Qed.

(** ** Events *)

Create HintDb emits discriminated.

Lemma emits_nothing {A} (P : event → Prop) (m : M A) :
  (∀ w w' r, m w = (w', r) → trace w' = trace w) → emits P m.
Proof.
  intros H w w' r Hm. exists []. rewrite app_nil_r. split; [by eapply H|constructor].
Qed.

Lemma emits_ret {A} P (a : A) : emits P (mret a).
Proof. apply emits_nothing. intros w w' r. by inversion 1. Qed.

Lemma emits_raise {A} P (e : exn) : emits P (raise (A := A) e).
Proof. apply emits_nothing. intros w w' r. by inversion 1. Qed.

Lemma emits_lift {A} P (x : result A) : emits P (lift x).
Proof. apply emits_nothing. intros w w' r. by inversion 1. Qed.

Lemma emits_get_global P name : emits P (get_global name).
Proof.
  apply emits_nothing. intros w w' r. unfold get_global.
  destruct (globals w !! name); by inversion 1.
Qed.

Lemma emits_emit (P : event → Prop) ev : P ev → emits P (emit ev).
Proof.
  intros Hev w w' r. inversion 1; subst. simpl. exists [ev]. split; [done|by constructor].
Qed.

Lemma emits_input (P : event → Prop) : P ConsolePrompt → emits P input.
Proof.
  intros HP w w' r. unfold input. destruct (stdin w); inversion 1; subst; simpl.
  - exists []. rewrite app_nil_r. split; [done|constructor].
  - exists [ConsolePrompt]. split; [done|by constructor].
Qed.

Lemma emits_bind {A B} P (m : M A) (f : A → M B) :
  emits P m → (∀ a, emits P (f a)) → emits P (m ≫= f).
Proof.
  intros Hm Hf w w' r H.
  apply bind_inv in H as [(w1 & a & H1 & H2)|(e & H1 & _)].
  - apply Hm in H1 as (t1 & Ht1 & Hp1). apply Hf in H2 as (t2 & Ht2 & Hp2).
    exists (t1 ++ t2). split; [by rewrite Ht2, Ht1, app_assoc|by apply Forall_app].
  - by apply Hm in H1.
Qed.

Lemma emits_if {A} P (b : bool) (m1 m2 : M A) :
  emits P m1 → emits P m2 → emits P (if b then m1 else m2).
Proof. by destruct b. Qed.

#[global] Hint Resolve emits_ret emits_raise emits_lift emits_get_global emits_if : emits.

Ltac emits_step :=
  first
    [ apply emits_bind; [|intros ?]
    | match goal with
      | |- emits _ (match ?x with _ => _ end) => destruct x
      end
    | solve [auto with emits]
    | apply emits_emit; exact I
    | apply emits_input; exact I ].

Ltac emits_all := repeat emits_step.

Lemma emits_input_float : emits analysis_event input_float.
Proof. unfold input_float. emits_all. Qed.

Lemma emits_visualize_frame title : emits analysis_event (visualize_frame title).
Proof. unfold visualize_frame. emits_all. Qed.

#[global] Hint Resolve emits_input_float emits_visualize_frame : emits.

Lemma emits_visualize_vertical_lines : emits analysis_event visualize_vertical_lines.
Proof. unfold visualize_vertical_lines. emits_all. Qed.

Lemma emits_visualize_intensity_profiles vertical_lines :
  emits analysis_event (visualize_intensity_profiles vertical_lines).
Proof. unfold visualize_intensity_profiles. emits_all. Qed.

Lemma emits_visualize_intensity_profile vertical_lines line_thicknesses depth :
  emits analysis_event (visualize_intensity_profile vertical_lines line_thicknesses depth).
Proof. unfold visualize_intensity_profile. emits_all. Qed.

Lemma emits_video_read video frame_num : emits analysis_event (video_read video frame_num).
Proof. unfold video_read. emits_all. Qed.

#[global] Hint Resolve emits_visualize_vertical_lines emits_visualize_intensity_profiles
  emits_visualize_intensity_profile emits_video_read : emits.

Lemma emits_exclusion_prompt_loop pending height d :
  emits analysis_event (exclusion_prompt_loop pending height d).
Proof.
  revert d. induction pending as [|n IH]; intros d; simpl.
  - emits_all.
  - apply emits_if; [|auto with emits]. apply emits_bind; [auto with emits|done].
Qed.

Lemma prompts_are_analysis_events t : prompts_only t → Forall analysis_event t.
Proof. intros H. eapply Forall_impl; [exact H|]. by intros ev ->. Qed.

Lemma no_csv_among_analysis_events t rows :
  Forall analysis_event t → CsvWritten rows ∉ t.
Proof. intros Hall Hin. by apply (proj1 (Forall_forall _ _) Hall) in Hin. Qed.

(** ** Stepping through a computation *)

Lemma get_global_ok_inv name w w' v :
  get_global name w = (w', Ok v) → w' = w ∧ globals w !! name = Some v.
Proof. unfold get_global. destruct (globals w !! name) eqn:E; by inversion 1. Qed.

Lemma result_bind_ok {A B} (a : A) (f : A → result B) : (Ok a ≫= f) = f a.
Proof. reflexivity. Qed.

Lemma step_lift {A B} (x : result A) (f : A → M B) (w : world) :
  (lift x ≫= f) w = match x with Ok a => f a w | Err e => (w, Err e) end.
Proof. by destruct x. Qed.

Lemma step_bind {A B} (m : M A) (f : A → M B) (w w1 : world) (x : result A) :
  m w = (w1, x) →
  (m ≫= f) w = match x with Ok a => f a w1 | Err e => (w1, Err e) end.
Proof. intros H. unfold mbind, M_bind. rewrite H. by destruct x. Qed.

(** A hook call guarded by the flag is skipped when the flag is off. *)
Lemma step_flag_off {A} (hook : M ()) (k : () → M A) (w : world) (ev : pyval) :
  globals w !! "enable_visualizations" = Some ev → truthy ev = false →
  (get_global "enable_visualizations"
     ≫= λ ev, (if truthy ev then hook else mret ()) ≫= k) w = k () w.
Proof.
  intros Hev Hf. unfold mbind at 1, M_bind at 1, get_global. rewrite Hev, Hf. reflexivity.
Qed.

(** ** Arithmetic of the series *)

Lemma py_range_backwards stop step : step < 0 → 0 ≤ stop → py_range 0 stop step = [].
Proof.
  intros Hstep Hstop. unfold py_range, py_range_len.
  assert ((0 <? step) = false) as -> by (apply Z.ltb_ge; lia).
  assert ((0 - stop - step - 1) / - step < 1) by (apply Z.div_lt_upper_bound; lia).
  replace (Z.to_nat _) with 0%nat by lia. done.
Qed.

Lemma Qc_of_Z_neq_0 z : z ≠ 0 → Qc_of_Z z ≠ 0%Qc.
Proof. intros Hz H. by apply Hz, Qc_of_Z_eq_0. Qed.

(** Truncation keeps a float of [[0, h]] in [[0, h]]. *)
Lemma py_int_range (d : Qc) (h : Z) :
  (0 ≤ d)%Qc → (d ≤ Qc_of_Z h)%Qc → 0 ≤ py_int d ≤ h.
Proof.
  unfold Qcle, Qle, py_int. destruct d as [[n den] Hc]. simpl.
  intros H0 Hh. rewrite Z.mul_1_r in *.
  assert (0 ≤ n) by lia.
  rewrite Z.quot_div_nonneg by lia. split.
  - apply Z.div_pos; lia.
  - apply Z.div_le_upper_bound; lia.
Qed.

Lemma sum_Z_le (l : list Z) (B : Z) :
  Forall (λ t, t ≤ B) l → sum_Z l ≤ B * Z.of_nat (length l).
Proof. induction 1 as [|t l Ht _ IH]; simpl sum_Z; simpl length; lia. Qed.

Lemma average_le (l : list Z) (B : Z) :
  l ≠ [] → Forall (λ t, t ≤ B) l → (average l ≤ Qc_of_Z B)%Qc.
Proof.
  intros Hne Hall. unfold average, Qcdiv.
  assert (0 < Z.of_nat (length l)) as Hn by (destruct l; [done|simpl; lia]).
  apply (Qcmult_lt_0_le_reg_r _ _ (Qc_of_Z (Z.of_nat (length l)))); [by apply Qc_of_Z_pos|].
  rewrite <- Qcmult_assoc, (Qcmult_comm (/ _)), Qcmult_inv_r, Qcmult_1_r
    by (apply Qc_of_Z_neq_0; lia).
  rewrite <- Z2Qc_inj_mul. apply (proj1 (Z2Qc_inj_le _ _)). by apply sum_Z_le.
Qed.

(** ** Masking *)

Lemma zero_top_rows_height img top :
  length (img_rows (zero_top_rows img top)) = length (img_rows img).
Proof. unfold zero_top_rows. simpl. apply length_imap. Qed.

Lemma profile_of_masked img top x :
  0 ≤ top → img_height img ≤ top →
  Forall (λ v, v = 0) (profile_of (zero_top_rows img top) x).
Proof.
  intros Htop Hh. unfold profile_of, zero_top_rows, slice_stop. cbn [img_rows].
  assert ((top <? 0) = false) as -> by (apply Z.ltb_ge; lia).
  rewrite Z.min_r by done. unfold img_height. rewrite Nat2Z.id.
  apply Forall_fmap, Forall_lookup. intros i row Hi. simpl.
  rewrite list_lookup_imap in Hi.
  destruct (img_rows img !! i) as [row0|] eqn:E; [|done]. simpl in Hi.
  apply lookup_lt_Some in E. rewrite bool_decide_eq_true_2 in Hi by done.
  injection Hi as <-. rewrite list_lookup_fmap.
  by destruct (row0 !! Z.to_nat x).
Qed.

(** ** The exclusion prompt *)

Lemma exclusion_prompt_loop_range pending height d w w' d' :
  exclusion_prompt_loop pending height d w = (w', Ok d') →
  (0 ≤ d')%Qc ∧ (d' ≤ Qc_of_Z height)%Qc.
Proof.
  revert d w. induction pending as [|n IH]; intros d w; simpl;
    destruct (Qc_ltb d 0 || Qc_ltb (Qc_of_Z height) d) eqn:E.
  - inversion 1.
  - intros H. apply ret_inv in H as [_ [= <-]].
    apply orb_false_iff in E as [E1 E2].
    split; apply Qcnot_lt_le; intros Hlt; apply Qc_ltb_true in Hlt; congruence.
  - intros H. apply bind_ok_inv in H as (w1 & d1 & _ & H). by eapply IH.
  - intros H. apply ret_inv in H as [_ [= <-]].
    apply orb_false_iff in E as [E1 E2].
    split; apply Qcnot_lt_le; intros Hlt; apply Qc_ltb_true in Hlt; congruence.
Qed.

(** With the visualisations on and no global [max_depth], the overlay of
    the measured thicknesses always raises. *)
Lemma visualize_intensity_profile_raises vertical_lines line_thicknesses depth w ev :
  globals w !! "enable_visualizations" = Some ev → truthy ev = true →
  globals w !! "max_depth" = None →
  visualize_intensity_profile vertical_lines line_thicknesses depth w =
    (w, Err (if bool_decide (length line_thicknesses < length vertical_lines)%nat
             then IndexError else NameError "max_depth")).
Proof.
  intros Hev Ht Hmd. unfold visualize_intensity_profile.
  unfold mbind at 1, M_bind at 1, get_global. rewrite Hev, Ht.
  case_bool_decide; [reflexivity|].
  unfold mbind, M_bind, mret, M_ret, get_global. by rewrite Hmd.
Qed.

(** A frame loop none of whose iterations can append leaves the lists
    as they were. *)
Lemma frame_loop_no_entry (body : Z → M (option (Qc * Qc))) (g : gmap string pyval) :
  (∀ f w w' r, globals w = g → body f w = (w', r) →
     globals w' = g ∧ ∀ x, r ≠ Ok (Some x)) →
  ∀ frame_nums depths thicknesses w w' depths' thicknesses',
    globals w = g →
    frame_loop body frame_nums depths thicknesses w = (w', Ok (depths', thicknesses')) →
    depths' = depths ∧ thicknesses' = thicknesses.
Proof.
  intros Hbody. induction frame_nums as [|f rest IH]; intros ds ts w w' ds' ts' Hg H;
    simpl in H.
  - by apply ret_inv in H as [_ [= -> ->]].
  - apply bind_ok_inv in H as (w1 & r & Hb & H).
    apply (Hbody _ _ _ _ Hg) in Hb as [Hg1 Hr].
    destruct r as [x|]; [by destruct (Hr x)|]. by eapply IH.
Qed.

Section FurtherAnalysis.
Context `{cv : OpenCV}.

(** *** Events of the analysis *)

Lemma emits_preprocess_frame f : emits analysis_event (preprocess_frame f).
Proof. unfold preprocess_frame. emits_all. Qed.

Lemma emits_exclusion_zone_block video top :
  emits analysis_event (exclusion_zone_block video top).
Proof.
  unfold exclusion_zone_block.
  apply emits_bind; [auto with emits|]. intros uz. apply emits_if; [|emits_all].
  apply emits_bind; [auto with emits|]. intros [f|]; [|auto with emits].
  apply emits_bind; [auto with emits|]. intros [].
  apply emits_bind; [auto with emits|]. intros d0.
  apply emits_bind; [|intros d; emits_all].
  intros w w' r H. by apply emits_exclusion_prompt_loop in H.
Qed.

Lemma emits_frame_body video num_lines threshold lsp top depth_increment frame_num :
  emits analysis_event
    (frame_body video num_lines threshold lsp top depth_increment frame_num).
Proof.
  pose proof emits_preprocess_frame.
  unfold frame_body. emits_all.
Qed.

Lemma emits_frame_loop P body frame_nums depths thicknesses :
  (∀ f, emits P (body f)) →
  emits P (frame_loop body frame_nums depths thicknesses).
Proof.
  intros Hbody. revert depths thicknesses.
  induction frame_nums as [|f rest IH]; intros ds ts; simpl; [auto with emits|].
  apply emits_bind; [done|]. intros [[d t]|]; apply IH.
Qed.

(** [analyze_video] writes no file. *)
Lemma emits_analyze_video video frame_interval max_depth num_lines threshold lsp top :
  emits analysis_event
    (analyze_video video frame_interval max_depth num_lines threshold lsp top).
Proof.
  unfold analyze_video.
  apply emits_bind; [apply emits_exclusion_zone_block|]. intros [top' tp].
  apply emits_bind; [auto with emits|]. intros inc.
  apply emits_bind; [emits_all|]. intros [].
  apply emits_bind; [|intros [ds ts]; emits_all].
  apply emits_frame_loop. intros f. apply emits_frame_body.
Qed.

(** *** The frame loop without the visualisations *)

Lemma preprocess_frame_quiet f w ev :
  globals w !! "enable_visualizations" = Some ev → truthy ev = false →
  preprocess_frame f w = (w, GaussianBlur (cvtColor_BGR2GRAY f) (1, 1) 0%Qc).
Proof.
  intros Hev Hf. unfold preprocess_frame. cbv zeta. rewrite step_lift.
  destruct (GaussianBlur _ _ _) as [pre|e]; [|done].
  by rewrite (step_flag_off _ _ w ev).
Qed.

(** With the visualisations off, one iteration of the frame loop is the
    measurement of the frame and the event of reading it. *)
Lemma frame_body_quiet video num_lines threshold lsp top depth_increment frame_num w ev :
  globals w !! "enable_visualizations" = Some ev → truthy ev = false →
  frame_body video num_lines threshold lsp top depth_increment frame_num w =
    (World (globals w) (stdin w) (trace w ++ [read_event video frame_num]),
     frame_measurement video num_lines threshold lsp top depth_increment frame_num).
Proof.
  intros Hev Hf.
  unfold frame_body, frame_measurement.
  rewrite (step_bind _ _ w
             (World (globals w) (stdin w) (trace w ++ [read_event video frame_num]))
             (Ok (frames video frame_num))) by done.
  set (W := World _ _ _).
  assert (globals W !! "enable_visualizations" = Some ev) as HW by done.
  destruct (frames video frame_num) as [f|]; [|reflexivity].
  rewrite (step_flag_off _ _ W ev) by done.
  rewrite (step_bind _ _ W W _ (preprocess_frame_quiet f W ev HW Hf)).
  destruct (GaussianBlur _ _ _) as [pre|e]; [|reflexivity].
  rewrite result_bind_ok, step_lift.
  destruct (extract_vertical_lines _ _ _) as [lines|e]; [|reflexivity].
  rewrite result_bind_ok, (step_flag_off _ _ W ev), step_lift by done.
  destruct (thickness_loop _ _ _) as [lts|e]; [|reflexivity].
  rewrite result_bind_ok.
  case_bool_decide; [reflexivity|].
  by rewrite (step_flag_off _ _ W ev).
Qed.

Lemma frame_loop_quiet video num_lines threshold lsp top inc frame_nums :
  ∀ depths thicknesses w w' depths' thicknesses' ev,
    globals w !! "enable_visualizations" = Some ev → truthy ev = false →
    frame_loop (frame_body video num_lines threshold lsp top inc) frame_nums
      depths thicknesses w = (w', Ok (depths', thicknesses')) →
    trace w' = trace w ++ (read_event video <$> frame_nums) ∧
    stdin w' = stdin w ∧ globals w' = globals w.
Proof.
  induction frame_nums as [|f rest IH]; intros ds ts w w' ds' ts' ev Hev Hf H; simpl in H.
  - apply ret_inv in H as [-> _]. by rewrite app_nil_r.
  - apply bind_ok_inv in H as (w1 & r & Hb & H).
    rewrite (frame_body_quiet _ _ _ _ _ _ _ w ev Hev Hf) in Hb.
    injection Hb as <- _.
    assert (∀ ds1 ts1, frame_loop (frame_body video num_lines threshold lsp top inc) rest
              ds1 ts1 (World (globals w) (stdin w) (trace w ++ [read_event video f])) =
              (w', Ok (ds', ts')) →
            trace w' = trace w ++ (read_event video <$> f :: rest) ∧
            stdin w' = stdin w ∧ globals w' = globals w) as Hrest.
    { intros ds1 ts1 H1. apply (IH _ _ _ _ _ _ ev) in H1 as (Ht & Hs & Hg); [|done..].
      simpl in *. by rewrite Ht, <- app_assoc. }
    destruct r as [[d t]|]; by eapply Hrest.
Qed.

(** A failed read ends the iteration at once. *)
Lemma frame_body_unreadable video num_lines threshold lsp top inc frame_num w :
  frames video frame_num = None →
  frame_body video num_lines threshold lsp top inc frame_num w =
    (World (globals w) (stdin w) (trace w ++ [read_event video frame_num]), Ok None).
Proof.
  intros Hf. unfold frame_body, video_read, read_event. cbv zeta.
  rewrite Hf. reflexivity.
Qed.

(** X7.  With the exclusion zone and the visualisations off, a call of
    [analyze_video] that returns has read the frames
    [0, frame_interval, 2·frame_interval, …] below the frame count, each
    once and in that order, and has done nothing else that is observable:
    no prompt, no window, no file, and the console is left as it was. *)
Theorem analyze_video_reads_sampled_frames (video : video_source) (frame_interval : Z)
    (max_depth : Qc) (num_lines : Z) (threshold lsp : Qc) (top : Z) (w w' : world)
    (uz ev : pyval) (h : Z) (depths thicknesses : list Qc) (total_pixels : Z) :
  globals w !! "use_exclusion_zone" = Some uz → truthy uz = false →
  globals w !! "enable_visualizations" = Some ev → truthy ev = false →
  globals w !! "frame_height" = Some (VInt h) →
  analyze_video video frame_interval max_depth num_lines threshold lsp top w =
    (w', Ok (depths, thicknesses, total_pixels)) →
  trace w' = trace w ++
    (read_event video <$> py_range 0 (frame_count video) frame_interval) ∧
  stdin w' = stdin w.
Proof.
  intros Huz Hfz Hev Hfe Hfh H. unfold analyze_video in H.
  rewrite (step_bind _ _ w w _ (exclusion_zone_block_disabled video top w uz h Huz Hfz Hfh))
    in H.
  apply bind_ok_inv in H as (w2 & inc & Hinc & H).
  unfold lift in Hinc. injection Hinc as <- _.
  apply bind_ok_inv in H as (w3 & [] & Hz & H).
  destruct (frame_interval =? 0); [done|]. apply ret_inv in Hz as [-> _].
  apply bind_ok_inv in H as (w4 & [ds ts] & Hloop & H).
  apply ret_inv in H as [-> _].
  apply (frame_loop_quiet _ _ _ _ _ _ _ _ _ _ _ _ _ ev) in Hloop as (Ht & Hs & _); done.
Qed.

(** X8.  With the exclusion zone off and a video that has frames, a
    frame interval of zero makes [analyze_video] raise [ValueError] (the
    [range] step), and a negative one makes it return at once with an
    empty series and the frame height as pixel count; either way no
    frame is read and nothing is shown or asked. *)
Theorem analyze_video_nonpositive_stride (video : video_source) (frame_interval : Z)
    (max_depth : Qc) (num_lines : Z) (threshold lsp : Qc) (top : Z) (w : world)
    (uz : pyval) (h : Z) :
  globals w !! "use_exclusion_zone" = Some uz → truthy uz = false →
  globals w !! "frame_height" = Some (VInt h) →
  0 < frame_count video → frame_interval ≤ 0 →
  analyze_video video frame_interval max_depth num_lines threshold lsp top w =
    (w, if frame_interval =? 0 then Err ValueError else Ok ([], [], h)).
Proof.
  intros Huz Hfz Hfh Hfc Hfi. unfold analyze_video.
  rewrite (step_bind _ _ w w _ (exclusion_zone_block_disabled video top w uz h Huz Hfz Hfh)).
  rewrite step_lift. unfold py_div.
  rewrite bool_decide_eq_false_2 by (apply Qc_of_Z_neq_0; lia).
  destruct (Z.eqb_spec frame_interval 0) as [->|Hnz]; [reflexivity|].
  rewrite py_range_backwards by lia. reflexivity.
Qed.

(** X9.  With the exclusion zone on, a first frame that cannot be read
    makes every call of [analyze_video] end in an exception: the block
    that binds [total_pixels] is skipped without a message.  When no
    frame at all can be read (and the frame count and the interval are
    not zero) the loop runs to its end and the exception is the
    [UnboundLocalError] of the [return] statement. *)
Theorem analyze_video_unreadable_first_frame (video : video_source) (frame_interval : Z)
    (max_depth : Qc) (num_lines : Z) (threshold lsp : Qc) (top : Z) (w w' : world)
    (uz : pyval) (r : result (list Qc * list Qc * Z)) :
  globals w !! "use_exclusion_zone" = Some uz → truthy uz = true →
  frames video 0 = None →
  analyze_video video frame_interval max_depth num_lines threshold lsp top w = (w', r) →
  (∃ e, r = Err e) ∧
  ((∀ f, frames video f = None) → frame_count video ≠ 0 → frame_interval ≠ 0 →
   r = Err (UnboundLocalError "total_pixels")).
Proof.
  intros Huz Htz Hf0 H.
  assert (exclusion_zone_block video top w =
            (World (globals w) (stdin w) (trace w ++ [read_event video 0]),
             Ok (top, None))) as Hblock.
  { unfold exclusion_zone_block, read_event. cbv zeta.
    unfold mbind at 1, M_bind at 1, get_global. rewrite Huz, Htz.
    unfold video_read, mbind, M_bind, emit. rewrite Hf0. reflexivity. }
  unfold analyze_video in H. rewrite (step_bind _ _ _ _ _ Hblock) in H.
  set (W := World _ _ _) in *. split.
  - destruct r as [x|e]; [|by eexists]. exfalso.
    apply bind_ok_inv in H as (w2 & inc & _ & H).
    apply bind_ok_inv in H as (w3 & [] & _ & H).
    apply bind_ok_inv in H as (w4 & [ds ts] & _ & H). inversion H.
  - intros Hall Hfc Hfi. rewrite step_lift in H. unfold py_div in H.
    rewrite bool_decide_eq_false_2 in H by by apply Qc_of_Z_neq_0.
    assert ((frame_interval =? 0) = false) as E by by apply Z.eqb_neq. rewrite E in H.
    assert (∀ fs w0, ∃ w1,
      frame_loop (frame_body video num_lines threshold lsp top
                    (max_depth / Qc_of_Z (frame_count video))) fs [] [] w0 =
        (w1, Ok ([], []))) as Hloop.
    { induction fs as [|f fs IH]; intros w0; simpl; [by eexists|].
      rewrite (step_bind _ _ _ _ _ (frame_body_unreadable _ _ _ _ _ _ f w0 (Hall f))).
      apply IH. }
    destruct (Hloop (py_range 0 (frame_count video) frame_interval) W) as [w1 Hw1].
    unfold mbind at 1, M_bind at 1, mret at 1, M_ret at 1 in H.
    rewrite (step_bind _ _ _ _ _ Hw1) in H. by injection H as _ <-.
Qed.

(** *** The exclusion zone and the pixel count *)

Lemma exclusion_zone_block_range video top w w' uz top' tp :
  globals w !! "use_exclusion_zone" = Some uz → truthy uz = true →
  exclusion_zone_block video top w = (w', Ok (top', Some tp)) →
  0 ≤ top' ≤ vid_height video ∧
  ∃ fh h, globals w !! "frame_height" = Some fh ∧ as_int fh = Ok h ∧ tp = h - top'.
Proof.
  intros Huz Htz H. unfold exclusion_zone_block in H. cbv zeta in H.
  apply bind_ok_inv in H as (w1 & uz' & Hg & H).
  apply get_global_ok_inv in Hg as [-> Hg]. rewrite Huz in Hg. injection Hg as <-.
  rewrite Htz in H.
  apply bind_ok_inv in H as (w2 & r & Hr & H).
  pose proof (keeps_video_read _ _ _ _ _ Hr) as Hg2.
  destruct r as [f|]; [|by apply ret_inv in H as [_ ?]].
  apply bind_ok_inv in H as (w3 & [] & Hv & H). apply keeps_visualize_frame in Hv as Hg3.
  apply bind_ok_inv in H as (w4 & d0 & Hd0 & H). apply keeps_input_float in Hd0 as Hg4.
  apply bind_ok_inv in H as (w5 & d & Hd & H).
  apply keeps_exclusion_prompt_loop in Hd as Hg5.
  apply exclusion_prompt_loop_range in Hd as [Hlo Hhi].
  apply bind_ok_inv in H as (w6 & [] & Hv' & H). apply keeps_visualize_frame in Hv' as Hg6.
  apply bind_ok_inv in H as (w7 & fh & Hfh & H).
  apply get_global_ok_inv in Hfh as [-> Hfh].
  apply bind_ok_inv in H as (w8 & h & Hh & H). apply lift_ok_inv in Hh.
  apply ret_inv in H as [_ [= Htop Htp]]. subst top' tp.
  split; [by apply py_int_range|].
  exists fh, h. split; [congruence|done].
Qed.

Lemma exclusion_zone_block_disabled_inv video top w w' uz top' tp :
  globals w !! "use_exclusion_zone" = Some uz → truthy uz = false →
  exclusion_zone_block video top w = (w', Ok (top', tp)) → w' = w ∧ top' = top.
Proof.
  intros Huz Hfz. unfold exclusion_zone_block. cbv zeta.
  unfold mbind at 1, M_bind at 1, get_global at 1. rewrite Huz, Hfz.
  intros H. apply bind_ok_inv in H as (w1 & fh & Hfh & H).
  apply get_global_ok_inv in Hfh as [-> _].
  apply bind_ok_inv in H as (w2 & h & Hl & H). unfold lift in Hl. injection Hl as <- _.
  apply ret_inv in H as [-> [= <- _]]. done.
Qed.

(** X10.  With the exclusion zone on, the pixel count a call of
    [analyze_video] returns lies between 0 and the frame height, whatever
    was typed: the prompt repeats until the depth is in range, and the
    depth is truncated toward zero.  The count 0 is not excluded. *)
Theorem analyze_video_usable_pixels (video : video_source) (frame_interval : Z)
    (max_depth : Qc) (num_lines : Z) (threshold lsp : Qc) (top : Z) (w w' : world)
    (uz : pyval) (depths thicknesses : list Qc) (total_pixels : Z) :
  globals w !! "use_exclusion_zone" = Some uz → truthy uz = true →
  globals w !! "frame_height" = Some (VInt (vid_height video)) →
  analyze_video video frame_interval max_depth num_lines threshold lsp top w =
    (w', Ok (depths, thicknesses, total_pixels)) →
  0 ≤ total_pixels ≤ vid_height video.
Proof.
  intros Huz Htz Hfh H. unfold analyze_video in H.
  apply bind_ok_inv in H as (w1 & [top' tp] & Hblock & H).
  apply bind_ok_inv in H as (w2 & inc & _ & H).
  apply bind_ok_inv in H as (w3 & [] & _ & H).
  apply bind_ok_inv in H as (w4 & [ds ts] & _ & H).
  destruct tp as [tp|]; [|inversion H]. apply ret_inv in H as [_ [= _ _ ->]].
  apply (exclusion_zone_block_range _ _ _ _ uz) in Hblock
    as (Htop & fh & h & Hfh' & Hh & ->); [|done..].
  rewrite Hfh in Hfh'. injection Hfh' as <-. injection Hh as <-. lia.
Qed.

(** *** Ranges of the series *)

(** X11.  For a positive frame interval and a positive maximum depth,
    every depth of the returned series lies in [[0, max_depth)]: the
    maximum depth itself is never recorded, since the last frame index is
    below the frame count. *)
Theorem analyze_video_depth_range (video : video_source) (frame_interval : Z)
    (max_depth : Qc) (num_lines : Z) (threshold lsp : Qc) (top : Z) (w w' : world)
    (depths thicknesses : list Qc) (total_pixels : Z) :
  0 < frame_interval → (0 < max_depth)%Qc →
  analyze_video video frame_interval max_depth num_lines threshold lsp top w =
    (w', Ok (depths, thicknesses, total_pixels)) →
  Forall (λ d, (0 ≤ d)%Qc ∧ (d < max_depth)%Qc) depths.
Proof.
  intros Hfi Hmd H.
  apply analyze_video_entries in H as (top' & entries & Hsub & -> & _ & HP).
  apply Forall_fmap, Forall_fmap, Forall_forall. intros [f [d t]] He. simpl.
  pose proof (proj1 (Forall_forall _ _) HP _ He) as [Hd _]. simpl in Hd. subst d.
  assert (f ∈ py_range 0 (frame_count video) frame_interval) as Hf.
  { eapply elem_of_sublist; [|exact Hsub].
    apply list_elem_of_fmap. eexists. split; [|exact He]. done. }
  apply elem_of_py_range in Hf as [[Hf0 Hffc] _]; [|done].
  assert (0 < Qc_of_Z (frame_count video))%Qc as Hfc by (apply Qc_of_Z_pos; lia).
  assert (0 < max_depth / Qc_of_Z (frame_count video))%Qc as Hinc.
  { unfold Qcdiv. apply Qcmult_pos_pos; [done|by apply Qcinv_pos]. }
  split.
  - apply Qcmult_nonneg_nonneg; [|by apply Qclt_le_weak].
    rewrite <- Z2Qc_inj_0. by apply (proj1 (Z2Qc_inj_le 0 f)).
  - replace max_depth with
      (Qc_of_Z (frame_count video) * (max_depth / Qc_of_Z (frame_count video)))%Qc at 2.
    + apply Qcmult_lt_mono_pos_r; [done|]. by apply (proj1 (Z2Qc_inj_lt _ _)).
    + unfold Qcdiv. rewrite (Qcmult_comm max_depth), Qcmult_assoc, Qcmult_inv_r.
      * apply Qcmult_1_l.
      * intros Hz. rewrite Hz in Hfc. by apply Qclt_not_eq in Hfc.
Qed.

Lemma GaussianBlur_height src ksize sigma img :
  GaussianBlur src ksize sigma = Ok img →
  length (img_rows img) = length (img_rows src).
Proof.
  unfold GaussianBlur. destruct ksize as [kw kh].
  destruct (_ && _); [|done]. intros [= <-]. simpl. apply length_imap.
Qed.

(** The widths behind an entry are those of columns of the masked
    frame, which has as many rows as the frame read. *)
Lemma measures_lines video num_lines threshold lsp top frame_num line_thicknesses :
  measures video num_lines threshold lsp top frame_num line_thicknesses →
  ∃ f pre ts,
    frames video frame_num = Some f ∧ img_height pre = img_height f ∧
    length ts = Z.to_nat num_lines ∧
    line_thicknesses = filter (λ t, 0 < t) ts ∧
    Forall (λ t, ∃ x, calculate_thickness (profile_of (zero_top_rows pre top) x) threshold
                        = Ok t) ts.
Proof.
  intros (f & pre & lines & ts & Hf & Hpre & Hlines & Hts & ->).
  exists f, pre, ts.
  unfold extract_vertical_lines in Hlines. rewrite lines_loop_spec in Hlines.
  cbv zeta in Hlines. destruct (forallb _ _); [|done]. injection Hlines as <-.
  simpl in Hts. split_and!; [done| | |done|].
  - unfold img_height. apply GaussianBlur_height in Hpre. rewrite Hpre. simpl.
    by rewrite length_map.
  - apply Forall2_length in Hts. by rewrite <- Hts, !length_map, length_py_range_1.
  - apply Forall2_fmap_l in Hts.
    apply Forall2_Forall_r with (Q := λ t, ∃ x,
      calculate_thickness (profile_of (zero_top_rows pre top) x) threshold = Ok t) in Hts;
      [done|].
    apply Forall_true. intros x t Ht. by eexists.
Qed.

(** X12.  No thickness of the returned series exceeds the frame height
    minus one, in pixels: on a video whose frames have at most [H] rows,
    every recorded mean width is at most [H - 1]. *)
Theorem analyze_video_thickness_upper_bound (video : video_source) (frame_interval : Z)
    (max_depth : Qc) (num_lines : Z) (threshold lsp : Qc) (top : Z) (H : Z) (w w' : world)
    (depths thicknesses : list Qc) (total_pixels : Z) :
  (∀ n f, frames video n = Some f → img_height f ≤ H) →
  analyze_video video frame_interval max_depth num_lines threshold lsp top w =
    (w', Ok (depths, thicknesses, total_pixels)) →
  Forall (λ t, (t ≤ Qc_of_Z (H - 1))%Qc) thicknesses.
Proof.
  intros Hh Ha.
  apply analyze_video_entries in Ha as (top' & entries & _ & _ & -> & Hall).
  apply Forall_fmap, Forall_fmap. eapply Forall_impl; [exact Hall|].
  intros [n [d t]] (_ & lts & Hm & Hne & Ht). simpl in *. subst t.
  apply measures_lines in Hm as (f & pre & ts & Hf & Hpre & _ & -> & Hts).
  apply average_le; [done|]. apply Forall_forall. intros t Ht.
  apply list_elem_of_filter in Ht as [_ Ht].
  apply (proj1 (Forall_forall _ _) Hts) in Ht as [x Ht].
  apply calculate_thickness_le in Ht.
  rewrite length_profile_of, zero_top_rows_height in Ht.
  specialize (Hh _ _ Hf). unfold img_height in *. lia.
Qed.

(** *** Runs without an entry *)

(** When no iteration can append, the returned series is empty. *)
Lemma analyze_video_no_entry video frame_interval max_depth num_lines threshold lsp top
    w w' depths thicknesses total_pixels :
  (∀ w1 top' tp inc f wa wb r,
     exclusion_zone_block video top w = (w1, Ok (top', tp)) →
     globals wa = globals w →
     frame_body video num_lines threshold lsp top' inc f wa = (wb, r) →
     ∀ x, r ≠ Ok (Some x)) →
  analyze_video video frame_interval max_depth num_lines threshold lsp top w =
    (w', Ok (depths, thicknesses, total_pixels)) →
  depths = [] ∧ thicknesses = [].
Proof.
  intros Hbody H. unfold analyze_video in H.
  apply bind_ok_inv in H as (w1 & [top' tp] & Hblock & H).
  apply keeps_exclusion_zone_block in Hblock as G1.
  apply bind_ok_inv in H as (w2 & inc & Hinc & H). apply keeps_lift in Hinc as G2.
  apply bind_ok_inv in H as (w3 & [] & Hz & H).
  assert (globals w3 = globals w2) as G3.
  { destruct (frame_interval =? 0); [by apply keeps_raise in Hz|by apply keeps_ret in Hz]. }
  apply bind_ok_inv in H as (w4 & [ds ts] & Hloop & H).
  destruct tp as [tp|]; [|inversion H]. apply ret_inv in H as [_ [= <- <- _]].
  eapply (frame_loop_no_entry _ (globals w)) in Hloop; [done| |congruence].
  intros f wa wb r Hga Hb. split.
  - apply keeps_frame_body in Hb. congruence.
  - by eapply Hbody.
Qed.

Lemma frame_body_masked video num_lines threshold lsp top inc frame_num w w' r :
  0 ≤ top → (∀ n f, frames video n = Some f → img_height f ≤ top) →
  frame_body video num_lines threshold lsp top inc frame_num w = (w', r) →
  ∀ x, r ≠ Ok (Some x).
Proof.
  intros Htop Hh Hb [d t] ->.
  apply frame_body_entry in Hb as (_ & lts & Hm & Hne & _).
  apply measures_lines in Hm as (f & pre & ts & Hf & Hpre & _ & -> & Hts).
  specialize (Hh _ _ Hf). rewrite <- Hpre in Hh.
  apply Hne. clear Hne. induction Hts as [|t0 ts0 [x Ht] _ IH]; [done|].
  apply calculate_thickness_zeros in Ht as ->; [|by apply profile_of_masked].
  by rewrite filter_cons, decide_False by lia.
Qed.

(** X13.  With the exclusion zone off, a value of [top_threshold_pixels]
    that is at least the height of every frame blanks the frames
    entirely, and a call that returns then returns an empty series: a
    blank profile is nowhere below its half maximum of zero, so no width
    is recorded. *)
Theorem analyze_video_fully_masked (video : video_source) (frame_interval : Z)
    (max_depth : Qc) (num_lines : Z) (threshold lsp : Qc) (top : Z) (w w' : world)
    (uz : pyval) (depths thicknesses : list Qc) (total_pixels : Z) :
  globals w !! "use_exclusion_zone" = Some uz → truthy uz = false →
  0 ≤ top → (∀ n f, frames video n = Some f → img_height f ≤ top) →
  analyze_video video frame_interval max_depth num_lines threshold lsp top w =
    (w', Ok (depths, thicknesses, total_pixels)) →
  depths = [] ∧ thicknesses = [].
Proof.
  intros Huz Hfz Htop Hh. apply analyze_video_no_entry.
  intros w1 top' tp inc f wa wb r Hblock _ Hb.
  apply (exclusion_zone_block_disabled_inv _ _ _ _ uz) in Hblock as [_ ->]; [|done..].
  by eapply frame_body_masked.
Qed.

(** X14.  A line count that is not positive samples no column: a call
    that returns then returns an empty series. *)
Theorem analyze_video_no_lines (video : video_source) (frame_interval : Z)
    (max_depth : Qc) (num_lines : Z) (threshold lsp : Qc) (top : Z) (w w' : world)
    (depths thicknesses : list Qc) (total_pixels : Z) :
  num_lines ≤ 0 →
  analyze_video video frame_interval max_depth num_lines threshold lsp top w =
    (w', Ok (depths, thicknesses, total_pixels)) →
  depths = [] ∧ thicknesses = [].
Proof.
  intros Hn. apply analyze_video_no_entry.
  intros w1 top' tp inc f wa wb r _ _ Hb [d t] ->.
  apply frame_body_entry in Hb as (_ & lts & Hm & Hne & _).
  apply measures_lines in Hm as (f0 & pre & ts & _ & _ & Hlen & -> & _).
  apply Hne. replace (Z.to_nat num_lines) with 0%nat in Hlen by lia.
  by apply nil_length_inv in Hlen as ->.
Qed.

Lemma frame_body_no_entry video num_lines threshold lsp top inc frame_num w w' r ev :
  globals w !! "enable_visualizations" = Some ev → truthy ev = true →
  globals w !! "max_depth" = None →
  frame_body video num_lines threshold lsp top inc frame_num w = (w', r) →
  ∀ x, r ≠ Ok (Some x).
Proof.
  intros Hev Ht Hmd H x ->. unfold frame_body in H.
  apply bind_ok_inv in H as (w1 & r & Hr & H). apply keeps_video_read in Hr as G1.
  destruct r as [f|]; [|by apply ret_inv in H as [_ ?]].
  apply bind_ok_inv in H as (w2 & ev1 & Hg & H). apply keeps_get_global in Hg as G2.
  apply bind_ok_inv in H as (w3 & [] & Hv & H).
  assert (globals w3 = globals w2) as G3.
  { destruct (truthy ev1); [by apply keeps_visualize_frame in Hv|by apply keeps_ret in Hv]. }
  apply bind_ok_inv in H as (w4 & pre & Hpre & H). apply keeps_preprocess_frame in Hpre as G4.
  apply bind_ok_inv in H as (w5 & lines & Hlines & H). apply keeps_lift in Hlines as G5.
  apply bind_ok_inv in H as (w6 & ev2 & Hg' & H). apply keeps_get_global in Hg' as G6.
  apply bind_ok_inv in H as (w7 & [] & Hv' & H).
  assert (globals w7 = globals w6) as G7.
  { destruct (truthy ev2); [|by apply keeps_ret in Hv'].
    apply bind_inv in Hv' as [(wa & [] & Ha & Hb)|(e & _ & ?)]; [|done].
    apply keeps_visualize_vertical_lines in Ha.
    apply keeps_visualize_intensity_profiles in Hb. congruence. }
  apply bind_ok_inv in H as (w8 & lts & Hlts & H). apply keeps_lift in Hlts as G8.
  case_bool_decide; [by apply ret_inv in H as [_ ?]|].
  apply bind_ok_inv in H as (w9 & ev3 & Hg'' & H).
  apply get_global_ok_inv in Hg'' as [-> Hg''].
  assert (globals w8 = globals w) as G by congruence.
  rewrite G, Hev in Hg''. injection Hg'' as <-. rewrite Ht in H.
  apply bind_ok_inv in H as (w10 & [] & Hviz & _).
  rewrite (visualize_intensity_profile_raises _ _ _ w8 ev) in Hviz by (rewrite ?G; done).
  discriminate.
Qed.

(** X15.  With the visualisations on and no global named [max_depth]
    (the script binds [max_depth_mm] only), a call of [analyze_video]
    that returns has recorded nothing: the overlay drawn after an entry
    is appended reads [line_thicknesses[i]] for every line and then the
    global [max_depth], and raises [IndexError] or [NameError]. *)
Theorem analyze_video_visualized_records_nothing (video : video_source)
    (frame_interval : Z) (max_depth : Qc) (num_lines : Z) (threshold lsp : Qc) (top : Z)
    (w w' : world) (ev : pyval) (depths thicknesses : list Qc) (total_pixels : Z) :
  globals w !! "enable_visualizations" = Some ev → truthy ev = true →
  globals w !! "max_depth" = None →
  analyze_video video frame_interval max_depth num_lines threshold lsp top w =
    (w', Ok (depths, thicknesses, total_pixels)) →
  depths = [] ∧ thicknesses = [].
Proof.
  intros Hev Ht Hmd. apply analyze_video_no_entry.
  intros w1 top' tp inc f wa wb r _ Hga Hb.
  eapply frame_body_no_entry; [| | |exact Hb]; rewrite ?Hga; done.
Qed.

(** *** The script *)

Lemma calibrate_and_export_visualizations max_depth_mm results w w' r :
  calibrate_and_export max_depth_mm results w = (w', r) →
  globals w' !! "enable_visualizations" = globals w !! "enable_visualizations".
Proof.
  destruct results as [[ds ts] tp].
  unfold calibrate_and_export. rewrite !step_set_global. cbn [globals stdin trace].
  unfold mbind at 1, M_bind at 1, lift, py_div.
  case_bool_decide as Hz.
  - intros [= <- <-]. cbn [globals stdin trace]. by rewrite !lookup_insert_ne by done.
  - rewrite !step_set_global, !step_emit. cbn [globals stdin trace].
    unfold emit. intros [= <- <-]. cbn [globals stdin trace].
    by rewrite !lookup_insert_ne by done.
Qed.

(** X16.  No partial output: a run of the script that ends in an
    exception has written neither the CSV file nor the log file; a run
    that completes has written the CSV file, shown the plot and written
    the log as its last three actions, and no file before them. *)
Theorem run_script_no_partial_output (video_path save_location : string)
    (video : video_source) (console : list console_line) (w' : world) (r : result ()) :
  run_script video_path save_location video console = (w', r) →
  match r with
  | Err _ => Forall analysis_event (trace w')
  | Ok _ =>
      ∃ t rows total_pixels max_depth_mm ratio,
        trace w' = t ++ [CsvWritten rows; FigureShown;
                         LogWritten total_pixels max_depth_mm ratio] ∧
        Forall analysis_event t
  end.
Proof.
  intros Hrun.
  apply main_script_cases in Hrun as [[Htr [(e & -> & _)|(-> & _)]]|Hcall];
    [by apply prompts_are_analysis_events..|].
  destruct Hcall as (w1 & md & fi & n & ev & [_ _ _ _ Htr] & H).
  apply prompts_are_analysis_events in Htr.
  apply bind_inv in H as [(w2 & [[ds ts] tp] & H1 & H2)|(e & H1 & ->)].
  - apply emits_analyze_video in H1 as (t1 & Ht1 & Hp1).
    apply calibrate_and_export_inv in H2 as [_ [(_ & -> & Ht)|(_ & -> & _ & Ht)]].
    + rewrite Ht, Ht1. by apply Forall_app.
    + cbv zeta in Ht. eexists _, _, _, _, _. split; [exact Ht|].
      rewrite Ht1. by apply Forall_app.
  - apply emits_analyze_video in H1 as (t1 & Ht1 & Hp1).
    rewrite Ht1. by apply Forall_app.
Qed.

(** X17.  A run of the script with the visualisations switched on
    exports no measurement: it either ends in an exception or writes a
    CSV file without a data row. *)
Theorem run_script_visualized_exports_nothing (video_path save_location : string)
    (video : video_source) (console : list console_line) (w' : world) (r : result ()) :
  run_script video_path save_location video console = (w', r) →
  globals w' !! "enable_visualizations" = Some (VBool true) →
  Forall (λ ev, ∀ rows, ev = CsvWritten rows → rows = []) (trace w').
Proof.
  intros Hrun Hev. apply Forall_forall. intros ev0 Hin rows ->.
  apply main_script_cases in Hrun as [[Htr _]|Hcall].
  { apply prompts_are_analysis_events in Htr.
    by destruct (no_csv_among_analysis_events _ rows Htr). }
  destruct Hcall as (w1 & md & fi & n & ev & [_ _ Hv Hmd Htr] & H).
  apply prompts_are_analysis_events in Htr.
  apply bind_inv in H as [(w2 & [[ds ts] tp] & H1 & H2)|(e & H1 & ->)].
  - apply keeps_analyze_video in H1 as Hg.
    apply calibrate_and_export_visualizations in H2 as Hg'.
    rewrite Hg', Hg, Hv in Hev. injection Hev as ->.
    apply emits_analyze_video in H1 as Hem. destruct Hem as (t1 & Ht1 & Hp1).
    assert (ds = [] ∧ ts = []) as [-> ->].
    { eapply analyze_video_no_entry; [|exact H1].
      intros w0 top' tp' inc f wa wb r0 _ Hga Hb.
      eapply (frame_body_no_entry _ _ _ _ _ _ _ _ _ _ (VBool true)); [| | |exact Hb];
        rewrite ?Hga; done. }
    assert (Forall analysis_event (trace w2)) as Hw2 by (rewrite Ht1; by apply Forall_app).
    apply calibrate_and_export_inv in H2 as [_ [(_ & _ & Ht)|(_ & _ & _ & Ht)]].
    + rewrite Ht in Hin. by destruct (no_csv_among_analysis_events _ rows Hw2).
    + cbv zeta in Ht. rewrite Ht in Hin. apply elem_of_app in Hin as [Hin|Hin].
      * by destruct (no_csv_among_analysis_events _ rows Hw2).
      * apply elem_of_cons in Hin as [Hin|Hin]; [by injection Hin as ->|].
        apply elem_of_cons in Hin as [Hin|Hin]; [discriminate|].
        apply elem_of_cons in Hin as [Hin|Hin]; [discriminate|].
        by apply elem_of_nil in Hin.
  - apply emits_analyze_video in H1 as (t1 & Ht1 & Hp1).
    assert (Forall analysis_event (trace w')) as Hw by (rewrite Ht1; by apply Forall_app).
    by destruct (no_csv_among_analysis_events _ rows Hw).
Qed.

End FurtherAnalysis.

(** ** The console during the analysis *)

Create HintDb stdin discriminated.

Lemma keeps_stdin_ret {A} (a : A) : keeps_stdin (mret a).
Proof. intros w w' r. by inversion 1. Qed.

Lemma keeps_stdin_raise {A} (e : exn) : keeps_stdin (raise (A := A) e).
Proof. intros w w' r. by inversion 1. Qed.

Lemma keeps_stdin_lift {A} (x : result A) : keeps_stdin (lift x).
Proof. intros w w' r. by inversion 1. Qed.

Lemma keeps_stdin_emit ev : keeps_stdin (emit ev).
Proof. intros w w' r. by inversion 1. Qed.

Lemma keeps_stdin_get_global name : keeps_stdin (get_global name).
Proof. intros w w' r. unfold get_global. destruct (globals w !! name); by inversion 1. Qed.

Lemma keeps_stdin_set_global name v : keeps_stdin (set_global name v).
Proof. intros w w' r. by inversion 1. Qed.

Lemma keeps_stdin_bind {A B} (m : M A) (f : A → M B) :
  keeps_stdin m → (∀ a, keeps_stdin (f a)) → keeps_stdin (m ≫= f).
Proof.
  intros Hm Hf w w' r H.
  apply bind_inv in H as [(w1 & a & H1 & H2)|(e & H1 & _)].
  - apply Hf in H2. apply Hm in H1. congruence.
  - by apply Hm in H1.
Qed.

Lemma keeps_stdin_if {A} (b : bool) (m1 m2 : M A) :
  keeps_stdin m1 → keeps_stdin m2 → keeps_stdin (if b then m1 else m2).
Proof. by destruct b. Qed.

#[global] Hint Resolve keeps_stdin_ret keeps_stdin_raise keeps_stdin_lift keeps_stdin_emit
  keeps_stdin_get_global keeps_stdin_set_global keeps_stdin_if : stdin.

Ltac keeps_stdin_step :=
  first
    [ apply keeps_stdin_bind; [|intros ?]
    | match goal with
      | |- keeps_stdin (match ?x with _ => _ end) => destruct x
      end
    | solve [auto with stdin] ].

Ltac keeps_stdin_all := repeat keeps_stdin_step.

Lemma keeps_stdin_visualize_frame title : keeps_stdin (visualize_frame title).
Proof. unfold visualize_frame. keeps_stdin_all. Qed.

#[global] Hint Resolve keeps_stdin_visualize_frame : stdin.

Lemma keeps_stdin_visualize_vertical_lines : keeps_stdin visualize_vertical_lines.
Proof. unfold visualize_vertical_lines. keeps_stdin_all. Qed.

Lemma keeps_stdin_visualize_intensity_profiles vertical_lines :
  keeps_stdin (visualize_intensity_profiles vertical_lines).
Proof. unfold visualize_intensity_profiles. keeps_stdin_all. Qed.

Lemma keeps_stdin_visualize_intensity_profile vertical_lines line_thicknesses depth :
  keeps_stdin (visualize_intensity_profile vertical_lines line_thicknesses depth).
Proof. unfold visualize_intensity_profile. keeps_stdin_all. Qed.

Lemma keeps_stdin_video_read video frame_num : keeps_stdin (video_read video frame_num).
Proof. unfold video_read. keeps_stdin_all. Qed.

#[global] Hint Resolve keeps_stdin_visualize_vertical_lines
  keeps_stdin_visualize_intensity_profiles keeps_stdin_visualize_intensity_profile
  keeps_stdin_video_read : stdin.

(** The statements after the call read no console line. *)
Lemma keeps_stdin_calibrate_and_export max_depth_mm results :
  keeps_stdin (calibrate_and_export max_depth_mm results).
Proof.
  destruct results as [[ds ts] tp]. unfold calibrate_and_export. keeps_stdin_all.
Qed.

(** The validation loop, by the lines it reads: started on a depth that
    line [l] parsed to, it ends on the first depth in range. *)
Lemma exclusion_prompt_loop_answers pending height :
  ∀ d l w w' d',
    parses_as_float l d →
    exclusion_prompt_loop pending height d w = (w', Ok d') →
    ∃ more rejected l',
      stdin w = more ++ stdin w' ∧
      l :: more = rejected ++ [l'] ∧
      Forall (λ l0, ∃ d0, parses_as_float l0 d0 ∧
                          ((d0 < 0)%Qc ∨ (Qc_of_Z height < d0)%Qc)) rejected ∧
      parses_as_float l' d' ∧ (0 ≤ d')%Qc ∧ (d' ≤ Qc_of_Z height)%Qc.
Proof.
  assert (∀ d l w w' d', parses_as_float l d →
            (Qc_ltb d 0 || Qc_ltb (Qc_of_Z height) d) = false →
            (mret d : M Qc) w = (w', Ok d') →
            ∃ more rejected l',
              stdin w = more ++ stdin w' ∧
              l :: more = rejected ++ [l'] ∧
              Forall (λ l0, ∃ d0, parses_as_float l0 d0 ∧
                                  ((d0 < 0)%Qc ∨ (Qc_of_Z height < d0)%Qc)) rejected ∧
              parses_as_float l' d' ∧ (0 ≤ d')%Qc ∧ (d' ≤ Qc_of_Z height)%Qc) as Hstop.
  { intros d l w w' d' Hl E H. apply ret_inv in H as [-> [= <-]].
    apply orb_false_iff in E as [E1 E2].
    exists [], [], l. split_and!; [done|done|constructor|done|..];
      apply Qcnot_lt_le; intros Hlt; apply Qc_ltb_true in Hlt; congruence. }
  induction pending as [|n IH]; intros d l w w' d' Hl; simpl;
    destruct (Qc_ltb d 0 || Qc_ltb (Qc_of_Z height) d) eqn:E;
    [inversion 1|by apply Hstop| |by apply Hstop].
  intros H. apply bind_ok_inv in H as (w1 & d1 & H1 & H).
  apply input_float_ok_inv in H1 as (l1 & Hl1 & Hs1 & _ & _).
  apply (IH _ l1) in H as (more & rejected & l' & Hs & Hsplit & Hrej & Hl' & Hlo & Hhi);
    [|done].
  exists (l1 :: more), (l :: rejected), l'.
  split_and!; [by rewrite Hs1, Hs|by rewrite Hsplit| |done..].
  constructor; [|done]. exists d. split; [done|].
  apply orb_true_iff in E as [E|E]; apply Qc_ltb_true in E; [by left|by right].
Qed.

Section CalibrationOfSeries.
Context `{cv : OpenCV}.

Lemma keeps_stdin_preprocess_frame f : keeps_stdin (preprocess_frame f).
Proof. unfold preprocess_frame. keeps_stdin_all. Qed.

Lemma keeps_stdin_frame_body video num_lines threshold lsp top depth_increment frame_num :
  keeps_stdin (frame_body video num_lines threshold lsp top depth_increment frame_num).
Proof.
  pose proof keeps_stdin_preprocess_frame.
  unfold frame_body. keeps_stdin_all.
Qed.

Lemma keeps_stdin_frame_loop body frame_nums depths thicknesses :
  (∀ f, keeps_stdin (body f)) →
  keeps_stdin (frame_loop body frame_nums depths thicknesses).
Proof.
  intros Hbody. revert depths thicknesses.
  induction frame_nums as [|f rest IH]; intros ds ts; simpl; [auto with stdin|].
  apply keeps_stdin_bind; [done|]. intros [[d t]|]; apply IH.
Qed.

(** The exclusion block with the zone on, by the console lines it
    reads. *)
Lemma exclusion_zone_block_answers video top0 w w1 uz h top tp :
  globals w !! "use_exclusion_zone" = Some uz → truthy uz = true →
  globals w !! "frame_height" = Some (VInt h) →
  exclusion_zone_block video top0 w = (w1, Ok (top, Some tp)) →
  ∃ answers,
    stdin w = answers ++ stdin w1 ∧
    exclusion_answers (vid_height video) answers top ∧
    tp = h - top.
Proof.
  intros Huz Htz Hh H. unfold exclusion_zone_block in H. cbv zeta in H.
  apply bind_ok_inv in H as (wa & uz' & Hg & H).
  apply get_global_ok_inv in Hg as [-> Hg]. rewrite Huz in Hg. injection Hg as <-.
  rewrite Htz in H.
  apply bind_ok_inv in H as (w2 & r & Hr & H).
  pose proof (keeps_video_read _ _ _ _ _ Hr) as Hg2.
  apply keeps_stdin_video_read in Hr as Hs2.
  destruct r as [f|]; [|by apply ret_inv in H as [_ ?]].
  apply bind_ok_inv in H as (w3 & [] & Hv & H).
  apply keeps_visualize_frame in Hv as Hg3. apply keeps_stdin_visualize_frame in Hv as Hs3.
  apply bind_ok_inv in H as (w4 & d0 & Hd0 & H).
  apply input_float_ok_inv in Hd0 as (l0 & Hl0 & Hs4 & _ & Hg4).
  apply bind_ok_inv in H as (w5 & d & Hd & H).
  apply keeps_exclusion_prompt_loop in Hd as Hg5.
  apply (exclusion_prompt_loop_answers _ _ _ l0) in Hd
    as (more & rejected & l' & Hs5 & Hsplit & Hrej & Hl' & Hlo & Hhi); [|done].
  apply bind_ok_inv in H as (w6 & [] & Hv' & H).
  apply keeps_visualize_frame in Hv' as Hg6.
  apply keeps_stdin_visualize_frame in Hv' as Hs6.
  apply bind_ok_inv in H as (w7 & fh & Hfh & H).
  apply get_global_ok_inv in Hfh as [-> Hfh].
  apply bind_ok_inv in H as (w8 & h' & Hh' & H).
  unfold lift in Hh'. injection Hh' as <- Hh'.
  apply ret_inv in H as [-> [= Htop Htp]]. subst top tp.
  assert (globals w6 = globals w) as G by congruence.
  rewrite G, Hh in Hfh. injection Hfh as <-. injection Hh' as <-.
  exists (l0 :: more). split_and!; [|by exists rejected, l', d|done].
  rewrite <- Hs2, <- Hs3, Hs4, Hs5, Hs6. done.
Qed.

(** A call of [analyze_video], by the exclusion block it started with;
    nothing after the block reads the console. *)
Lemma analyze_video_block video frame_interval max_depth num_lines threshold lsp top0
    w w2 depths thicknesses total_pixels :
  analyze_video video frame_interval max_depth num_lines threshold lsp top0 w =
    (w2, Ok (depths, thicknesses, total_pixels)) →
  ∃ w1 top,
    exclusion_zone_block video top0 w = (w1, Ok (top, Some total_pixels)) ∧
    stdin w2 = stdin w1.
Proof.
  unfold analyze_video. intros H.
  apply bind_ok_inv in H as (w1 & [top tp] & Hblock & H).
  apply bind_ok_inv in H as (wa & inc & Hinc & H). apply keeps_stdin_lift in Hinc as Hsa.
  apply bind_ok_inv in H as (wb & [] & Hz & H).
  assert (stdin wb = stdin wa) as Hsb.
  { destruct (frame_interval =? 0);
      [by apply keeps_stdin_raise in Hz|by apply keeps_stdin_ret in Hz]. }
  apply bind_ok_inv in H as (wc & [ds ts] & Hloop & H).
  apply keeps_stdin_frame_loop in Hloop as Hsc;
    [|intros f; apply keeps_stdin_frame_body].
  destruct tp as [tp|]; [|inversion H]. apply ret_inv in H as [-> [= _ _ ->]].
  exists w1, top. split; [done|congruence].
Qed.

(** The calibration after a direct call of [analyze_video]. *)
Lemma analyze_video_calibrated video frame_interval max_depth_mm num_lines top0
    (uz : bool) h w w' :
  globals w !! "use_exclusion_zone" = Some (VBool uz) →
  globals w !! "frame_height" = Some (VInt h) →
  (analyze_video video frame_interval max_depth_mm num_lines one_half one_tenth top0
     ≫= calibrate_and_export max_depth_mm) w = (w', Ok ()) →
  calibrated video frame_interval max_depth_mm num_lines top0 uz h w w'.
Proof.
  intros Huz Hh H.
  apply bind_ok_inv in H as (w2 & [[ds ts] tp] & Han & Hexp).
  apply keeps_stdin_calibrate_and_export in Hexp as Hs'.
  apply analyze_video_block in Han as Hblock. destruct Hblock as (w1 & top & Hblock & Hs2).
  assert (tp = (if uz then h - top else h) ∧
          ∃ answers, stdin w = answers ++ stdin w1 ∧
            (if uz then exclusion_answers (vid_height video) answers top
             else answers = [] ∧ top = top0)) as [-> (answers & Hans & Htop)].
  { destruct uz.
    - apply (exclusion_zone_block_answers _ _ _ _ (VBool true) h) in Hblock
        as (answers & Hs & Ha & ->); [|done..].
      split; [done|]. by exists answers.
    - rewrite (exclusion_zone_block_disabled video top0 w (VBool false) h) in Hblock
        by done.
      injection Hblock as <- <- <-. split; [done|]. by exists []. }
  assert (globals w' !! "total_pixels" = Some (VInt (if uz then h - top else h))) as Htp.
  { revert Hexp. unfold calibrate_and_export. rewrite !step_set_global.
    cbn [globals stdin trace]. unfold mbind at 1, M_bind at 1, lift, py_div.
    case_bool_decide; [done|].
    rewrite !step_set_global, !step_emit. cbn [globals stdin trace].
    unfold emit. intros [= <-]. cbn [globals stdin trace].
    rewrite !lookup_insert_ne by done. by rewrite lookup_insert_eq. }
  apply calibrate_and_export_inv in Hexp as [_ [(_ & He & _)|(Hnz & _ & Hg & Htr)]];
    [done|].
  exists w1, w2, ds, ts, top, answers. cbv zeta.
  split_and!; [done|done|congruence|done|done| |done|done|done|apply zip_scaled].
  unfold Qcdiv. rewrite <- Qcmult_assoc, Qcmult_inv_l; [apply Qcmult_1_r|].
  intros Hz. by apply Hnz, Qc_of_Z_eq_0.
Qed.

(** C3.  The calibration, for a direct call of [analyze_video] and for
    the script.  After a call that returns, in a namespace where
    [use_exclusion_zone] is [uz] and [frame_height] is [h],
    [total_pixels] is [h - top_threshold_pixels], where the offset is the
    truncation of the first depth in [[0, height]] typed at the exclusion
    prompt, and it is [h] when the zone is off; the statements after the
    call bind [pixel_to_mm_ratio] once, to [max_depth_mm / total_pixels],
    so that [ratio × total_pixels = max_depth_mm], and every CSV row
    holds, next to a thickness in pixels, that thickness multiplied by
    this ratio.  A run of the script that completes is such a call with
    the exclusion zone off, the offset 0 and [h] the frame height of the
    video. *)
Theorem calibration_ratio (video_path save_location : string) (video : video_source)
    (console : list console_line) (frame_interval : Z) (max_depth_mm : Qc)
    (num_lines top0 : Z) (uz : bool) (h : Z) (w w' ws' : world) :
  (globals w !! "use_exclusion_zone" = Some (VBool uz) →
   globals w !! "frame_height" = Some (VInt h) →
   (analyze_video video frame_interval max_depth_mm num_lines one_half one_tenth top0
      ≫= calibrate_and_export max_depth_mm) w = (w', Ok ()) →
   calibrated video frame_interval max_depth_mm num_lines top0 uz h w w') ∧
  (run_script video_path save_location video console = (ws', Ok ()) →
   ∃ (w1 : world) (max_depth_mm' : Qc) (frame_interval' num_lines' : Z),
     prompts_only (trace w1) ∧
     globals w1 !! "use_exclusion_zone" = Some (VBool false) ∧
     globals w1 !! "frame_height" = Some (VInt (vid_height video)) ∧
     calibrated video frame_interval' max_depth_mm' num_lines' 0 false (vid_height video)
       w1 ws').
Proof.
  split; [apply analyze_video_calibrated|].
  intros Hrun.
  apply main_script_cases in Hrun as [[_ [(e & He & _)|(He & _)]]|Hcall]; [done..|].
  destruct Hcall as (w1 & md & fi & n & ev & [H1 H2 H3 H4 H5] & H).
  exists w1, md, fi, n. split_and!; [done..|].
  by apply analyze_video_calibrated.
Qed.

End CalibrationOfSeries.

(** * Part V: the sample inputs *)

#[local] Existing Instance opencv_sample.

Lemma pair_of_snd {A B} (p : A * B) (b : B) : p.2 = b → p = (p.1, b).
Proof. destruct p. simpl. by intros ->. Qed.

(** Equality of computed rationals: by value, since the proof that a
    fraction is reduced depends on how it was computed. *)
Ltac qc_eq :=
  vm_compute;
  repeat first [ reflexivity | apply Qc_is_canon; reflexivity | f_equal ].

(** The sample video analysed frame by frame: entries for frames 0 and
    2, at depths 0 and 2 × 500 / 4, with widths 3 and 2 (the last pulse of
    frame 2). *)
Example analyze_sample_video :
  (analyze_video sample_video 1 (Q2Qc 500) 1 one_half one_tenth 0
     (analysis_world false [])).2 =
  Ok ([Qc_of_Z 0; Qc_of_Z 250], [Qc_of_Z 3; Qc_of_Z 2], 8).
Proof. qc_eq. Qed.

(** The events of a complete run of the script on the sample video. *)
Example run_sample_script_trace :
  trace (run_script "v" "s" sample_video sample_console).1 =
  replicate 6 ConsolePrompt ++
  [FrameRead 0 true; FrameRead 1 false; FrameRead 2 true; FrameRead 3 true;
   CsvWritten [(Qc_of_Z 0, Qc_of_Z 3, Q2Qc (375 # 2)); (Qc_of_Z 250, Qc_of_Z 2, Qc_of_Z 125)];
   FigureShown; LogWritten 8 (Qc_of_Z 500) (Q2Qc (125 # 2))].
Proof. qc_eq. Qed.

(** C4, as stated, fails: with the exclusion zone on and the answer 8 on
    frames 8 rows high, [analyze_video] raises nothing; it returns an
    empty series and [total_pixels = 0], on which the calibration then
    divides. *)
Lemma full_exclusion_not_rejected :
  let r := (analyze_video sample_video 1 (Q2Qc 500) 1 one_half one_tenth 0
              (analysis_world true [LInt 8])).2 in
  r = Ok ([], [], 0) ∧ ¬ fails_with "InvalidExclusionZone" r ∧
  py_div (Q2Qc 500) (Qc_of_Z 0) = Err ZeroDivisionError.
Proof.
  assert ((analyze_video sample_video 1 (Q2Qc 500) 1 one_half one_tenth 0
              (analysis_world true [LInt 8])).2 = Ok ([], [], 0)) as Hr
    by (vm_compute; reflexivity).
  cbv zeta. rewrite Hr. split; [done|]. split; [|by vm_compute].
  intros (e & He & _). discriminate.
Qed.

(** The answer 8 on the sample video, whose frames are 8 rows high. *)
Lemma exclusion_zone_full_height_witness :
  ∃ w', exclusion_zone_block sample_video 0 (analysis_world true [LInt 8]) =
          (w', Ok (vid_height sample_video, Some 0)) ∧
        stdin w' = [] ∧
        py_div (Q2Qc 500) (Qc_of_Z 0) = Err ZeroDivisionError.
Proof.
  apply (exclusion_zone_full_height sample_video 0 (analysis_world true [LInt 8])
           (VBool true) (VBool false)
           (column_frame 4 [0; 0; 200; 200; 200; 0; 0; 0]) (LInt 8) []);
    try reflexivity.
  - by left.
  - simpl. lia.
Defined.

(** C8, as stated, fails: on a video without frames the run ends with
    [ZeroDivisionError], not with an error of class [EmptySource]. *)
Lemma empty_video_raises_ZeroDivisionError :
  let r := (run_script "v" "s" empty_video sample_console).2 in
  r = Err ZeroDivisionError ∧ ¬ fails_with "EmptySource" r.
Proof.
  assert ((run_script "v" "s" empty_video sample_console).2 = Err ZeroDivisionError) as Hr
    by (vm_compute; reflexivity).
  cbv zeta. rewrite Hr. split; [done|].
  intros (e & [= <-] & Hc). discriminate.
Qed.

(** The sample answers on the video without frames. *)
Lemma run_script_no_frames_witness :
  let w' := (run_script "v" "s" empty_video sample_console).1 in
  let r : result () := Err ZeroDivisionError in
  (∃ e, r = Err e ∧
     (e = ZeroDivisionError ∨ e = NameError "top_threshold_pixels" ∨ console_error e)) ∧
  prompts_only (trace w') ∧
  (globals w' !! "use_exclusion_zone" = Some (VBool false) →
   (globals w' !! "use_multiple_lines" = Some (VBool true) →
    is_Some (globals w' !! "num_lines")) →
   r = Err ZeroDivisionError).
Proof.
  apply (run_script_no_frames "v" "s" empty_video sample_console).
  - reflexivity.
  - vm_compute. reflexivity.
Defined.

(** The sample answers with the exclusion zone requested. *)
Lemma run_script_exclusion_enabled_witness :
  let console := [LFloat (Q2Qc 50); LInt 1; LFloat 1%Qc; LText "n"; LText "n"; LText "y"] in
  let w' := (run_script "v" "s" sample_video console).1 in
  let r : result () := Err (NameError "top_threshold_pixels") in
  r = Err (NameError "top_threshold_pixels") ∧
  globals w' !! "top_threshold_pixels" = None ∧
  prompts_only (trace w').
Proof.
  apply (run_script_exclusion_enabled "v" "s" sample_video
           [LFloat (Q2Qc 50); LInt 1; LFloat 1%Qc; LText "n"; LText "n"; LText "y"]).
  - vm_compute. reflexivity.
  - vm_compute. reflexivity.
  - intros H. vm_compute in H. discriminate.
Defined.

(** The series of the sample video: frames 0 and 2 at depths 0 and 250. *)
Lemma analyze_video_depths_witness :
  let w := analysis_world false [] in
  let run := analyze_video sample_video 1 (Q2Qc 500) 1 one_half one_tenth 0 w in
  let depths := [Qc_of_Z 0; Qc_of_Z 250] in
  let thicknesses := [Qc_of_Z 3; Qc_of_Z 2] in
  ∃ (top : Z) (entry_frames : list Z),
    (∃ w1 tp, exclusion_zone_block sample_video 0 w = (w1, Ok (top, tp))) ∧
    entry_frames `sublist_of` py_range 0 (frame_count sample_video) 1 ∧
    (∀ f, f ∈ entry_frames ↔
          f ∈ py_range 0 (frame_count sample_video) 1 ∧
          yields_entry sample_video 1 one_half one_tenth top f) ∧
    Forall2 (λ f t, ∃ line_thicknesses,
        measures sample_video 1 one_half one_tenth top f line_thicknesses ∧
        line_thicknesses ≠ [] ∧ t = average line_thicknesses)
      entry_frames thicknesses ∧
    depths = depth_of sample_video (Q2Qc 500) <$> entry_frames ∧
    ((0 ≤ Q2Qc 500)%Qc → 0 < 1 →
     StronglySorted Z.lt entry_frames ∧ StronglySorted Qcle depths).
Proof.
  intros w run depths thicknesses.
  apply (analyze_video_depths sample_video 1 (Q2Qc 500) 1 one_half one_tenth 0 w
           run.1 depths thicknesses 8).
  apply pair_of_snd, analyze_sample_video.
Defined.

(** The statement pins the depths to the frames: on the sample video,
    whose entries come from frames 0 and 2, the depths of frames 0 and 1
    are refused, since frame 1 yields no entry. *)
Example analyze_video_depths_refuses_shifted :
  ¬ ∃ (top : Z) (entry_frames : list Z),
      (∀ f, f ∈ entry_frames ↔
            f ∈ py_range 0 (frame_count sample_video) 1 ∧
            yields_entry sample_video 1 one_half one_tenth top f) ∧
      [Qc_of_Z 0; Qc_of_Z 125] = depth_of sample_video (Q2Qc 500) <$> entry_frames.
Proof.
  intros (top & fs & Hiff & Hd).
  destruct fs as [|a [|b [|c fs]]]; try discriminate Hd.
  injection Hd as _ Hb.
  assert (b ∈ [a; b]) as Hin by (apply list_elem_of_further, list_elem_of_here).
  apply Hiff in Hin as [Hrange (lts & (f & _ & _ & _ & Hf & _) & _)].
  change (py_range 0 (frame_count sample_video) 1) with [0; 1; 2; 3] in Hrange.
  repeat (apply elem_of_cons in Hrange as [->|Hrange];
          [try (vm_compute in Hb; discriminate Hb); try discriminate Hf|]).
  by apply elem_of_nil in Hrange.
Qed.


(** ** The further properties on the sample inputs *)

Lemma calculate_thickness_bounds_witness :
  0 ≤ 3 ≤ Z.of_nat (length [0; 0; 200; 210; 190; 0; 0]) - 1.
Proof.
  apply (calculate_thickness_bounds [0; 0; 200; 210; 190; 0; 0] one_half 3).
  vm_compute. reflexivity.
Defined.

Lemma calculate_thickness_scale_witness :
  calculate_thickness (map (Z.mul 2) [0; 10; 100; 90; 20; 0]) one_half =
  calculate_thickness [0; 10; 100; 90; 20; 0] one_half.
Proof.
  apply (calculate_thickness_scale 2); [lia|reflexivity|].
  repeat constructor; lia.
Defined.

Lemma extract_vertical_lines_shape_witness :
  length [[10]; [0]; [1]; [2]; [3]; [4]; [5]; [6]; [7]; [8]; [9]; [10]] = Z.to_nat 12 ∧
  Forall (λ line, length line = length (img_rows ruler))
    [[10]; [0]; [1]; [2]; [3]; [4]; [5]; [6]; [7]; [8]; [9]; [10]].
Proof.
  apply (extract_vertical_lines_shape ruler 12 one_tenth). vm_compute. reflexivity.
Defined.

Lemma extract_vertical_lines_single_witness :
  extract_vertical_lines ruler 1 one_tenth = Ok [profile_of ruler (img_width ruler / 2)].
Proof. apply (extract_vertical_lines_single ruler one_tenth). reflexivity. Defined.

Lemma extract_vertical_lines_in_range_witness :
  extract_vertical_lines ruler 3 one_tenth =
    Ok (map (λ i, profile_of ruler (line_column 11 3 one_tenth i)) (py_range 0 3 1)).
Proof.
  apply (extract_vertical_lines_in_range ruler 3 one_tenth); vm_compute;
    solve [discriminate | reflexivity].
Defined.

(** The five answers of the sample console. *)
Lemma prompt_user_reads_five_lines_witness :
  let w := World module_namespace sample_console [] in
  let w' := World module_namespace [LText "n"] (replicate 5 ConsolePrompt) in
  ∃ l1 l3 l4 l5 max_depth_cm,
    stdin w = l1 :: LInt 1 :: l3 :: l4 :: l5 :: stdin w' ∧
    parses_as_float l1 max_depth_cm ∧
    Qc_of_Z 500 = (max_depth_cm * Qc_of_Z 10)%Qc ∧
    parses_as_float l3 1%Qc ∧
    (false = true ↔ answers_yes l4) ∧
    (false = true ↔ answers_yes l5) ∧
    trace w' = trace w ++ replicate 5 ConsolePrompt ∧
    globals w' = globals w.
Proof.
  intros w w'.
  apply (prompt_user_reads_five_lines w w' (Qc_of_Z 500) 1 1%Qc false false).
  qc_eq.
Defined.

Lemma analyze_video_reads_sampled_frames_witness :
  let w := analysis_world false [] in
  let w' := (analyze_video sample_video 1 (Q2Qc 500) 1 one_half one_tenth 0 w).1 in
  trace w' = trace w ++ (read_event sample_video <$> py_range 0 (frame_count sample_video) 1) ∧
  stdin w' = stdin w.
Proof.
  intros w w'.
  apply (analyze_video_reads_sampled_frames sample_video 1 (Q2Qc 500) 1 one_half one_tenth 0
           w w' (VBool false) (VBool false) 8 [Qc_of_Z 0; Qc_of_Z 250]
           [Qc_of_Z 3; Qc_of_Z 2] 8); try reflexivity.
  apply pair_of_snd, analyze_sample_video.
Defined.

Lemma analyze_video_nonpositive_stride_witness :
  let w := analysis_world false [] in
  analyze_video sample_video (-1) (Q2Qc 500) 1 one_half one_tenth 0 w =
    (w, if -1 =? 0 then Err ValueError else Ok ([], [], 8)).
Proof.
  intros w.
  apply (analyze_video_nonpositive_stride sample_video (-1) (Q2Qc 500) 1 one_half one_tenth 0
           w (VBool false) 8); try reflexivity.
  discriminate.
Defined.

Lemma analyze_video_unreadable_first_frame_witness :
  let w := analysis_world true [] in
  let run := analyze_video unreadable_video 1 (Q2Qc 500) 1 one_half one_tenth 0 w in
  (∃ e, run.2 = Err e) ∧ run.2 = Err (UnboundLocalError "total_pixels").
Proof.
  intros w run.
  destruct (analyze_video_unreadable_first_frame unreadable_video 1 (Q2Qc 500) 1 one_half
              one_tenth 0 w run.1 (VBool true) run.2) as [Hraises Hunbound];
    try reflexivity.
  split; [exact Hraises|]. apply Hunbound; [reflexivity|discriminate|discriminate].
Defined.

Example analyze_sample_video_excluded :
  (analyze_video sample_video 1 (Q2Qc 500) 1 one_half one_tenth 0
     (analysis_world true [LFloat (Q2Qc (5 # 2))])).2 =
  Ok ([Qc_of_Z 0; Qc_of_Z 250], [Qc_of_Z 3; Qc_of_Z 2], 6).
Proof. qc_eq. Qed.

Lemma analyze_video_usable_pixels_witness : 0 ≤ 6 ≤ vid_height sample_video.
Proof.
  apply (analyze_video_usable_pixels sample_video 1 (Q2Qc 500) 1 one_half one_tenth 0
           (analysis_world true [LFloat (Q2Qc (5 # 2))])
           (analyze_video sample_video 1 (Q2Qc 500) 1 one_half one_tenth 0
              (analysis_world true [LFloat (Q2Qc (5 # 2))])).1
           (VBool true) [Qc_of_Z 0; Qc_of_Z 250] [Qc_of_Z 3; Qc_of_Z 2] 6);
    try reflexivity.
  apply pair_of_snd, analyze_sample_video_excluded.
Defined.

Lemma analyze_video_depth_range_witness :
  Forall (λ d, (0 ≤ d)%Qc ∧ (d < Q2Qc 500)%Qc) [Qc_of_Z 0; Qc_of_Z 250].
Proof.
  apply (analyze_video_depth_range sample_video 1 (Q2Qc 500) 1 one_half one_tenth 0
           (analysis_world false [])
           (analyze_video sample_video 1 (Q2Qc 500) 1 one_half one_tenth 0
              (analysis_world false [])).1
           [Qc_of_Z 0; Qc_of_Z 250] [Qc_of_Z 3; Qc_of_Z 2] 8); try reflexivity.
  apply pair_of_snd, analyze_sample_video.
Defined.

Lemma sample_video_heights n f : frames sample_video n = Some f → img_height f ≤ 8.
Proof.
  unfold sample_video. simpl.
  repeat (destruct (_ =? _); [intros [= <-]; vm_compute; discriminate|]). done.
Qed.

Lemma analyze_video_thickness_upper_bound_witness :
  Forall (λ t, (t ≤ Qc_of_Z (8 - 1))%Qc) [Qc_of_Z 3; Qc_of_Z 2].
Proof.
  apply (analyze_video_thickness_upper_bound sample_video 1 (Q2Qc 500) 1 one_half one_tenth 0
           8 (analysis_world false [])
           (analyze_video sample_video 1 (Q2Qc 500) 1 one_half one_tenth 0
              (analysis_world false [])).1 [Qc_of_Z 0; Qc_of_Z 250] _ 8).
  - exact sample_video_heights.
  - apply pair_of_snd, analyze_sample_video.
Defined.

(** The sample video with all 8 rows of every frame blanked. *)
Lemma analyze_video_fully_masked_witness :
  let run := analyze_video sample_video 1 (Q2Qc 500) 1 one_half one_tenth 8
               (analysis_world false []) in
  run.2 = Ok ([], [], 8) ∧ (@nil Qc = [] ∧ @nil Qc = []).
Proof.
  intros run. split; [vm_compute; reflexivity|].
  apply (analyze_video_fully_masked sample_video 1 (Q2Qc 500) 1 one_half one_tenth 8
           (analysis_world false []) run.1 (VBool false) [] [] 8).
  - vm_compute. reflexivity.
  - reflexivity.
  - lia.
  - exact sample_video_heights.
  - apply pair_of_snd. vm_compute. reflexivity.
Defined.

(** The sample video sampled with no line. *)
Lemma analyze_video_no_lines_witness :
  let run := analyze_video sample_video 1 (Q2Qc 500) 0 one_half one_tenth 0
               (analysis_world false []) in
  run.2 = Ok ([], [], 8) ∧ (@nil Qc = [] ∧ @nil Qc = []).
Proof.
  intros run. split; [vm_compute; reflexivity|].
  apply (analyze_video_no_lines sample_video 1 (Q2Qc 500) 0 one_half one_tenth 0
           (analysis_world false []) run.1 [] [] 8).
  - lia.
  - apply pair_of_snd. vm_compute. reflexivity.
Defined.

(** With the visualisations on, the sample video makes the analysis
    raise at its first entry; a video without a pulse is analysed to the
    end. *)
Example analyze_sample_video_visualized :
  (analyze_video sample_video 1 (Q2Qc 500) 1 one_half one_tenth 0 visualizing_world).2 =
  Err (NameError "max_depth").
Proof. vm_compute. reflexivity. Qed.

Lemma analyze_video_visualized_records_nothing_witness :
  let run := analyze_video dark_video 1 (Q2Qc 500) 1 one_half one_tenth 0
               visualizing_world in
  run.2 = Ok ([], [], 8) ∧ (@nil Qc = [] ∧ @nil Qc = []).
Proof.
  intros run. split; [vm_compute; reflexivity|].
  apply (analyze_video_visualized_records_nothing dark_video 1 (Q2Qc 500) 1 one_half
           one_tenth 0 visualizing_world run.1 (VBool true) [] [] 8).
  - vm_compute. reflexivity.
  - reflexivity.
  - vm_compute. reflexivity.
  - apply pair_of_snd. vm_compute. reflexivity.
Defined.

Lemma run_script_no_partial_output_witness :
  let run := run_script "v" "s" sample_video sample_console in
  ∃ t rows total_pixels max_depth_mm ratio,
    trace run.1 = t ++ [CsvWritten rows; FigureShown;
                        LogWritten total_pixels max_depth_mm ratio] ∧
    Forall analysis_event t.
Proof.
  intros run.
  apply (run_script_no_partial_output "v" "s" sample_video sample_console run.1 (Ok ())).
  apply pair_of_snd. vm_compute. reflexivity.
Defined.

Example run_script_visualized_sample :
  (run_script "v" "s" sample_video visualized_console).2 = Err (NameError "max_depth").
Proof. vm_compute. reflexivity. Qed.

Lemma run_script_visualized_exports_nothing_witness :
  let run := run_script "v" "s" dark_video visualized_console in
  Forall (λ ev, ∀ rows, ev = CsvWritten rows → rows = []) (trace run.1).
Proof.
  intros run.
  apply (run_script_visualized_exports_nothing "v" "s" dark_video visualized_console
           run.1 (Ok ())).
  - apply pair_of_snd. vm_compute. reflexivity.
  - vm_compute. reflexivity.
Defined.

(** The calibration of the sample video: analysed directly with the
    exclusion zone on and the answer 2.5, which leaves 8 - 2 = 6 usable
    pixels, and by a complete run of the script. *)
Example calibrate_sample_video_excluded :
  ((analyze_video sample_video 1 (Q2Qc 500) 1 one_half one_tenth 0
      ≫= calibrate_and_export (Q2Qc 500))
     (analysis_world true [LFloat (Q2Qc (5 # 2))])).2 = Ok ().
Proof. vm_compute. reflexivity. Qed.

Example calibrate_sample_video_excluded_log :
  last (trace ((analyze_video sample_video 1 (Q2Qc 500) 1 one_half one_tenth 0
                  ≫= calibrate_and_export (Q2Qc 500))
                 (analysis_world true [LFloat (Q2Qc (5 # 2))])).1) =
  Some (LogWritten 6 (Q2Qc 500) (Q2Qc (250 # 3))).
Proof. qc_eq. Qed.

Example run_sample_script_completes :
  (run_script "v" "s" sample_video sample_console).2 = Ok ().
Proof. vm_compute. reflexivity. Qed.

Lemma calibration_ratio_witness :
  let w := analysis_world true [LFloat (Q2Qc (5 # 2))] in
  let call := (analyze_video sample_video 1 (Q2Qc 500) 1 one_half one_tenth 0
                ≫= calibrate_and_export (Q2Qc 500)) w in
  let script := run_script "v" "s" sample_video sample_console in
  calibrated sample_video 1 (Q2Qc 500) 1 0 true 8 w call.1 ∧
  ∃ (w1 : world) (max_depth_mm' : Qc) (frame_interval' num_lines' : Z),
    prompts_only (trace w1) ∧
    globals w1 !! "use_exclusion_zone" = Some (VBool false) ∧
    globals w1 !! "frame_height" = Some (VInt (vid_height sample_video)) ∧
    calibrated sample_video frame_interval' max_depth_mm' num_lines' 0 false
      (vid_height sample_video) w1 script.1.
Proof.
  intros w call script.
  destruct (calibration_ratio "v" "s" sample_video sample_console 1 (Q2Qc 500) 1 0 true 8
              w call.1 script.1) as [Hcall Hscript].
  split.
  - apply Hcall; [reflexivity|reflexivity|].
    exact (pair_of_snd call (Ok ()) calibrate_sample_video_excluded).
  - apply Hscript.
    exact (pair_of_snd script (Ok ()) run_sample_script_completes).
Defined.
